(** * MCPProject: side-car metadata store, describer, per-source clients, orchestrator

  A shallow embedding of the Python sources

    mcp_system/scanner/metadata_store.py   (FileMeta, SidecarStore)
    mcp_system/scanner/auto_desc.py        (auto_describe)
    mcp_system/scanner/core.py             (scan_object, _download_head)
    mcp_system/aws_s3/client_s3.py         (answer, _auto_prescan, ...)
    mcp_system/azure_blob/client_azure.py  (answer, _prescan, ...)
    mcp_system/client.py                   (answer, _execute_plan, _augment, ...)

  Conventions.
  - A Python [str] is a Rocq [string] holding its UTF-8 code units; every
    text operation below is written so that it acts on that encoding the
    way Python acts on the code points.
  - A Python [int] is a [Z].
  - Code that talks to a storage backend, to the language model, to the
    clock or to pandas runs in the monad [M]: explicit passing of a
    [World] plus a Python exception channel.  The collaborators
    themselves are the fields of the class [Collaborators]. *)

From Stdlib Require Import ZArith List Ascii String Bool Lia.
From stdpp Require Import base option list sorting strings gmap.

Local Open Scope string_scope.
Set Warnings "-abstract-large-number".

(** ** Python string operations *)

Module PyStr.

(** The line feed, the double quote and the backslash, by their codes. *)
Definition LF : ascii := "010"%char.
Definition DQ : ascii := "034"%char.
Definition BSL : ascii := "092"%char.
Definition nl : string := String LF EmptyString.

(** [s.startswith(p)] *)
Fixpoint startswith (p s : string) : bool :=
  match p with
  | EmptyString => true
  | String a p' =>
      match s with
      | EmptyString => false
      | String b s' => if Ascii.eqb a b then startswith p' s' else false
      end
  end.

(** [s[n:]] *)
Fixpoint drop (n : nat) (s : string) : string :=
  match n with
  | O => s
  | S n' => match s with
            | EmptyString => EmptyString
            | String _ s' => drop n' s'
            end
  end.

(** [s[:n]] *)
Fixpoint take (n : nat) (s : string) : string :=
  match n with
  | O => EmptyString
  | S n' => match s with
            | EmptyString => EmptyString
            | String c s' => String c (take n' s')
            end
  end.

Fixpoint rev_onto (s acc : string) : string :=
  match s with
  | EmptyString => acc
  | String c s' => rev_onto s' (String c acc)
  end.

Definition rev (s : string) : string := rev_onto s EmptyString.

(** [s.endswith(p)] *)
Definition endswith (p s : string) : bool := startswith (rev p) (rev s).

(** [s.split(sep, 1)] when [sep] occurs in [s]: the text before and the
    text after the first occurrence; [None] when [sep not in s] (Python
    then returns the one-element list [[s]]). *)
Fixpoint split_once (sep s : string) : option (string * string) :=
  if startswith sep s then Some (EmptyString, drop (String.length sep) s)
  else match s with
       | EmptyString => None
       | String c s' =>
           match split_once sep s' with
           | Some (a, b) => Some (String c a, b)
           | None => None
           end
       end.

(** [sub in s] *)
Definition contains (sub s : string) : bool :=
  match split_once sub s with Some _ => true | None => false end.

(** [s.split(sep)] for a non-empty [sep]; the fuel is the length of [s]. *)
Fixpoint split_fuel (fuel : nat) (sep s : string) : list string :=
  match fuel with
  | O => [s]
  | S f =>
      match split_once sep s with
      | Some (a, b) => a :: split_fuel f sep b
      | None => [s]
      end
  end.

Definition split (sep s : string) : list string :=
  split_fuel (String.length s) sep s.

(** [sep.join(l)] *)
Fixpoint join (sep : string) (l : list string) : string :=
  match l with
  | [] => EmptyString
  | [x] => x
  | x :: rest => x +:+ sep +:+ join sep rest
  end.

(** [s.replace(old, new)] for a non-empty [old]. *)
Definition replace (old new s : string) : string := join new (split old s).

Definition bytes (l : list nat) : string :=
  fold_right (fun n acc => String (ascii_of_nat n) acc) EmptyString l.

(** The characters [str.isspace] accepts, as UTF-8: U+0009..U+000D,
    U+001C..U+0020, U+0085, U+00A0, U+1680, U+2000..U+200A, U+2028,
    U+2029, U+202F, U+205F, U+3000. *)
Definition whitespace : list string :=
  map (fun n => bytes [n]) [9; 10; 11; 12; 13; 28; 29; 30; 31; 32]
  ++ [bytes [194; 133]; bytes [194; 160]; bytes [225; 154; 128]]
  ++ map (fun n => bytes [226; 128; n])
       [128; 129; 130; 131; 132; 133; 134; 135; 136; 137; 138; 168; 169; 175]
  ++ [bytes [226; 129; 159]; bytes [227; 128; 128]].

(** One leading white-space character removed, if there is one. *)
Fixpoint eat_one (pats : list string) (s : string) : option string :=
  match pats with
  | [] => None
  | p :: rest =>
      if startswith p s then Some (drop (String.length p) s)
      else eat_one rest s
  end.

Fixpoint eat_all (fuel : nat) (pats : list string) (s : string) : string :=
  match fuel with
  | O => s
  | S f => match eat_one pats s with
           | Some s' => eat_all f pats s'
           | None => s
           end
  end.

(** [s.lstrip()], [s.rstrip()], [s.strip()] *)
Definition lstrip (s : string) : string :=
  eat_all (String.length s) whitespace s.

Definition rstrip (s : string) : string :=
  rev (eat_all (String.length s) (map rev whitespace) (rev s)).

Definition strip (s : string) : string := rstrip (lstrip s).

(** [len(s.split())]: the number of maximal runs of non-white-space. *)
Fixpoint count_words (fuel : nat) (in_word : bool) (s : string) : nat :=
  match fuel with
  | O => 0
  | S f =>
      match eat_one whitespace s with
      | Some s' => count_words f false s'
      | None =>
          match s with
          | EmptyString => 0
          | String _ s' =>
              (if in_word then 0 else 1) + count_words f true s'
          end
      end
  end.

Definition word_count (s : string) : nat :=
  count_words (S (String.length s)) false s.

(** ASCII case mapping.  [str.lower] and [str.upper] also map letters
    outside ASCII; the sources only compare the result with ASCII text or
    paste it into a prompt. *)
Definition lower_char (c : ascii) : ascii :=
  let n := nat_of_ascii c in
  if (65 <=? n)%nat && (n <=? 90)%nat then ascii_of_nat (n + 32) else c.

Definition upper_char (c : ascii) : ascii :=
  let n := nat_of_ascii c in
  if (97 <=? n)%nat && (n <=? 122)%nat then ascii_of_nat (n - 32) else c.

Fixpoint map_chars (f : ascii -> ascii) (s : string) : string :=
  match s with
  | EmptyString => EmptyString
  | String c s' => String (f c) (map_chars f s')
  end.

Definition lower : string -> string := map_chars lower_char.
Definition upper : string -> string := map_chars upper_char.

(** Decimal rendering of a non-negative number, [str(n)]. *)
Definition digit_char (n : nat) : ascii := ascii_of_nat (48 + n).

Fixpoint nat_digits (fuel n : nat) (acc : string) : string :=
  match fuel with
  | O => acc
  | S f =>
      let acc' := String (digit_char (n mod 10)) acc in
      if (n <? 10)%nat then acc' else nat_digits f (n / 10) acc'
  end.

Definition str_of_nat (n : nat) : string := nat_digits (S n) n EmptyString.

(** [str(z)] for an [int]. *)
Definition str_of_Z (z : Z) : string :=
  if (z <? 0)%Z then String "-"%char (str_of_nat (Z.to_nat (- z)))
  else str_of_nat (Z.to_nat z).

(** [s[:n]] counted in code points: a continuation unit (10xxxxxx) stays
    with the character it belongs to. *)
Definition is_continuation (c : ascii) : bool :=
  let n := nat_of_ascii c in (128 <=? n)%nat && (n <=? 191)%nat.

Fixpoint take_chars (n : nat) (s : string) : string :=
  match s with
  | EmptyString => EmptyString
  | String c s' =>
      if is_continuation c then String c (take_chars n s')
      else match n with
           | O => EmptyString
           | S n' => String c (take_chars n' s')
           end
  end.

(** The line boundaries of [str.splitlines]: CR LF first, then LF, CR,
    VT, FF, FS, GS, RS, U+0085, U+2028, U+2029. *)
Definition linebreaks : list string :=
  [bytes [13; 10]; bytes [10]; bytes [13]; bytes [11]; bytes [12];
   bytes [28]; bytes [29]; bytes [30]; bytes [194; 133];
   bytes [226; 128; 168]; bytes [226; 128; 169]].

Fixpoint split_lines (fuel : nat) (cur s : string) : list string :=
  match fuel with
  | O => []
  | S f =>
      match eat_one linebreaks s with
      | Some s' => rev cur :: split_lines f EmptyString s'
      | None =>
          match s with
          | EmptyString =>
              match cur with EmptyString => [] | _ => [rev cur] end
          | String c s' => split_lines f (String c cur) s'
          end
      end
  end.

(** [s.splitlines()] *)
Definition splitlines (s : string) : list string :=
  split_lines (S (String.length s)) EmptyString s.

(** [os.path.basename(s)] *)
Definition basename (s : string) : string :=
  List.last (split "/" s) EmptyString.

(** The text a regular expression sees before a final dollar sign: the
    whole text, or the text without its last line feed. *)
Definition chomp (s : string) : string :=
  match rev s with
  | String c r => if Ascii.eqb c LF then rev r else s
  | EmptyString => s
  end.

(** A text between double quotes. *)
Definition quoted (s : string) : string :=
  String DQ (s +:+ String DQ EmptyString).

(** Truthiness of a [str]: non-empty. *)
Definition truthy (s : string) : bool :=
  match s with EmptyString => false | _ => true end.

End PyStr.

(** ** [datetime] and the side-car time format *)

Module Datetime.
Import PyStr.

(** A naive [datetime.datetime]. *)
Record datetime : Type := mk {
  year : Z; month : Z; day : Z;
  hour : Z; minute : Z; second : Z;
  microsecond : Z
}.

Definition is_leap (y : Z) : bool :=
  ((y mod 4 =? 0) && negb (y mod 100 =? 0) || (y mod 400 =? 0))%Z.

Definition days_in_month (y m : Z) : Z :=
  if (m =? 2)%Z then (if is_leap y then 29 else 28)%Z
  else if ((m =? 4) || (m =? 6) || (m =? 9) || (m =? 11))%Z then 30%Z
  else 31%Z.

Definition within (lo hi x : Z) : bool := ((lo <=? x) && (x <=? hi))%Z.

(** The range checks of the [datetime] constructor. *)
Definition valid (d : datetime) : bool :=
  within 1 9999 (year d) && within 1 12 (month d)
  && within 1 (days_in_month (year d) (month d)) (day d)
  && within 0 23 (hour d) && within 0 59 (minute d)
  && within 0 59 (second d) && within 0 999999 (microsecond d).

Definition digit (n : Z) : ascii := digit_char (Z.to_nat (n mod 10)).

Definition pad2 (n : Z) : string :=
  String (digit (n / 10)) (String (digit n) EmptyString).

Definition pad4 (n : Z) : string :=
  String (digit (n / 1000)) (String (digit (n / 100)) (pad2 n)).

(** [d.strftime(ISO_FMT)] with [ISO_FMT = %Y-%m-%dT%H:%M:%SZ].  The year
    is written with four digits, the way the library documents the
    directive (0001 to 9999) and the way [strptime] asks for it.  For the
    years 1000 to 9999 these are the plain digits of the year.  A C
    library that does not pad the year (glibc) writes a year before 1000
    with fewer digits, which [strptime] then refuses: for such a year
    this definition is not what that platform prints, and what is stated
    of the text of a time holds there for the years from 1000 on. *)
Definition strftime (d : datetime) : string :=
  pad4 (year d) +:+ "-" +:+ pad2 (month d) +:+ "-" +:+ pad2 (day d)
  +:+ "T" +:+ pad2 (hour d) +:+ ":" +:+ pad2 (minute d) +:+ ":"
  +:+ pad2 (second d) +:+ "Z".

Definition digit_val (c : ascii) : option Z :=
  let n := nat_of_ascii c in
  if (48 <=? n)%nat && (n <=? 57)%nat then Some (Z.of_nat (n - 48)) else None.

(** A directive that takes one or two digits ([%m %d %H %M %S]) followed
    by the literal [sep], the way the regular expression of [_strptime]
    reads it: the two-character alternatives first, then the
    one-character one; [two] and [one] say which values each accepts.
    For [%d] a blank may stand for the first digit. *)
Definition field (two one : Z -> bool) (blank : bool) (sep : ascii)
    (s : string) : option (Z * string) :=
  let try_one :=
    match s with
    | String a (String b rest) =>
        match digit_val a with
        | Some x => if one x && Ascii.eqb (lower_char b) (lower_char sep)
                    then Some (x, rest) else None
        | None => None
        end
    | _ => None
    end in
  match s with
  | String a (String b (String c rest)) =>
      let hi := if blank && Ascii.eqb a " " then Some 0%Z else digit_val a in
      match hi, digit_val b with
      | Some x, Some y =>
          let v := (10 * x + y)%Z in
          let shape := if Ascii.eqb a " " then negb (y =? 0)%Z else two v in
          if shape && Ascii.eqb (lower_char c) (lower_char sep)
          then Some (v, rest) else try_one
      | _, _ => try_one
      end
  | _ => try_one
  end.

(** [%Y]: exactly four digits, then the literal. *)
Definition year_field (sep : ascii) (s : string) : option (Z * string) :=
  match s with
  | String a (String b (String c (String d (String e rest)))) =>
      match digit_val a, digit_val b, digit_val c, digit_val d with
      | Some x3, Some x2, Some x1, Some x0 =>
          if Ascii.eqb e sep
          then Some ((1000 * x3 + 100 * x2 + 10 * x1 + x0)%Z, rest)
          else None
      | _, _, _, _ => None
      end
  | _ => None
  end.

(** [datetime.strptime(s, ISO_FMT)]; [None] stands for [ValueError].
    The pattern is matched ignoring case, the whole text must be
    consumed, and the fields must pass the constructor's range checks. *)
Definition strptime (s : string) : option datetime :=
  match year_field "-" s with
  | Some (y, s1) =>
    match field (fun v => within 1 12 v) (fun v => within 1 9 v) false "-" s1 with
    | Some (mo, s2) =>
      match field (fun v => within 1 31 v) (fun v => within 1 9 v) true "T" s2 with
      | Some (d, s3) =>
        match field (fun v => within 0 23 v) (fun v => within 0 9 v) false ":" s3 with
        | Some (h, s4) =>
          match field (fun v => within 0 59 v) (fun v => within 0 9 v) false ":" s4 with
          | Some (mi, s5) =>
            match field (fun v => within 0 61 v) (fun v => within 0 9 v) false "Z" s5 with
            | Some (se, EmptyString) =>
                let r := mk y mo d h mi se 0 in
                if valid r then Some r else None
            | _ => None
            end
          | None => None
          end
        | None => None
        end
      | None => None
      end
    | None => None
    end
  | None => None
  end.

(** The time a record keeps through the side-car format: whole seconds. *)
Definition whole_seconds (d : datetime) : datetime :=
  mk (year d) (month d) (day d) (hour d) (minute d) (second d) 0.

End Datetime.

(** ** The JSON of a side-car: [json.dumps] and [json.loads] *)

Module Json.
Import PyStr.

(** The values a [FileMeta] holds: text and integers.  A JSON document
    with a value of another kind (a float, [true], [null], an array, a
    nested object) does not describe a record of the declared field
    types; [loads] answers [None] for it as for a malformed document. *)
Inductive value : Type :=
| JStr (s : string)
| JInt (z : Z).

Definition hex_digit (n : nat) : ascii :=
  if (n <? 10)%nat then ascii_of_nat (48 + n) else ascii_of_nat (87 + n).

(** [ESCAPE_DCT] of the encoder with [ensure_ascii=False]. *)
Definition escape_char (c : ascii) : string :=
  let n := nat_of_ascii c in
  if Ascii.eqb c DQ then String BSL (String DQ EmptyString)
  else if Ascii.eqb c BSL then String BSL (String BSL EmptyString)
  else if (n =? 10)%nat then String BSL "n"
  else if (n =? 13)%nat then String BSL "r"
  else if (n =? 9)%nat then String BSL "t"
  else if (n =? 12)%nat then String BSL "f"
  else if (n =? 8)%nat then String BSL "b"
  else if (n <? 32)%nat
       then String BSL
              ("u00" +:+ String (hex_digit (n / 16))
                           (String (hex_digit (n mod 16)) EmptyString))
  else String c EmptyString.

Fixpoint escape (s : string) : string :=
  match s with
  | EmptyString => EmptyString
  | String c s' => escape_char c +:+ escape s'
  end.

Definition dumps_string (s : string) : string :=
  String DQ (escape s +:+ String DQ EmptyString).

Definition dumps_value (v : value) : string :=
  match v with
  | JStr s => dumps_string s
  | JInt z => str_of_Z z
  end.

(** [json.dumps(d, ensure_ascii=False)] of a flat [dict], with the
    default separators. *)
Definition dumps (d : list (string * value)) : string :=
  "{" +:+ join ", " (map (fun kv => dumps_string (fst kv) +:+ ": "
                                     +:+ dumps_value (snd kv)) d)
  +:+ "}".

Definition is_ws (c : ascii) : bool :=
  let n := nat_of_ascii c in
  (n =? 32)%nat || (n =? 9)%nat || (n =? 10)%nat || (n =? 13)%nat.

Fixpoint skip_ws (s : string) : string :=
  match s with
  | EmptyString => EmptyString
  | String c s' => if is_ws c then skip_ws s' else s
  end.

Definition hex_val (c : ascii) : option nat :=
  let n := nat_of_ascii c in
  if (48 <=? n)%nat && (n <=? 57)%nat then Some (n - 48)%nat
  else if (97 <=? n)%nat && (n <=? 102)%nat then Some (n - 87)%nat
  else if (65 <=? n)%nat && (n <=? 70)%nat then Some (n - 55)%nat
  else None.

Definition hex4 (a b c d : ascii) : option N :=
  match hex_val a, hex_val b, hex_val c, hex_val d with
  | Some x3, Some x2, Some x1, Some x0 =>
      Some (4096 * N.of_nat x3 + 256 * N.of_nat x2
            + 16 * N.of_nat x1 + N.of_nat x0)%N
  | _, _, _, _ => None
  end.

Definition nbytes (l : list N) : string := bytes (map N.to_nat l).

(** The UTF-8 code units of a code point. *)
Definition utf8 (cp : N) : string :=
  (if cp <? 128 then nbytes [cp]
   else if cp <? 2048 then nbytes [192 + cp / 64; 128 + cp mod 64]
   else if cp <? 65536
        then nbytes [224 + cp / 4096; 128 + (cp / 64) mod 64; 128 + cp mod 64]
   else nbytes [240 + cp / 262144; 128 + (cp / 4096) mod 64;
                128 + (cp / 64) mod 64; 128 + cp mod 64])%N.

(** [py_scanstring] in strict mode, from the character after the opening
    quote: the decoded text and what follows the closing quote. *)
Fixpoint scan_string (s : string) : option (string * string) :=
  match s with
  | EmptyString => None
  | String c s' =>
      if Ascii.eqb c DQ then Some (EmptyString, s')
      else if Ascii.eqb c BSL then
        match s' with
        | EmptyString => None
        | String e s'' =>
            let simple (x : nat) :=
              match scan_string s'' with
              | Some (t, r) => Some (String (ascii_of_nat x) t, r)
              | None => None
              end in
            if Ascii.eqb e DQ then simple 34%nat
            else if Ascii.eqb e BSL then simple 92%nat
            else if Ascii.eqb e "/" then simple 47%nat
            else if Ascii.eqb e "b" then simple 8%nat
            else if Ascii.eqb e "f" then simple 12%nat
            else if Ascii.eqb e "n" then simple 10%nat
            else if Ascii.eqb e "r" then simple 13%nat
            else if Ascii.eqb e "t" then simple 9%nat
            else if Ascii.eqb e "u" then
              match s'' with
              | String h1 (String h2 (String h3 (String h4 r))) =>
                  match hex4 h1 h2 h3 h4 with
                  | None => None
                  | Some hi =>
                      let lone :=
                        match scan_string r with
                        | Some (t, r') => Some (utf8 hi +:+ t, r')
                        | None => None
                        end in
                      if ((55296 <=? hi) && (hi <=? 56319))%N then
                        match r with
                        | String b1 (String b2
                            (String g1 (String g2 (String g3 (String g4 r2))))) =>
                            if Ascii.eqb b1 BSL && Ascii.eqb b2 "u" then
                              match hex4 g1 g2 g3 g4 with
                              | None => None
                              | Some lo =>
                                  if ((56320 <=? lo) && (lo <=? 57343))%N then
                                    match scan_string r2 with
                                    | Some (t, r') =>
                                        Some (utf8 (65536 + (hi - 55296) * 1024
                                                    + (lo - 56320))%N +:+ t, r')
                                    | None => None
                                    end
                                  else lone
                              end
                            else lone
                        | String b1 (String b2 _) =>
                            if Ascii.eqb b1 BSL && Ascii.eqb b2 "u" then None
                            else lone
                        | _ => lone
                        end
                      else lone
                  end
              | _ => None
              end
            else None
        end
      else if (nat_of_ascii c <? 32)%nat then None
      else
        match scan_string s' with
        | Some (t, r) => Some (String c t, r)
        | None => None
        end
  end.

(** The digits that follow the first one of a number. *)
Fixpoint more_digits (acc : Z) (s : string) : Z * string :=
  match s with
  | EmptyString => (acc, EmptyString)
  | String c s' =>
      let n := nat_of_ascii c in
      if (48 <=? n)%nat && (n <=? 57)%nat
      then more_digits (10 * acc + Z.of_nat (n - 48)) s'
      else (acc, s)
  end.

(** The integer part of [NUMBER_RE]: an optional minus sign, then a
    single zero or a non-zero digit followed by digits. *)
Definition scan_nat (s : string) : option (Z * string) :=
  match s with
  | EmptyString => None
  | String c s' =>
      let n := nat_of_ascii c in
      if (n =? 48)%nat then Some (0%Z, s')
      else if (49 <=? n)%nat && (n <=? 57)%nat
           then Some (more_digits (Z.of_nat (n - 48)) s')
      else None
  end.

Definition scan_int (s : string) : option (Z * string) :=
  match s with
  | String "-" s' =>
      match scan_nat s' with
      | Some (z, r) => Some ((- z)%Z, r)
      | None => None
      end
  | _ => scan_nat s
  end.

(** A fraction or an exponent after the integer part makes a float. *)
Definition float_tail (s : string) : bool :=
  match s with
  | String "." (String d _) => (48 <=? nat_of_ascii d)%nat && (nat_of_ascii d <=? 57)%nat
  | String e (String d r) =>
      (Ascii.eqb e "e" || Ascii.eqb e "E")
      && (let isd (x : ascii) := (48 <=? nat_of_ascii x)%nat && (nat_of_ascii x <=? 57)%nat in
          isd d || ((Ascii.eqb d "+" || Ascii.eqb d "-")
                    && match r with String d' _ => isd d' | _ => false end))
  | _ => false
  end.

Definition scan_value (s : string) : option (value * string) :=
  match s with
  | EmptyString => None
  | String c s' =>
      if Ascii.eqb c DQ then
        match scan_string s' with
        | Some (t, r) => Some (JStr t, r)
        | None => None
        end
      else
        match scan_int s with
        | Some (z, r) => if float_tail r then None else Some (JInt z, r)
        | None => None
        end
  end.

(** The members of an object, from its first key on; the fuel is the
    length of the text. *)
Fixpoint scan_members (fuel : nat) (s : string)
    : option (list (string * value) * string) :=
  match fuel with
  | O => None
  | S f =>
      match s with
      | String c s1 =>
          if Ascii.eqb c DQ then
            match scan_string s1 with
            | Some (k, s2) =>
                match skip_ws s2 with
                | String ":" s3 =>
                    match scan_value (skip_ws s3) with
                    | Some (v, s4) =>
                        match skip_ws s4 with
                        | String "}" r => Some ([(k, v)], r)
                        | String "," s5 =>
                            match scan_members f (skip_ws s5) with
                            | Some (rest, r) => Some ((k, v) :: rest, r)
                            | None => None
                            end
                        | _ => None
                        end
                    | None => None
                    end
                | _ => None
                end
            | None => None
            end
          else None
      | EmptyString => None
      end
  end.

(** [json.loads(raw)] for a document that is one flat object; [None]
    stands for [JSONDecodeError] (and for the documents set aside at
    [value]).  The members come in document order. *)
Definition loads (raw : string) : option (list (string * value)) :=
  match skip_ws raw with
  | String "{" s1 =>
      match skip_ws s1 with
      | String "}" r =>
          match skip_ws r with EmptyString => Some [] | _ => None end
      | s2 =>
          match scan_members (String.length raw) s2 with
          | Some (d, r) =>
              match skip_ws r with EmptyString => Some d | _ => None end
          | None => None
          end
      end
  | _ => None
  end.

(** [d[k]] of the [dict] built from the members: the last one wins. *)
Fixpoint get (k : string) (d : list (string * value)) : option value :=
  match d with
  | [] => None
  | (k', v) :: rest =>
      match get k rest with
      | Some v' => Some v'
      | None => if String.eqb k k' then Some v else None
      end
  end.

End Json.

(** ** [FileMeta]: the side-car record (metadata_store.py) *)

Module Meta.
Import PyStr.
Export Datetime.

Record FileMeta : Type := mkFileMeta {
  path : string;
  cloud : string;
  title : string;
  description : string;
  mime_type : string;
  size : Z;
  last_scanned : datetime
}.

(** [existing.description = desc] *)
Definition set_description (m : FileMeta) (desc : string) : FileMeta :=
  mkFileMeta (path m) (cloud m) (title m) desc (mime_type m) (size m)
             (last_scanned m).

Definition field_names : list string :=
  ["path"; "cloud"; "title"; "description"; "mime_type"; "size";
   "last_scanned"].

(** [FileMeta.to_json] *)
Definition to_json (m : FileMeta) : string :=
  Json.dumps
    [("path", Json.JStr (path m)); ("cloud", Json.JStr (cloud m));
     ("title", Json.JStr (title m));
     ("description", Json.JStr (description m));
     ("mime_type", Json.JStr (mime_type m)); ("size", Json.JInt (size m));
     ("last_scanned", Json.JStr (strftime (last_scanned m)))].

(** [FileMeta.from_json]; [None] stands for the exception it raises
    ([JSONDecodeError], [KeyError], [ValueError] of [strptime],
    [TypeError] of [cls] on a missing or unexpected key). *)
Definition from_json (raw : string) : option FileMeta :=
  match Json.loads raw with
  | None => None
  | Some d =>
      match Json.get "last_scanned" d with
      | Some (Json.JStr ts) =>
          match strptime ts with
          | None => None
          | Some t =>
              if forallb (fun kv => existsb (String.eqb (fst kv)) field_names) d
              then
                match Json.get "path" d, Json.get "cloud" d,
                      Json.get "title" d, Json.get "description" d,
                      Json.get "mime_type" d, Json.get "size" d with
                | Some (Json.JStr p), Some (Json.JStr c),
                  Some (Json.JStr ti), Some (Json.JStr de),
                  Some (Json.JStr mt), Some (Json.JInt sz) =>
                    Some (mkFileMeta p c ti de mt sz t)
                | _, _, _, _, _, _ => None
                end
              else None
          end
      | _ => None
      end
  end.

(** What the side-car format keeps of a record. *)
Definition stored (m : FileMeta) : FileMeta :=
  mkFileMeta (path m) (cloud m) (title m) (description m) (mime_type m)
             (size m) (whole_seconds (last_scanned m)).

End Meta.

(** ** The world outside: buckets, containers, the local directory, the
  model, the clock, pandas *)

Module Sys.
Export Meta.

Inductive Exception : Type :=
| ValueError (msg : string)
| IndexError (msg : string)
| UnboundLocalError (name : string)
| FileNotFoundError (name : string)
| BackendError (service what : string)
| ModelError
| ParserError.

(** What the code does to its surroundings, in order. *)
Inductive Event : Type :=
| Network (service op container key : string)
| LocalFile (op name : string)
| ModelCall (model prompt : string)
| Called (function : string) (args : list string)
| Printed (text : string).

(** A stored object: its bytes and its content type. *)
Record Object : Type := mkObject {
  body : string;
  content_type : option string
}.

(** The S3 buckets and Azure containers (keyed by container and object
    name), the files of [_local_root], and the trace.  Side-car bodies
    are kept as the text whose UTF-8 encoding is stored. *)
Record World : Type := mkWorld {
  s3_objects : gmap (string * string) Object;
  azure_blobs : gmap (string * string) Object;
  local_files : gmap string string;
  trace : list Event
}.

Inductive Res (A : Type) : Type :=
| Ok (a : A)
| Raise (e : Exception).
Arguments Ok {A} a.
Arguments Raise {A} e.

Definition M (A : Type) : Type := World -> Res A * World.

Definition ret {A} (a : A) : M A := fun w => (Ok a, w).

Definition raise {A} (e : Exception) : M A := fun w => (Raise e, w).

Definition bind {A B} (m : M A) (k : A -> M B) : M B :=
  fun w => match m w with
           | (Ok a, w') => k a w'
           | (Raise e, w') => (Raise e, w')
           end.

(** [try: m  except Exception as e: handler(e)] *)
Definition try_except {A} (m : M A) (handler : Exception -> M A) : M A :=
  fun w => match m w with
           | (Ok a, w') => (Ok a, w')
           | (Raise e, w') => handler e w'
           end.

Definition log (e : Event) : M unit :=
  fun w => (Ok tt, mkWorld (s3_objects w) (azure_blobs w) (local_files w)
                           (trace w ++ [e])%list).

Definition world : M World := fun w => (Ok w, w).

(** A result that needs nothing of the world. *)
Definition lift {A} (r : Res A) : M A := fun w => (r, w).

(** An object put under a name of a bucket or of a container. *)
Definition store_s3 (bucket key : string) (o : Object) : M unit :=
  fun w => (Ok tt, mkWorld (<[(bucket, key) := o]> (s3_objects w))
                           (azure_blobs w) (local_files w) (trace w)).

Definition store_azure (container blob : string) (o : Object) : M unit :=
  fun w => (Ok tt, mkWorld (s3_objects w)
                           (<[(container, blob) := o]> (azure_blobs w))
                           (local_files w) (trace w)).

(** [print]; where the source prints an exception or a dict, the event
    keeps the text around it. *)
Definition print (text : string) : M unit := log (Printed text).

(** [for x in l: body(x)] *)
Fixpoint for_each {A} (l : list A) (body : A -> M unit) : M unit :=
  match l with
  | [] => ret tt
  | x :: rest => bind (body x) (fun _ => for_each rest body)
  end.

(** A data frame as [auto_describe] uses it: named columns of cells. *)
Record Column : Type := mkColumn {
  cname : string;
  cvalues : list string
}.

(** An entry of [_list_meta]: the S3 client builds it with the keys
    [path] and [title], the Azure client adds an empty [description]. *)
Record Listed : Type := mkListed {
  l_path : string;
  l_title : string;
  l_description : option string
}.

(** An entry of [_collect_docs]. *)
Record Doc : Type := mkDoc {
  d_path : string;
  d_title : string;
  d_description : string;
  d_schema : string;
  d_sample_text : string
}.

(** One step of a plan: [step.get(dataset)], [step.get(cloud)] and
    [step.get(sub_question, empty)]. *)
Record Step : Type := mkStep {
  step_dataset : option string;
  step_cloud : option string;
  step_sub_question : string
}.

(** Everything the sources take from their environment and libraries. *)
Class Collaborators : Type := {
  (** [os.getenv] of the configuration *)
  S3_BUCKET : option string;
  AZURE_CONTAINER : option string;
  TEST_MODE : bool;
  SCAN_HEAD_SIZE : nat;
  FINAL_MODEL : string;
  (** [Anthropic().messages.create]: the text of each content block, or
      [None] when the call raises; it may depend on all that happened *)
  complete : list Event -> string -> string -> option (list string);
  (** [datetime.now()], [datetime.utcnow()] *)
  now : list Event -> datetime;
  utcnow : list Event -> datetime;
  (** [bytes.decode(utf-8, errors=ignore)] *)
  decode_ignore : string -> string;
  (** [list(pd.read_csv(io.StringIO(text), nrows=n).columns)] *)
  read_csv_columns : string -> option (list string);
  (** [pd.read_csv(io.BytesIO(raw), nrows=5000)] for a path ending in
      csv, [pd.read_parquet(io.BytesIO(raw))] otherwise *)
  read_frame : bool -> string -> option (list Column);
  (** [pd.to_datetime(column, errors=coerce)] *)
  to_datetime : list string -> list (option datetime);
  (** [textwrap.dedent] *)
  dedent : string -> string;
  (** the [re] module, a pattern given by its source with inline flags:
      [pattern.search(text) is not None], [pattern.split(text, 1)], and
      [pattern.match(text).groups()] for a pattern with two groups *)
  re_search : string -> string -> bool;
  re_split1 : string -> string -> list string;
  re_groups2 : string -> string -> option (string * string);
  (** [json.loads] of the planner's reply: [None] when it raises, else
      the value under the key [steps], if there is one *)
  parse_plan : string -> option (option (list Step))
}.

(** An f-string field holding a value that may be [None]. *)
Definition fmt (o : option string) : string :=
  match o with Some s => s | None => "None" end.

End Sys.

Notation "x <- m ;; k" := (Sys.bind m (fun x => k))
(at level 100, m at next level, right associativity, only parsing).
Notation "m ;;; k" := (Sys.bind m (fun _ => k))
(at level 100, right associativity, only parsing).

(** ** The storage SDKs and the local file system *)

Module Storage.
Import PyStr.
Export Sys.

Section WithCollaborators.
Context `{Collaborators}.

(** Object names in the order a listing returns them. *)
Definition sorted (l : list string) : list string :=
  merge_sort (fun a b => Is_true (String.leb a b)) l.

Definition names_in (container : string)
    (m : gmap (string * string) Object) : list string :=
  sorted (map (fun kv => snd (fst kv))
            (filter (fun kv => fst (fst kv) = container) (map_to_list m))).

Definition ranged (range : option nat) (data : string) : string :=
  match range with Some n => take n data | None => data end.

(** [s3.get_object(Bucket, Key, Range=bytes=0-(n-1))][[Body]].read() *)
Definition s3_get_object (bucket : option string) (key : string)
    (range : option nat) : M string :=
  log (Network "s3" "get_object" (fmt bucket) key) ;;;
  match bucket with
  | None => raise (BackendError "s3" "ParamValidationError")
  | Some b =>
      w <- world ;;
      match s3_objects w !! (b, key) with
      | Some o => ret (ranged range (body o))
      | None => raise (BackendError "s3" "NoSuchKey")
      end
  end.

(** [s3.put_object(Bucket, Key, Body)] *)
Definition s3_put_object (bucket key data : string) : M unit :=
  log (Network "s3" "put_object" bucket key) ;;;
  store_s3 bucket key (mkObject data (Some "binary/octet-stream")).

(** [s3.head_object(Bucket, Key)]: [ContentLength] and [ContentType] *)
Definition s3_head_object (bucket : option string) (key : string)
    : M (Z * option string) :=
  log (Network "s3" "head_object" (fmt bucket) key) ;;;
  match bucket with
  | None => raise (BackendError "s3" "ParamValidationError")
  | Some b =>
      w <- world ;;
      match s3_objects w !! (b, key) with
      | Some o => ret (Z.of_nat (String.length (body o)), content_type o)
      | None => raise (BackendError "s3" "NotFound")
      end
  end.

(** The keys of every page of [list_objects_v2] for the bucket. *)
Definition s3_list_keys (bucket : option string) (prefix : string)
    : M (list string) :=
  log (Network "s3" "list_objects_v2" (fmt bucket) prefix) ;;;
  match bucket with
  | None => raise (BackendError "s3" "ParamValidationError")
  | Some b =>
      w <- world ;;
      ret (filter (fun k => Is_true (startswith prefix k))
             (names_in b (s3_objects w)))
  end.

(** A [BlobClient]: the container and the blob it points at. *)
Definition BlobClient : Type := option string * string.

(** [get_blob_client] of scanner/core.py, which client_azure re-exports. *)
Definition get_blob_client (path : string) : BlobClient :=
  match split_once "/" path with
  | Some (container, blob) => (Some container, blob)
  | None => (AZURE_CONTAINER, path)
  end.

(** [client.download_blob(offset=0, length=n).readall()] *)
Definition download_blob (client : BlobClient) (range : option nat)
    : M string :=
  log (Network "azure" "download_blob" (fmt (fst client)) (snd client)) ;;;
  match fst client with
  | None => raise (BackendError "azure" "no container")
  | Some c =>
      w <- world ;;
      match azure_blobs w !! (c, snd client) with
      | Some o => ret (ranged range (body o))
      | None => raise (BackendError "azure" "BlobNotFound")
      end
  end.

(** [client.upload_blob(data, overwrite=True)] *)
Definition upload_blob (client : BlobClient) (data : string) : M unit :=
  log (Network "azure" "upload_blob" (fmt (fst client)) (snd client)) ;;;
  match fst client with
  | None => raise (BackendError "azure" "no container")
  | Some c =>
      store_azure c (snd client) (mkObject data (Some "application/octet-stream"))
  end.

(** [client.get_blob_properties()]: [size] and
    [content_settings.content_type] *)
Definition get_blob_properties (client : BlobClient)
    : M (Z * option string) :=
  log (Network "azure" "get_blob_properties" (fmt (fst client)) (snd client)) ;;;
  match fst client with
  | None => raise (BackendError "azure" "no container")
  | Some c =>
      w <- world ;;
      match azure_blobs w !! (c, snd client) with
      | Some o => ret (Z.of_nat (String.length (body o)), content_type o)
      | None => raise (BackendError "azure" "BlobNotFound")
      end
  end.

(** The names [container_client.list_blobs(name_starts_with)] yields. *)
Definition list_blobs (container : option string) (prefix : string)
    : M (list string) :=
  log (Network "azure" "list_blobs" (fmt container) prefix) ;;;
  match container with
  | None => raise (BackendError "azure" "no container")
  | Some c =>
      w <- world ;;
      ret (filter (fun k => Is_true (startswith prefix k))
             (names_in c (azure_blobs w)))
  end.

(** [(root / name).read_bytes()] *)
Definition read_bytes (name : string) : M string :=
  log (LocalFile "read_bytes" name) ;;;
  w <- world ;;
  match local_files w !! name with
  | Some data => ret data
  | None => raise (FileNotFoundError name)
  end.

(** The file names [root.glob(pattern)] yields for the pattern
    [*__*] followed by [suffix]. *)
Definition glob_sidecars (suffix : string) : M (list string) :=
  log (LocalFile "glob" suffix) ;;;
  w <- world ;;
  ret (filter
         (fun name =>
            Is_true (endswith suffix name
                     && contains "__"
                          (take (String.length name - String.length suffix) name)))
         (sorted (map fst (map_to_list (local_files w))))).

End WithCollaborators.
End Storage.

(** ** [SidecarStore] (metadata_store.py) *)

Module MetadataStore.
Import PyStr.
Export Storage.

Section WithCollaborators.
Context `{Collaborators}.

Definition SUFFIX : string := ".meta.json".

(** [x in xs] for a list of values that may be [None]. *)
Definition in_list (name : string) (l : list (option string)) : bool :=
  existsb (fun o => match o with
                    | Some s => String.eqb name s
                    | None => false
                    end) l.

Definition _is_s3_bucket (name : string) : bool :=
  let s3_buckets := [S3_BUCKET; Some "my-api-bucket-100757077"] in
  let az_containers := [AZURE_CONTAINER; Some "feedback"] in
  if in_list name s3_buckets then true
  else if in_list name az_containers then false
  else if contains "." name then false
  else true.

Definition _save (key data : string) (cloud : string) : M unit :=
  match split_once "/" key with
  | None => raise (ValueError ("Invalid key: " +:+ key))
  | Some (container_or_bucket, blob) =>
      if _is_s3_bucket container_or_bucket
      then s3_put_object container_or_bucket blob data
      else upload_blob (get_blob_client (container_or_bucket +:+ "/" +:+ blob)) data
  end.

Definition _load (key : string) : M string :=
  if TEST_MODE then read_bytes (replace "/" "__" key)
  else
    match split_once "/" key with
    | None => raise (ValueError ("Invalid key format: " +:+ key))
    | Some (container_or_bucket, blob) =>
        if _is_s3_bucket container_or_bucket
        then s3_get_object (Some container_or_bucket) blob None
        else download_blob (get_blob_client (container_or_bucket +:+ "/" +:+ blob)) None
    end.

Definition _iter_s3 (bucket prefix : string) : M (list string) :=
  keys <- s3_list_keys (Some bucket) prefix ;;
  ret (map (fun key => bucket +:+ "/" +:+ key)
         (filter (fun key => Is_true (truthy key && endswith SUFFIX key)) keys)).

Definition _iter_azure (container prefix : string) : M (list string) :=
  names <- list_blobs (Some container) prefix ;;
  ret (map (fun name => container +:+ "/" +:+ name)
         (filter (fun name => Is_true (endswith SUFFIX name)) names)).

(** The keys the generator [_iter_keys] yields, in order. *)
Definition _iter_keys (prefix : string) : M (list string) :=
  if TEST_MODE then
    names <- glob_sidecars SUFFIX ;;
    ret (filter (fun path => Is_true (startswith prefix path))
           (map (replace "__" "/") names))
  else
    from_s3 <- match S3_BUCKET with
               | Some s3_bucket =>
                   if truthy s3_bucket then _iter_s3 s3_bucket prefix else ret []
               | None => ret []
               end ;;
    from_az1 <- match AZURE_CONTAINER with
                | Some container =>
                    if truthy container then _iter_azure container prefix else ret []
                | None => ret []
                end ;;
    from_az2 <- _iter_azure "feedback" prefix ;;
    ret (from_s3 ++ from_az1 ++ from_az2)%list.

(** [cloud = cloud or meta.cloud] *)
Definition write_meta (meta : FileMeta) (cloud : option string) : M unit :=
  let cloud := match cloud with
               | Some c => if truthy c then c else Meta.cloud meta
               | None => Meta.cloud meta
               end in
  let key := path meta +:+ SUFFIX in
  _save key (to_json meta) cloud.

Definition get_meta (path cloud : string) : M (option FileMeta) :=
  let key := path +:+ SUFFIX in
  try_except
    (raw <- _load key ;;
     match from_json raw with
     | Some m => ret (Some m)
     | None => raise (ValueError "from_json")
     end)
    (fun e => ret None).

Fixpoint read_each (keys : list string) (metas : list FileMeta)
    : M (list FileMeta) :=
  match keys with
  | [] => ret metas
  | key :: rest =>
      metas' <- try_except
                  (raw <- _load key ;;
                   match from_json raw with
                   | Some m => ret (metas ++ [m])%list
                   | None => raise (ValueError "from_json")
                   end)
                  (fun e => ret metas) ;;
      read_each rest metas'
  end.

Definition read_all (prefix : string) : M (list FileMeta) :=
  keys <- _iter_keys prefix ;;
  read_each keys [].

End WithCollaborators.
End MetadataStore.

(** ** The describer (auto_desc.py) *)

Module AutoDesc.
Import PyStr.
Export Sys.

Section WithCollaborators.
Context `{Collaborators}.

(** [re.search(r"(^|_)id$", c, re.I)] *)
Definition id_like (c : string) : bool :=
  let n := lower (chomp c) in
  String.eqb n "id" || endswith "_id" n.

(** [re.search(r"date|_dt$", c, re.I)] *)
Definition date_like (c : string) : bool :=
  contains "date" (lower c) || endswith "_dt" (lower (chomp c)).

(** [df[c].is_unique] *)
Definition is_unique (col : Column) : bool :=
  bool_decide (NoDup (cvalues col)).

(** The order of timestamps. *)
Definition stamp (d : datetime) : Z :=
  ((((((year d * 13 + month d) * 32 + day d) * 24 + hour d) * 60
      + minute d) * 60 + second d) * 1000000 + microsecond d)%Z.

Definition earliest (a b : datetime) : datetime :=
  if (stamp b <? stamp a)%Z then b else a.

Definition latest (a b : datetime) : datetime :=
  if (stamp a <? stamp b)%Z then b else a.

(** [str(t.date())] *)
Definition date_text (d : datetime) : string :=
  pad4 (year d) +:+ "-" +:+ pad2 (month d) +:+ "-" +:+ pad2 (day d).

(** The entry of [ranges] a column contributes, if any. *)
Definition range_of (col : Column) : list string :=
  if date_like (cname col) then
    match omap id (to_datetime (cvalues col)) with
    | [] => []
    | t :: ts =>
        [cname col +:+ " " +:+ date_text (fold_left earliest ts t)
         +:+ "→" +:+ date_text (fold_left latest ts t)]
    end
  else [].

(** [x or fallback] for texts. *)
Definition or_else (x fallback : string) : string :=
  if truthy x then x else fallback.

Definition auto_describe (path raw_bytes : string) : Res string :=
  match read_frame (endswith ".csv" (lower path)) raw_bytes with
  | None => Raise ParserError
  | Some df =>
      let cols := map cname df in
      match cols with
      | [] => Raise (IndexError "list index out of range")
      | first :: _ =>
          let pk :=
            match List.find (fun col => id_like (cname col) && is_unique col) df with
            | Some col => cname col
            | None => first
            end in
          let fks :=
            List.filter (fun c => id_like c && negb (String.eqb c pk)) cols in
          let ranges := concat (map range_of df) in
          let bits :=
            (["PK=" +:+ pk]
             ++ (match fks with [] => [] | _ => ["FK=" +:+ join "," fks] end)
             ++ ranges)%list in
          Ok (or_else (join " · " bits) "Table")
      end
  end.

End WithCollaborators.
End AutoDesc.

(** ** The scanner (scanner/core.py) *)

Module Scanner.
Import PyStr.
Export MetadataStore.

Section WithCollaborators.
Context `{Collaborators}.

(** [Anthropic().messages.create(model, messages=[user prompt], ...)]:
    the text of each block of [msg.content]. *)
Definition create_message (model prompt : string) : M (list string) :=
  w <- world ;;
  log (ModelCall model prompt) ;;;
  match complete (trace w) model prompt with
  | Some chunks => ret chunks
  | None => raise ModelError
  end.

(** The bucket and key the S3 branches take a path for. *)
Definition s3_place (path : string) : option string * string :=
  match split_once "/" path with
  | Some (bucket, key) => (Some bucket, key)
  | None => (S3_BUCKET, path)
  end.

Definition _download_head (path cloud : string) : M (string * string) :=
  if String.eqb cloud "s3" then
    data <- s3_get_object (fst (s3_place path)) (snd (s3_place path))
              (Some SCAN_HEAD_SIZE) ;;
    ret (decode_ignore data, data)
  else
    data <- download_blob (get_blob_client path) (Some SCAN_HEAD_SIZE) ;;
    ret (decode_ignore data, data).

Definition scan_prompt (path cloud raw_head : string) : string :=
  strip ("
You are helping index a dataset for search and discovery.
Below is a preview sample from a file stored in cloud storage:
File path: " +:+ path +:+ "
Cloud: " +:+ upper cloud +:+ "
------------------------
" +:+ strip raw_head +:+ "
------------------------
Give a clear one-line factual description of the file contents. Describe what kind of data is inside and how it could be used. Format your response like this:
<description>
ONLY return the description text — no filename, no prefix, no extra commentary.
").

Definition default_mime : string := "application/octet-stream".

(** The inner [try] of [scan_object]: size and content type, with the
    defaults left in place when the lookup raises. *)
Definition properties (path cloud : string) : M (Z * string) :=
  try_except
    (if String.eqb cloud "s3" then
       r <- s3_head_object (fst (s3_place path)) (snd (s3_place path)) ;;
       ret (fst r, match snd r with Some t => t | None => default_mime end)
     else
       r <- get_blob_properties (get_blob_client path) ;;
       ret (fst r, match snd r with
                   | Some t => AutoDesc.or_else t default_mime
                   | None => default_mime
                   end))
    (fun e =>
       print ("⚠️ Failed to get properties for " +:+ path +:+ ": ") ;;;
       ret (0%Z, default_mime)).

Definition scan_object (path cloud : string) : M unit :=
  log (Called "scan_object" [path; cloud]) ;;;
  head <- _download_head path cloud ;;
  let prompt := scan_prompt path cloud (fst head) in
  try_except
    (chunks <- create_message "claude-3-5-haiku-20241022" prompt ;;
     let desc := strip (String.concat EmptyString chunks) in
     if (2 <? word_count desc)%nat then
       props <- properties path cloud ;;
       w <- world ;;
       let meta := mkFileMeta path cloud (basename path) desc (snd props)
                     (fst props) (now (trace w)) in
       write_meta meta (Some cloud) ;;;
       print ("✅ Saved cloud meta for " +:+ path)
     else ret tt)
    (fun e => print ("❌ Failed to scan " +:+ path +:+ ": ")).

End WithCollaborators.
End Scanner.

(** ** What both per-source clients share (client_s3.py, client_azure.py) *)

Module Client.
Import PyStr.
Export Scanner.

Section WithCollaborators.
Context `{Collaborators}.

Definition MODEL : string := "claude-3-5-haiku-20241022".
Definition CHUNK : nat := 256000.

Definition _HDR1 : string := "(?m)^DESCRIPTIONS$".
Definition _HDR2 : string := "(?i)\bDESCRIPTIONS\b".
Definition _SPLIT : string := "(?m)^(?:SELECTED_FILES|ANSWER)$".
Definition _KV : string := "^(.*?)\s*:\s*(.+)$".

Definition RETURN_SPEC : string :=
  "Return **exactly** this layout (no extra text):" +:+ nl +:+ nl
  +:+ "DESCRIPTIONS" +:+ nl +:+ "<path>: <desc>" +:+ nl +:+ nl
  +:+ "SELECTED_FILES" +:+ nl +:+ "<path> ..." +:+ nl +:+ nl
  +:+ "ANSWER" +:+ nl +:+ "<answer>".

Definition doc_block (d : Doc) : string :=
  strip (dedent ("
            ### " +:+ d_title d +:+ "
            path: " +:+ d_path d +:+ "
            description: " +:+ AutoDesc.or_else (d_description d) "⧗ (empty)" +:+ "
            schema: " +:+ d_schema d +:+ "
            sample_text:
            ```
            " +:+ d_sample_text d +:+ "
            ```
        ")).

(** [_build_prompt]; [dash] is the hyphen of the first line, which the
    two clients write differently. *)
Definition _build_prompt (dash question : string) (docs : list Doc) : string :=
  let docs_block := join (nl +:+ nl) (map doc_block docs) in
  strip ("
You are an **elite file" +:+ dash +:+ "analysis LLM**.
* Rewrite empty descriptions based on sample_text.
* Pick up to **3** files to answer the user's question.
* Answer in ≤120 words.

" +:+ RETURN_SPEC +:+ "

## User question
" +:+ question +:+ "

## Files
" +:+ docs_block +:+ "
").

(** The last lines of [answer] in both clients:
    [if ANSWER in raw: return raw.split(ANSWER, 1)[1].strip()], else
    [raw]. *)
Definition answer_text (raw : string) : string :=
  match split_once "ANSWER" raw with
  | Some (_, after) => strip after
  | None => raw
  end.

(** [l[i]] *)
Definition item (l : list string) (i : nat) : M string :=
  match l !! i with
  | Some x => ret x
  | None => raise (IndexError "list index out of range")
  end.

(** The text of the DESCRIPTIONS section, when a header is found. *)
Definition descriptions_chunk (raw : string) : M (option string) :=
  if re_search _HDR1 raw || re_search _HDR2 raw then
    chunk <- (if re_search _HDR1 raw then item (re_split1 _HDR1 raw) 1
              else item (re_split1 _HDR2 raw) 1) ;;
    chunk <- item (re_split1 _SPLIT chunk) 0 ;;
    ret (Some chunk)
  else ret None.

(** The body of the caching loop for one [path: description] pair; [cloud]
    is the client's tag and [stamp] its clock for a new record. *)
Definition republish (container : option string) (cloud : string)
    (stamp : list Event -> datetime) (p desc : string) : M unit :=
  let key := strip p in
  let full_path := fmt container +:+ "/" +:+ key in
  existing <- get_meta full_path cloud ;;
  match existing with
  | Some existing =>
      write_meta (set_description existing (strip desc)) (Some cloud)
  | None =>
      w <- world ;;
      write_meta (mkFileMeta full_path cloud key (strip desc)
                    "application/octet-stream" 0 (stamp (trace w)))
        (Some cloud)
  end.

(** [cache any DESCRIPTIONS the model produced]; [trim] says whether the
    line is stripped before it is matched. *)
Definition cache_descriptions (container : option string) (cloud : string)
    (stamp : list Event -> datetime) (trim : bool) (raw : string) : M unit :=
  chunk <- descriptions_chunk raw ;;
  match chunk with
  | None => ret tt
  | Some chunk =>
      for_each (splitlines chunk)
        (fun ln =>
           match re_groups2 _KV (if trim then strip ln else ln) with
           | Some (p, desc) => republish container cloud stamp p desc
           | None => ret tt
           end)
  end.

Definition not_sidecar (name : string) : Prop :=
  Is_true (negb (endswith ".meta.json" name)).

End WithCollaborators.
End Client.

(** ** The S3 client (aws_s3/client_s3.py) *)

Module ClientS3.
Import PyStr.
Export Client.

Section WithCollaborators.
Context `{Collaborators}.

Definition BUCKET : option string := S3_BUCKET.

Definition _list_meta : M (list Listed) :=
  keys <- s3_list_keys BUCKET EmptyString ;;
  ret (map (fun key => mkListed key key None) (filter not_sidecar keys)).

Definition _read (path : string) (length : nat) : M string :=
  body <- s3_get_object BUCKET path (Some length) ;;
  ret (decode_ignore body).

Definition collect_doc (meta : Listed) : M Doc :=
  let path := l_path meta in
  let full_path := fmt BUCKET +:+ "/" +:+ path in
  cached_meta <- get_meta full_path "s3" ;;
  let cached := match cached_meta with
                | Some m => description m
                | None => EmptyString
                end in
  preview <- _read path CHUNK ;;
  let schema :=
    if endswith ".csv" (lower path) then
      match read_csv_columns preview with
      | Some columns => join ", " columns
      | None => EmptyString
      end
    else EmptyString in
  ret (mkDoc path (l_title meta) cached
         (AutoDesc.or_else schema "(unknown)") (take_chars 1500 preview)).

Fixpoint collect (metas : list Listed) (docs : list Doc) : M (list Doc) :=
  match metas with
  | [] => ret docs
  | meta :: rest => d <- collect_doc meta ;; collect rest (docs ++ [d])%list
  end.

Definition _collect_docs : M (list Doc) :=
  metas <- _list_meta ;;
  collect metas [].

Definition prescan_one (meta : Listed) : M unit :=
  let key := l_path meta in
  let full_path := fmt BUCKET +:+ "/" +:+ key in
  found <- get_meta full_path "s3" ;;
  match found with
  | Some _ => ret tt
  | None =>
      raw <- _read key 20000 ;;
      desc <- lift (AutoDesc.auto_describe key raw) ;;
      w <- world ;;
      write_meta (mkFileMeta full_path "s3" key desc
                    "application/octet-stream" 0 (utcnow (trace w)))
        (Some "s3") ;;;
      scan_object full_path "s3"
  end.

Definition _auto_prescan : M unit :=
  metas <- _list_meta ;;
  for_each metas prescan_one.

Definition answer (question : string) (target_path : option string)
    : M string :=
  log (Called "s3.answer" [question; fmt target_path]) ;;;
  _auto_prescan ;;;
  docs <- _collect_docs ;;
  let wanted := match target_path with
                | Some t => if truthy t then Some t else None
                | None => None
                end in
  let docs := match wanted with
              | Some t => filter (fun d => d_path d = t) docs
              | None => docs
              end in
  match wanted, docs with
  | Some t, [] => ret ("No data found for file: " +:+ t)
  | _, _ =>
      let prompt := _build_prompt "-" question docs in
      chunks <- create_message MODEL prompt ;;
      first <- item chunks 0 ;;
      let raw := strip first in
      cache_descriptions BUCKET "s3" now true raw ;;;
      ret (answer_text raw)
  end.

End WithCollaborators.
End ClientS3.

(** ** The Azure client (azure_blob/client_azure.py) *)

Module ClientAzure.
Import PyStr.
Export Client.

Section WithCollaborators.
Context `{Collaborators}.

Definition AZ_CONTAINER : option string := AZURE_CONTAINER.

Definition _list_meta : M (list Listed) :=
  names <- list_blobs AZ_CONTAINER EmptyString ;;
  ret (map (fun name => mkListed name name (Some EmptyString))
         (filter not_sidecar names)).

Definition _read_blob (path : string) (length : nat) : M string :=
  data <- download_blob (get_blob_client path) (Some length) ;;
  ret (decode_ignore data).

Definition prescan_one (meta : Listed) : M unit :=
  let key := l_path meta in
  let full_path := fmt AZ_CONTAINER +:+ "/" +:+ key in
  found <- get_meta full_path "azure" ;;
  match found with
  | Some _ => ret tt
  | None =>
      w <- world ;;
      write_meta (mkFileMeta full_path "azure" key EmptyString EmptyString 0
                    (now (trace w)))
        (Some "azure") ;;;
      scan_object full_path "azure"
  end.

Definition _prescan : M unit :=
  metas <- _list_meta ;;
  for_each metas prescan_one.

Definition collect_doc (meta : Listed) : M Doc :=
  let full_path := fmt AZ_CONTAINER +:+ "/" +:+ l_path meta in
  m <- get_meta full_path "azure" ;;
  let desc := match m with
              | Some m => description m
              | None => EmptyString
              end in
  text <- _read_blob (l_path meta) CHUNK ;;
  let sample := take_chars 1500 text in
  let schema := match read_csv_columns sample with
                | Some columns => join ", " columns
                | None => "(Error reading schema)"
                end in
  ret (mkDoc (l_path meta) (l_title meta) desc schema sample).

Fixpoint collect (metas : list Listed) (docs : list Doc) : M (list Doc) :=
  match metas with
  | [] => ret docs
  | meta :: rest => d <- collect_doc meta ;; collect rest (docs ++ [d])%list
  end.

Definition _collect_docs : M (list Doc) :=
  _prescan ;;;
  metas <- _list_meta ;;
  collect metas [].

Definition answer (question : string) (target_path : option string)
    : M string :=
  log (Called "azure.answer" [question; fmt target_path]) ;;;
  docs <- _collect_docs ;;
  let wanted := match target_path with
                | Some t => if truthy t then Some t else None
                | None => None
                end in
  let docs := match wanted with
              | Some t => filter (fun d => d_path d = t) docs
              | None => docs
              end in
  match wanted, docs with
  | Some t, [] => ret ("No data found for file: " +:+ t)
  | _, _ =>
      let prompt := _build_prompt "‑" question docs in
      chunks <- create_message MODEL prompt ;;
      let raw := strip (String.concat EmptyString chunks) in
      cache_descriptions AZ_CONTAINER "azure" utcnow false raw ;;;
      ret (answer_text raw)
  end.

End WithCollaborators.
End ClientAzure.

(** ** The orchestrator (client.py) *)

Module Orchestrator.
Import PyStr.
Export Client.

Section WithCollaborators.
Context `{Collaborators}.

Definition MODEL_MERGE : string := FINAL_MODEL.

Definition s3_answer := ClientS3.answer.
Definition az_answer := ClientAzure.answer.
Definition list_s3_meta := ClientS3._list_meta.
Definition list_az_meta := ClientAzure._list_meta.
Definition BUCKET := ClientS3.BUCKET.
Definition AZ_CONTAINER := ClientAzure.AZ_CONTAINER.

Definition listed_eqb (a b : Listed) : bool :=
  String.eqb (l_path a) (l_path b) && String.eqb (l_title a) (l_title b)
  && match l_description a, l_description b with
     | Some x, Some y => String.eqb x y
     | None, None => true
     | _, _ => false
     end.

(** The locals of the loop of [_build_dataset_and_schema_blocks];
    [head_text] is unbound until its first assignment. *)
Record Blocks : Type := mkBlocks {
  dataset_lines : list string;
  schema_lines : list string;
  all_files : list (string * string);
  head_text : option string
}.

Definition block_step (st : Blocks) (meta : Listed) : M Blocks :=
  let path := l_path meta in
  s3_now <- list_s3_meta ;;
  let cloud := if existsb (listed_eqb meta) s3_now then "s3" else "azure" in
  let files := (all_files st ++ [(path, cloud)])%list in
  let handler (bound : option string) : M Blocks :=
    match bound with
    | None => raise (UnboundLocalError "head_text")
    | Some text =>
        let head_preview := replace nl (String BSL "n") (take_chars 200 text) in
        print ("⚠️ Could not load " +:+ path +:+ " from " +:+ cloud
               +:+ ":  — Preview: " +:+ head_preview) ;;;
        ret (mkBlocks (dataset_lines st) (schema_lines st) files bound)
    end in
  try_except
    (head <- _download_head path cloud ;;
     match read_csv_columns (fst head) with
     | Some cols =>
         let short_desc := "columns: " +:+ join ", " (firstn 5 cols) in
         let line := "- " +:+ path +:+ " (" +:+ cloud +:+ "): " in
         ret (mkBlocks
                (dataset_lines st ++ [line +:+ short_desc])%list
                (if (2 <=? length cols)%nat
                 then (schema_lines st
                       ++ [line +:+ "columns = " +:+ join ", " (firstn 10 cols)])%list
                 else schema_lines st)
                files (Some (fst head)))
     | None => handler (Some (fst head))
     end)
    (fun e => handler (head_text st)).

Fixpoint block_loop (metas : list Listed) (st : Blocks) : M Blocks :=
  match metas with
  | [] => ret st
  | meta :: rest => st' <- block_step st meta ;; block_loop rest st'
  end.

Definition _build_dataset_and_schema_blocks
    : M (string * string * list (string * string)) :=
  from_s3 <- list_s3_meta ;;
  from_az <- list_az_meta ;;
  st <- block_loop (from_s3 ++ from_az)%list (mkBlocks [] [] [] None) ;;
  ret (join nl (dataset_lines st), join nl (schema_lines st), all_files st).

Definition plan_prompt (question dataset_block schema_block : string)
    (metas : list (string * string)) : string :=
  let files_list :=
    join nl (map (fun m => "- " +:+ fst m +:+ " (" +:+ snd m +:+ ")") metas) in
  strip ("You are MCP’s expert **multi-dataset** planner.
    Here are the available datasets with their descriptions:" +:+ dataset_block +:+ "
    Here are their inferred schemas:" +:+ schema_block +:+ "
    Here is the list of all dataset files that actually exist:" +:+ files_list +:+ "
    ## User question" +:+ question +:+ "
    ## Your task Produce a JSON plan with an array `steps`, each step containing:
      - `dataset`: the file path to query next (MUST match exactly one of the files above)
      - `cloud`: " +:+ quoted "s3" +:+ " or " +:+ quoted "azure" +:+ " — MUST match the correct cloud for that dataset
      - `sub_question`: the exact question to ask that dataset
    Rules:
    1. Only use files listed above — do not invent file names or paths.
    2. Assign each file to its correct cloud: " +:+ quoted "s3" +:+ " or " +:+ quoted "azure" +:+ ".
    3. When datasets share a field (e.g. ID, code, name), plan JOINs across them.
    4. For analytical queries (counts, sums, averages, rankings):
       - Filter by date/category if needed
       - Group by relevant fields
       - Apply appropriate aggregation (count, avg, sum, etc.)
    5. For questions about records *without matches* (e.g. items lacking entries elsewhere):
       - Compare shared keys
       - Count which are missing in the second dataset
    6. When filtering a dataset by a user condition, return all columns for those filtered rows. 
    7. Reference previous step outputs clearly when needed.
    8. If no matching data exists, return: {" +:+ quoted "steps" +:+ ": []}
    9. Output JSON only — no extra text or explanation.
    ").

(** [_plan]: the value of [json.loads(raw)] under the key [steps]. *)
Definition _plan (question dataset_block schema_block : string)
    (metas : list (string * string)) : M (option (list Step)) :=
  log (Called "_plan" [question]) ;;;
  chunks <- create_message MODEL_MERGE
              (plan_prompt question dataset_block schema_block metas) ;;
  match parse_plan (strip (String.concat EmptyString chunks)) with
  | Some plan => ret plan
  | None => raise (ValueError "JSONDecodeError")
  end.

(** [enumerate(history)] rendered as the blocks of the context. *)
Fixpoint history_blocks (i : nat) (history : list string) : list string :=
  match history with
  | [] => []
  | ans :: rest =>
      ("[step " +:+ str_of_nat (i + 1) +:+ "]" +:+ nl +:+ ans)
        :: history_blocks (S i) rest
  end.

Definition _augment (subq : string) (history : list string) : string :=
  match history with
  | [] => subq
  | _ =>
      let ctx :=
        nl +:+ nl +:+ "----- PREVIOUS ANSWERS -----" +:+ nl
        +:+ join (nl +:+ nl) (history_blocks 0 history)
        +:+ nl +:+ "-----------------------------" +:+ nl +:+ nl in
      ctx +:+ subq
  end.

Definition enhanced_prompt (dataset cloud subq : string) : string :=
  strip ("
        You are a data extraction expert.
        Your task is to answer the following question using ONLY the contents of the file (if it exists):
        File: " +:+ dataset +:+ "
        Cloud: " +:+ upper cloud +:+ "
        QUESTION:" +:+ subq +:+ "
        Return direct results from the file.
        If the file is missing or not available, respond with:
        No data found for file: " +:+ dataset).

(** [not x] for a value of [step.get]. *)
Definition usable (o : option string) : option string :=
  match o with
  | Some s => if truthy s then Some s else None
  | None => None
  end.

(** One turn of the loop of [_execute_plan] on its locals [results] and
    [history]. *)
Definition execute_step (step : Step)
    (st : list (string * string) * list string)
    : M (list (string * string) * list string) :=
  let '(results, history) := st in
  let raw_q := step_sub_question step in
  let subq := _augment raw_q history in
  match usable (step_cloud step), usable (step_dataset step) with
  | Some cloud, Some dataset =>
      let prompt := enhanced_prompt dataset cloud subq in
      out <- (if String.eqb (lower cloud) "s3"
              then s3_answer prompt (Some dataset)
              else az_answer prompt (Some dataset)) ;;
      ret ((results ++ [(cloud, out)])%list, (history ++ [out])%list)
  | _, _ =>
      ret ((results
            ++ [("error", "⚠️ Skipped step: missing cloud or dataset."
                          +:+ nl +:+ subq)])%list,
           history)
  end.

Fixpoint execute_steps (steps : list Step)
    (st : list (string * string) * list string)
    : M (list (string * string) * list string) :=
  match steps with
  | [] => ret st
  | step :: rest => st' <- execute_step step st ;; execute_steps rest st'
  end.

Definition steps_of (plan : option (list Step)) : list Step :=
  match plan with Some steps => steps | None => [] end.

Definition _execute_plan (plan : option (list Step))
    : M (list (string * string)) :=
  st <- execute_steps (steps_of plan) ([], []) ;;
  ret (fst st).

Definition merge_prompt (prev_ans this_ans prev_cloud this_cloud : string)
    : string :=
  strip ("
You have two result fragments:
■ From [" +:+ prev_cloud +:+ "]:   " +:+ prev_ans +:+ "
■ From [" +:+ this_cloud +:+ "]:   " +:+ this_ans +:+ "
**If one fragment contains no actionable facts
IGNORE that fragment and return an answer based solely on the useful one.**
**Your job**:
1. **Extract all facts**, tagging each with its source ([" +:+ prev_cloud +:+ "] or [" +:+ this_cloud +:+ "]).
2. **Deduplicate**: merge any duplicate facts (preserving multiple sources).
3. **Check consistency**: for any key item present in one fragment but missing in the other,
   add a " +:+ quoted "Data Gap: <item> missing from [cloud]" +:+ " fact.
4. **Synthesize** a cohesive answer (≤180 words) using only those facts.
5. End with one bold **Executive Takeaway** sentence.
Return **plain Markdown only**—no code fences or extra sections.
").

Definition _merge_step (question prev_ans this_ans prev_cloud this_cloud : string)
    : M string :=
  log (Called "_merge_step" [question; prev_ans; this_ans; prev_cloud; this_cloud]) ;;;
  chunks <- create_message MODEL_MERGE
              (merge_prompt prev_ans this_ans prev_cloud this_cloud) ;;
  ret (strip (String.concat EmptyString chunks)).

Fixpoint merge_rest (question : string) (rest : list (string * string))
    (merged prev_cloud : string) : M string :=
  match rest with
  | [] => ret merged
  | (cloud, out) :: rest' =>
      merged' <- _merge_step question merged out prev_cloud cloud ;;
      merge_rest question rest' merged' cloud
  end.

Definition prescan (cloud : string) (container : option string)
    (metas : list Listed) : M unit :=
  for_each metas
    (fun meta =>
       let full_path := fmt container +:+ "/" +:+ l_path meta in
       found <- get_meta full_path cloud ;;
       match found with
       | Some _ => ret tt
       | None => scan_object full_path cloud
       end).

(** [answer] up to the line that prints the plan to [sys.stderr]; of the
    printed text the event keeps the banner, not the plan. *)
Definition discover_and_plan (question : string) : M (option (list Step)) :=
  from_s3 <- list_s3_meta ;;
  prescan "s3" BUCKET from_s3 ;;;
  from_az <- list_az_meta ;;
  prescan "azure" AZ_CONTAINER from_az ;;;
  metas <- read_all EmptyString ;;
  blocks <- _build_dataset_and_schema_blocks ;;
  plan <- _plan question (fst (fst blocks)) (snd (fst blocks)) (snd blocks) ;;
  print (nl +:+ "··· EXECUTION PLAN ···" +:+ nl) ;;;
  ret plan.

(** [for idx, (cloud, result) in enumerate(results): print(...)] *)
Fixpoint print_results (idx : nat) (results : list (string * string))
    : M unit :=
  match results with
  | [] => ret tt
  | (cloud, result) :: rest =>
      print (nl +:+ "[Step " +:+ str_of_nat (idx + 1) +:+ " from " +:+ cloud
             +:+ "]" +:+ nl +:+ result +:+ nl) ;;;
      print_results (idx + 1) rest
  end.

Definition no_plan : string :=
  "I couldn't create an execution plan for your query.".

(** [answer] from [steps = plan.get(steps, [])] on. *)
Definition conclude (question : string) (plan : option (list Step))
    : M string :=
  match steps_of plan with
  | [] => ret no_plan
  | _ =>
      results <- _execute_plan plan ;;
      match results with
      | [only] => ret (snd only)
      | [] => raise (IndexError "list index out of range")
      | first :: rest =>
          print (nl +:+ "⚙️ Execution Results:") ;;;
          print_results 0 results ;;;
          merge_rest question rest (snd first) (fst first)
      end
  end.

Definition answer (question : string) : M string :=
  plan <- discover_and_plan question ;;
  conclude question plan.

End WithCollaborators.
End Orchestrator.


(** ** The claims' own words, where a claim is compared with the code *)

Module Spec.
Import PyStr.

(** The lines after the last line that is exactly the ANSWER header. *)
Fixpoint after_final_header (lines : list string) : option (list string) :=
  match lines with
  | [] => None
  | l :: rest =>
      match after_final_header rest with
      | Some tail => Some tail
      | None => if String.eqb l "ANSWER" then Some rest else None
      end
  end.

(** The trimmed text after the final standalone ANSWER header line, or
    the whole output when there is no such line. *)
Definition final_answer (raw : string) : string :=
  match after_final_header (split nl raw) with
  | Some tail => strip (join nl tail)
  | None => raw
  end.

End Spec.

(** ** Concrete surroundings for the examples *)

Module Samples.
Import PyStr.
Export Orchestrator.

(** A model that always answers with one block of text, a clock that
    stands still, CSV text whose header is its first line, and a frame
    reader that raises on every CSV sample and reads any other sample as
    a frame with no column at all. *)
Definition env (test_mode : bool) (reply : string)
    (plan : list Step) : Collaborators := {|
  S3_BUCKET := Some "bkt";
  AZURE_CONTAINER := Some "cont";
  TEST_MODE := test_mode;
  SCAN_HEAD_SIZE := 64;
  FINAL_MODEL := "claude-3-5-haiku-20241022";
  complete := fun _ _ _ => Some [reply];
  now := fun _ => Datetime.mk 2025 7 30 12 0 0 250000;
  utcnow := fun _ => Datetime.mk 2025 7 30 10 0 0 250000;
  decode_ignore := fun data => data;
  read_csv_columns :=
    fun text => match split nl text with
                | header :: _ => if truthy header then Some (split "," header) else None
                | [] => None
                end;
  read_frame := fun is_csv raw => if is_csv then None else Some [];
  to_datetime := fun cells => map (fun _ => None) cells;
  dedent := fun text => text;
  re_search := fun _ _ => false;
  re_split1 := fun _ text => [text];
  re_groups2 := fun _ _ => None;
  parse_plan := fun _ => Some (Some plan)
|}.

Definition offline : Collaborators :=
  env true "A table of orders with totals" [].
Definition online : Collaborators :=
  env false "A table of orders with totals" [].

(** A plan of one step, and a model whose replies end in an ANSWER
    section. *)
Definition ask_orders : Step :=
  mkStep (Some "orders.csv") (Some "s3") "Which order is the largest?".

Definition ask_again : Step :=
  mkStep (Some "orders.csv") (Some "s3") "And which is the smallest?".

Definition planned : Collaborators :=
  env false ("ANSWER" +:+ nl +:+ "order 7") [ask_orders].

Definition nothing : World := mkWorld ∅ ∅ ∅ [].

Definition a_record : FileMeta :=
  mkFileMeta "bkt/a.csv" "s3" "a.csv" "orders" "text/csv" 42
             (Datetime.mk 2025 7 30 12 0 0 0).

(** A bucket that holds one object under a key with a directory part. *)
Definition one_nested_object : World :=
  mkWorld {[ ("bkt", "data/orders.csv") :=
               mkObject ("order_id,total" +:+ nl +:+ "1,5" +:+ nl) (Some "text/csv") ]}
          ∅ ∅ [].

(** The record [scan_object] builds for bkt/a.csv at the clock's time. *)
Definition fresh_record : FileMeta :=
  mkFileMeta "bkt/a.csv" "s3" "a.csv" "A table of orders with totals"
             "text/csv" 42 (@now online []).

(** [put] of a record followed by [get] of its path. *)
Definition put_then_get (C : Collaborators) : M (option FileMeta) :=
  @write_meta C a_record None ;;; @get_meta C "bkt/a.csv" "s3".

(** The record of the object orders.csv of the bucket. *)
Definition orders_record : FileMeta :=
  mkFileMeta "bkt/orders.csv" "s3" "orders.csv" "orders and their totals"
             "text/csv" 19 (Datetime.mk 2025 7 30 12 0 0 0).

(** A bucket that holds one table and its side-car. *)
Definition stocked : World :=
  mkWorld {[ ("bkt", "orders.csv") :=
               mkObject ("order_id,total" +:+ nl +:+ "7,90" +:+ nl) (Some "text/csv");
             ("bkt", "orders.csv.meta.json") :=
               mkObject (to_json orders_record) (Some "binary/octet-stream") ]}
          ∅ ∅ [].

(** The first step of a plan, run on its own. *)
Definition first_run : Res (list (string * string) * list string) * World :=
  @execute_steps planned [ask_orders] ([], []) stocked.

Definition first_state : list (string * string) * list string :=
  match fst first_run with Ok st => st | Raise _ => ([], []) end.

(** A bucket that holds one empty object, which no reader takes for a
    table. *)
Definition one_empty_object : World :=
  mkWorld {[ ("bkt", "empty.csv") := mkObject EmptyString (Some "text/csv") ]}
          ∅ ∅ [].

(** A model reply in which the word ANSWER also names a file. *)
Definition reply_naming_answer_key : string :=
  "DESCRIPTIONS
ANSWER_KEY.csv: answer key of the quiz

SELECTED_FILES
ANSWER_KEY.csv

ANSWER
42".

End Samples.

(** ** Notions the properties are stated with *)

Module Notions.
Import PyStr Sys.

(** A text at which the digits of a number end. *)
Definition stops_number (rest : string) : Prop :=
  forall a, Json.more_digits a rest = (a, rest).

(** One member of a printed object. *)
Definition member (kv : string * Json.value) : string :=
  Json.dumps_string (fst kv) +:+ ": " +:+ Json.dumps_value (snd kv).

(** [parts] occur in [s] one after the other, in this order, without
    overlap. *)
Inductive in_order : list string -> string -> Prop :=
| in_order_nil (s : string) : in_order [] s
| in_order_cons (x : string) (xs : list string) (pre rest : string) :
    in_order xs rest -> in_order (x :: xs) (pre +:+ x +:+ rest).

(** The text [p] has no [c] in it. *)
Definition lacks (c : ascii) (p : string) : Prop :=
  contains (String c EmptyString) p = false.

(** A character that no white-space character contains. *)
Definition solid (c : ascii) : bool :=
  forallb (fun p => negb (contains (String c EmptyString) p))
    (whitespace ++ map rev whitespace).

(** A step that names a source and a dataset, and so is dispatched. *)
Definition dispatched (step : Step) : bool :=
  match Orchestrator.usable (step_cloud step),
        Orchestrator.usable (step_dataset step) with
  | Some _, Some _ => true
  | _, _ => false
  end.

(** The per-source client a dispatched step goes to, by the name its
    entry is recorded under. *)
Definition client_of (cloud : string) : string :=
  if String.eqb (lower cloud) "s3" then "s3.answer" else "azure.answer".

(** The answers among the result entries of [steps]: the texts of the
    steps that were dispatched, in step order. *)
Fixpoint answers_of (steps : list Step) (results : list (string * string))
    : list string :=
  match steps, results with
  | step :: steps', r :: results' =>
      if dispatched step then snd r :: answers_of steps' results'
      else answers_of steps' results'
  | _, _ => []
  end.

End Notions.

(** ** What a computation does to the trace *)

Module Traces.
Export Sys.

(** The world with more events on its trace. *)
Definition logged (w : World) (evs : list Event) : World :=
  mkWorld (s3_objects w) (azure_blobs w) (local_files w) (trace w ++ evs)%list.

(** Whatever the outcome, [m] only adds events to the trace, and each of
    them satisfies [P]. *)
Definition emits (P : Event -> Prop) {A} (m : M A) : Prop :=
  forall w, exists evs,
    trace (snd (m w)) = (trace w ++ evs)%list /\ Forall P evs.

(** An event that is no entry into one of the instrumented functions other
    than those named. *)
Definition calls_of (names : list string) (e : Event) : Prop :=
  match e with
  | Called f _ => In f names
  | _ => True
  end.

(** [m] only adds events to the trace, and [e] is the first it adds. *)
Definition begins (e : Event) {A} (m : M A) : Prop :=
  forall w, exists evs, trace (snd (m w)) = (trace w ++ e :: evs)%list.

(** An event that is neither the dispatch of a step to a per-source client
    nor a merge call. *)
Definition quiet (e : Event) : Prop :=
  match e with
  | Called f _ => f <> "s3.answer" /\ f <> "azure.answer" /\ f <> "_merge_step"
  | _ => True
  end.

(** The names every instrumented function is recorded under. *)
Definition every_call : list string :=
  ["scan_object"; "s3.answer"; "azure.answer"; "_plan"; "_merge_step"].

(** The events since the world [w0]. *)
Definition since (w0 w : World) (P : Event -> Prop) : Prop :=
  exists evs, trace w = (trace w0 ++ evs)%list /\ Forall P evs.

End Traces.


(** ** What the side-car store holds *)

Module Sidecars.
Import PyStr.
Export MetadataStore Traces.

Section WithCollaborators.
Context `{Collaborators}.

(** The text [_load] finds under [key]: the local file in test mode, else
    the object of the bucket or container that the part before the first
    slash names. *)
Definition stored_text (w : World) (key : string) : option string :=
  if TEST_MODE then local_files w !! replace "/" "__" key
  else
    match split_once "/" key with
    | None => None
    | Some (c, b) =>
        option_map body
          ((if _is_s3_bucket c then s3_objects w else azure_blobs w) !! (c, b))
    end.

(** The record [get_meta] finds for the path [p]. *)
Definition stored_meta (w : World) (p : string) : option FileMeta :=
  match stored_text w (p +:+ SUFFIX) with
  | Some raw => from_json raw
  | None => None
  end.

(** Every record is stored under its own path, as [write_meta] stores
    it. *)
Definition well_keyed (w : World) : Prop :=
  forall p m, stored_meta w p = Some m -> path m = p.

(** An event that is no entry into [scan_object] for the path [full]. *)
Definition unscanned (full : string) (e : Event) : Prop :=
  forall cloud, e <> Called "scan_object" [full; cloud].

(** The store is well keyed and holds a record for [full] that was last
    scanned at [ts]. *)
Definition steady (full : string) (ts : datetime) (w : World) : Prop :=
  well_keyed w
  /\ exists m, stored_meta w full = Some m /\ last_scanned m = ts.

(** From a steady store [m] leaves a steady store, whatever its outcome,
    and never enters [scan_object] for [full]. *)
Definition keeps (full : string) (ts : datetime) {A} (m : M A) : Prop :=
  forall w, steady full ts w ->
    steady full ts (snd (m w)) /\ since w (snd (m w)) (unscanned full).

(** Since the world [w0] nothing entered [scan_object] for [full], and
    in [w] its record still carries the time [ts]. *)
Definition settled (full : string) (ts : datetime) (w0 w : World) : Prop :=
  (exists m, stored_meta w full = Some m /\ last_scanned m = ts)
  /\ since w0 w (unscanned full).

End WithCollaborators.
End Sidecars.

(** ** What a computation leaves of the stores *)

Module Frames.
Import PyStr.
Export Sidecars.

(** [m] takes every world to one that [R] relates it to. *)
Definition frames (R : World -> World -> Prop) {A} (m : M A) : Prop :=
  forall w, R w (snd (m w)).

(** The objects of one service: those whose name does not end in
    .meta.json are as they were, and no object is gone. *)
Definition data_kept (old new : gmap (string * string) Object) : Prop :=
  forall c b,
    (endswith ".meta.json" b = false -> new !! (c, b) = old !! (c, b))
    /\ (is_Some (old !! (c, b)) -> is_Some (new !! (c, b))).

(** Between [w] and [w'] no local file changed, no object that is not a
    side-car changed, and no object was removed. *)
Definition untouched (w w' : World) : Prop :=
  local_files w' = local_files w
  /\ data_kept (s3_objects w) (s3_objects w')
  /\ data_kept (azure_blobs w) (azure_blobs w').

(** Between [w] and [w'] nothing was written at all. *)
Definition unwritten (w w' : World) : Prop :=
  local_files w' = local_files w
  /\ s3_objects w' = s3_objects w
  /\ azure_blobs w' = azure_blobs w.

Section WithCollaborators.
Context `{Collaborators}.

(** The record [_load] and [from_json] give for a key, if they give one. *)
Definition record_at (w : World) (key : string) : option FileMeta :=
  match stored_text w key with
  | Some raw => from_json raw
  | None => None
  end.

(** Every path that has a record in [w] has one in [w']. *)
Definition records_kept (w w' : World) : Prop :=
  forall p, is_Some (stored_meta w p) -> is_Some (stored_meta w' p).

End WithCollaborators.
End Frames.

(** ** Counting over a plan's run *)

Module PlanNotions.
Import PyStr.
Export Frames.

(** The tag of a step's result entry: the source the step names, as it
    names it, or [error] for a step that is skipped. *)
Definition entry_tag (step : Step) : string :=
  match Orchestrator.usable (step_cloud step),
        Orchestrator.usable (step_dataset step) with
  | Some cloud, Some _ => cloud
  | _, _ => "error"
  end.

Definition is_merge (e : Event) : bool :=
  match e with
  | Called f _ => String.eqb f "_merge_step"
  | _ => false
  end.

(** How many of the events are entries into [_merge_step]. *)
Definition merge_calls (evs : list Event) : nat :=
  length (List.filter is_merge evs).

End PlanNotions.

(** ** More surroundings for the examples *)

Module MoreSamples.
Import PyStr.
Export Samples.

(** The surroundings [online], with a frame reader that reads every
    sample as the frame [df]. *)
Definition reading (df : list Column) : Collaborators := {|
  S3_BUCKET := @S3_BUCKET online;
  AZURE_CONTAINER := @AZURE_CONTAINER online;
  TEST_MODE := @TEST_MODE online;
  SCAN_HEAD_SIZE := @SCAN_HEAD_SIZE online;
  FINAL_MODEL := @FINAL_MODEL online;
  complete := @complete online;
  now := @now online;
  utcnow := @utcnow online;
  decode_ignore := @decode_ignore online;
  read_csv_columns := @read_csv_columns online;
  read_frame := fun _ _ => Some df;
  to_datetime := @to_datetime online;
  dedent := @dedent online;
  re_search := @re_search online;
  re_split1 := @re_split1 online;
  re_groups2 := @re_groups2 online;
  parse_plan := @parse_plan online
|}.

(** Orders: a key column, a repeated reference and a total. *)
Definition orders_frame : list Column :=
  [mkColumn "total" ["5"; "9"; "9"];
   mkColumn "customer_id" ["c1"; "c1"; "c2"];
   mkColumn "order_id" ["1"; "2"; "3"]].

(** Two local side-car files, one of them with a doubled underscore in
    the object's name. *)
Definition local_cache : World :=
  mkWorld ∅ ∅
    {[ "bkt__a.csv.meta.json" := to_json a_record;
       "bkt__my__notes.txt.meta.json" := "not a record" ]}
    [].

(** A container that holds one blob and no side-car. *)
Definition one_blob : World :=
  mkWorld ∅
    {[ ("cont", "notes.txt") := mkObject "remember the milk" (Some "text/plain") ]}
    ∅ [].

End MoreSamples.
(** * Properties *)

(** ** Text operations *)

Module PyStrFacts.
Import PyStr.

Lemma append_nil (b : string) : EmptyString +:+ b = b.
Proof. reflexivity. Qed.

Lemma append_cons (x : ascii) (a b : string) :
  String x a +:+ b = String x (a +:+ b).
Proof. reflexivity. Qed.

Ltac push_append := rewrite ?append_cons, ?append_nil in *.

Lemma append_assoc (a b c : string) : (a +:+ b) +:+ c = a +:+ (b +:+ c).
Proof.
  induction a as [|x a IH]; push_append; [reflexivity | now f_equal].
Qed.

Lemma append_empty_r (a : string) : a +:+ EmptyString = a.
Proof.
  induction a as [|x a IH]; push_append; [reflexivity | now f_equal].
Qed.

Lemma length_append (a b : string) :
  String.length (a +:+ b) = (String.length a + String.length b)%nat.
Proof.
  induction a as [|x a IH]; push_append; simpl; [reflexivity | now rewrite IH].
Qed.

Lemma startswith_cons (a b : ascii) (p s : string) :
  startswith (String a p) (String b s)
  = if Ascii.eqb a b then startswith p s else false.
Proof. reflexivity. Qed.

Lemma startswith_append (p s : string) : startswith p (p +:+ s) = true.
Proof.
  induction p as [|x p IH]; push_append; simpl; [reflexivity|].
  now rewrite Ascii.eqb_refl.
Qed.

Lemma startswith_inv (p s : string) :
  startswith p s = true -> exists r, s = p +:+ r.
Proof.
  revert s; induction p as [|x p IH]; intros s Hs; simpl in *.
  - now exists s.
  - destruct s as [|y s]; [discriminate|].
    destruct (Ascii.eqb x y) eqn:E; [|discriminate].
    apply Ascii.eqb_eq in E; subst y.
    destruct (IH _ Hs) as [r ->]. now exists r.
Qed.

(** A prefix test that succeeds on a longer text already succeeds on any
    part of it that is long enough. *)
Lemma startswith_shorten (p a b : string) :
  startswith p (a +:+ b) = true ->
  (String.length p <= String.length a)%nat ->
  startswith p a = true.
Proof.
  revert a; induction p as [|x p IH]; intros a Hs Hl; simpl in *.
  - reflexivity.
  - destruct a as [|y a]; simpl in *; [lia|].
    push_append. simpl in Hs.
    destruct (Ascii.eqb x y); [|discriminate].
    apply IH; [assumption | lia].
Qed.

Lemma drop_append (p s : string) : drop (String.length p) (p +:+ s) = s.
Proof. induction p as [|x p IH]; push_append; simpl; [reflexivity | exact IH]. Qed.

Lemma split_once_unfold (sep s : string) :
  split_once sep s =
  if startswith sep s then Some (EmptyString, drop (String.length sep) s)
  else match s with
       | EmptyString => None
       | String c s' =>
           match split_once sep s' with
           | Some (a, b) => Some (String c a, b)
           | None => None
           end
       end.
Proof. destruct s; reflexivity. Qed.

Lemma startswith_drop (p s : string) :
  startswith p s = true -> s = p +:+ drop (String.length p) s.
Proof.
  intros Hs. destruct (startswith_inv _ _ Hs) as [r ->].
  now rewrite drop_append.
Qed.

(** What [split_once] returns is a decomposition of the text around the
    separator. *)
Lemma split_once_Some (sep s a b : string) :
  split_once sep s = Some (a, b) -> s = a +:+ sep +:+ b.
Proof.
  revert a b; induction s as [|c s IH]; intros a b; rewrite split_once_unfold.
  - destruct (startswith sep EmptyString) eqn:E; [|discriminate].
    intros [= <- <-]. push_append. now apply startswith_drop.
  - destruct (startswith sep (String c s)) eqn:E.
    + intros [= <- <-]. push_append. now apply startswith_drop.
    + destruct (split_once sep s) as [[a' b']|] eqn:E'; [|discriminate].
      intros [= <- <-]. push_append. f_equal. now apply IH.
Qed.

(** [split_once] finds the separator whenever it occurs. *)
Lemma split_once_None (sep s : string) :
  split_once sep s = None -> forall a b, s <> a +:+ sep +:+ b.
Proof.
  induction s as [|c s IH]; rewrite split_once_unfold; intros Hn a b Heq.
  - destruct (startswith sep EmptyString) eqn:E; [discriminate|].
    destruct a; push_append; [|discriminate].
    rewrite Heq, startswith_append in E. discriminate.
  - destruct (startswith sep (String c s)) eqn:E; [discriminate|].
    destruct (split_once sep s) as [[a' b']|] eqn:E'; [discriminate|].
    destruct a as [|x a]; push_append.
    + rewrite Heq, startswith_append in E. discriminate.
    + injection Heq as _ Heq. now apply (IH eq_refl a b).
Qed.

(** The split is at the first occurrence: when the separator [init+l]
    does not occur in [pre] followed by [init], the text
    [pre sep post] splits into [pre] and [post]. *)
Lemma split_once_first (init : string) (l : ascii) (pre post : string) :
  let sep := init +:+ String l EmptyString in
  contains sep (pre +:+ init) = false ->
  split_once sep (pre +:+ sep +:+ post) = Some (pre, post).
Proof.
  intros sep. unfold contains.
  induction pre as [|c pre IH]; intros Hc.
  - rewrite split_once_unfold. push_append.
    now rewrite startswith_append, drop_append.
  - rewrite split_once_unfold in Hc. rewrite split_once_unfold.
    push_append.
    destruct (startswith sep (String c (pre +:+ init))) eqn:E; [discriminate|].
    destruct (startswith sep (String c (pre +:+ sep +:+ post))) eqn:E2.
    + exfalso.
      assert (X : String c (pre +:+ sep +:+ post)
                  = String c (pre +:+ init) +:+ (String l EmptyString +:+ post)).
      { unfold sep. push_append. f_equal.
        rewrite (append_assoc pre init), (append_assoc init). reflexivity. }
      rewrite X in E2. apply startswith_shorten in E2.
      * congruence.
      * unfold sep. simpl. rewrite !length_append. simpl. lia.
    + rewrite IH; [reflexivity|].
      destruct (split_once sep (pre +:+ init)) as [[? ?]|]; [discriminate|reflexivity].
Qed.

Lemma contains_false (sub s : string) :
  contains sub s = false -> split_once sub s = None.
Proof.
  unfold contains. destruct (split_once sub s) as [[? ?]|]; [discriminate|reflexivity].
Qed.

(** A key has a slash exactly when its path has one: the suffix has none. *)
Lemma split_once_slash_suffix (p : string) :
  split_once "/" p = None -> split_once "/" (p +:+ ".meta.json") = None.
Proof.
  induction p as [|c p IH]; [reflexivity|].
  rewrite split_once_unfold. push_append.
  rewrite (split_once_unfold "/" (String c (p +:+ ".meta.json"))).
  rewrite !startswith_cons. cbn [startswith].
  destruct (Ascii.eqb "/" c); [intros; discriminate|].
  destruct (split_once "/" p) as [[? ?]|]; [intros; discriminate|].
  intros _. now rewrite IH.
Qed.

End PyStrFacts.

(** ** The answer marker (claim C4) *)

Module AnswerText.
Import PyStr PyStrFacts.

(** C4, counterexample. On a reply whose DESCRIPTIONS section names the
    file ANSWER_KEY.csv, the routine returns everything after the first
    occurrence of the letters ANSWER, not the text after the final
    standalone ANSWER header line (which is 42). *)
Lemma answer_text_splits_at_first_occurrence :
  Client.answer_text Samples.reply_naming_answer_key
  = "_KEY.csv: answer key of the quiz" +:+ nl +:+ nl
    +:+ "SELECTED_FILES" +:+ nl +:+ "ANSWER_KEY.csv" +:+ nl +:+ nl
    +:+ "ANSWER" +:+ nl +:+ "42"
  /\ Spec.final_answer Samples.reply_naming_answer_key = "42"
  /\ Client.answer_text Samples.reply_naming_answer_key
     <> Spec.final_answer Samples.reply_naming_answer_key.
Proof.
  split; [reflexivity | split; [reflexivity | vm_compute; discriminate]].
Qed.

(** C4, amended. The routine returns the trimmed text after the FIRST
    occurrence of the letters ANSWER in the output it holds (wherever
    they stand, header line or not); when they do not occur it returns
    that output unchanged. *)
Theorem answer_text_first_marker (raw pre post : string) :
  (raw = pre +:+ "ANSWER" +:+ post ->
   contains "ANSWER" (pre +:+ "ANSWE") = false ->
   Client.answer_text raw = strip post)
  /\ (contains "ANSWER" raw = false -> Client.answer_text raw = raw).
Proof.
  split.
  - intros -> Hfirst. unfold Client.answer_text.
    pose proof (split_once_first "ANSWE" "R" pre post Hfirst) as X.
    change (split_once "ANSWER" (pre +:+ "ANSWER" +:+ post) = Some (pre, post)) in X.
    now rewrite X.
  - intros Hnone. unfold Client.answer_text.
    now rewrite (contains_false _ _ Hnone).
Qed.

Lemma answer_text_first_marker_witness :
  Client.answer_text "x ANSWER 42 ANSWER z" = "42 ANSWER z"
  /\ Client.answer_text "no marker" = "no marker".
Proof.
  split.
  - exact (proj1 (answer_text_first_marker "x ANSWER 42 ANSWER z" "x " " 42 ANSWER z")
             eq_refl eq_refl).
  - exact (proj2 (answer_text_first_marker "no marker" EmptyString EmptyString)
             eq_refl).
Defined.

End AnswerText.

(** ** Keys without a container (claim C10) *)

Module SingleSegment.
Import PyStr PyStrFacts MetadataStore.

(** C10. For a record whose path has no slash, [write_meta] raises
    [ValueError] and leaves every bucket, container and file as it was
    (not even a call is made). *)
Theorem write_meta_single_segment `{Collaborators}
    (meta : FileMeta) (cloud : option string) (w : World) :
  contains "/" (path meta) = false ->
  write_meta meta cloud w
  = (Raise (ValueError ("Invalid key: " +:+ path meta +:+ ".meta.json")), w).
Proof.
  intros Hno. unfold write_meta, _save, SUFFIX.
  now rewrite (split_once_slash_suffix _ (contains_false _ _ Hno)).
Qed.

Lemma write_meta_single_segment_witness :
  @write_meta Samples.online
    (mkFileMeta "orders.csv" "s3" "orders.csv" "orders" "text/csv" 7
                (Datetime.mk 2025 7 30 12 0 0 0))
    (Some "s3") Samples.nothing
  = (Raise (ValueError "Invalid key: orders.csv.meta.json"), Samples.nothing).
Proof.
  exact (@write_meta_single_segment Samples.online
           (mkFileMeta "orders.csv" "s3" "orders.csv" "orders" "text/csv" 7
                       (Datetime.mk 2025 7 30 12 0 0 0))
           (Some "s3") Samples.nothing eq_refl).
Defined.

End SingleSegment.

(** ** Test mode (claim C1) *)

Module TestMode.
Import PyStr PyStrFacts MetadataStore.

(** In test mode [_save] still goes to the storage service, whatever the
    record, and the local directory stays as it was. *)
Lemma write_meta_ignores_test_mode `{Collaborators}
    (meta : FileMeta) (cloud : option string) (w : World) :
  local_files (snd (write_meta meta cloud w)) = local_files w
  /\ (contains "/" (path meta) = true ->
      exists service op container key,
        trace (snd (write_meta meta cloud w))
        = (trace w ++ [Network service op container key])%list).
Proof.
  unfold write_meta, _save, contains.
  destruct (split_once "/" (path meta +:+ SUFFIX)) as [[c b]|] eqn:E.
  - destruct (_is_s3_bucket c).
    + split; [reflexivity|]. intros _. now exists "s3", "put_object", c, b.
    + unfold upload_blob, bind, log. simpl.
      destruct (get_blob_client (c +:+ "/" +:+ b)) as [[cc|] bb]; simpl;
        (split; [reflexivity|]); intros _; eexists _, _, _, _; reflexivity.
  - split; [reflexivity|].
    destruct (split_once "/" (path meta)) as [[a b]|] eqn:E2; [|discriminate].
    exfalso. apply split_once_Some in E2.
    apply (split_once_None _ _ E a (b +:+ SUFFIX)).
    rewrite E2. now rewrite !append_assoc.
Qed.

(** C1, at the failing input. With TEST_MODE=1 and an empty local
    directory, [write_meta] of the record for bkt/a.csv calls
    [put_object] of S3 and writes no local file, and the [get_meta] that
    follows reads the local directory and finds nothing; the
    network-backed store answers the same [get_meta] with the record. *)
Lemma test_mode_put_is_not_local :
  fst (Samples.put_then_get Samples.offline Samples.nothing) = Ok None
  /\ trace (snd (Samples.put_then_get Samples.offline Samples.nothing))
     = [Network "s3" "put_object" "bkt" "a.csv.meta.json";
        LocalFile "read_bytes" "bkt__a.csv.meta.json"]
  /\ local_files (snd (Samples.put_then_get Samples.offline Samples.nothing)) = ∅
  /\ fst (Samples.put_then_get Samples.online Samples.nothing)
     = Ok (Some Samples.a_record).
Proof.
  split; [|split; [|split]]; vm_compute; reflexivity.
Qed.

End TestMode.

(** ** One object that cannot be read or described (claim C2) *)

Module OneBadObject.
Import PyStr MetadataStore.

(** C2, at the failing inputs. (1) The bucket holds one object whose key
    has a directory part; discovery asks for its head under the bare
    key, the read fails, the handler reads the unbound [head_text], and
    the orchestrator's [answer] ends with that exception. (2) The
    bucket holds one empty object; reading it as a table raises in the
    describer, which the pre-scan of the S3 client calls outside any
    [try], and the client's [answer] ends with that exception. *)
Lemma one_failure_halts_the_pass :
  fst (@Orchestrator.answer Samples.online "which orders?" Samples.one_nested_object)
  = Raise (UnboundLocalError "head_text")
  /\ last (trace (snd (@Orchestrator.answer Samples.online "which orders?"
                        Samples.one_nested_object)))
     = Some (Network "s3" "get_object" "data" "orders.csv")
  /\ fst (@ClientS3.answer Samples.online "what is there?" None Samples.one_empty_object)
     = Raise ParserError.
Proof.
  split; [|split]; vm_compute; reflexivity.
Qed.

End OneBadObject.

(** ** The describer's line (claim C9) *)

Module Describer.
Import PyStr PyStrFacts AutoDesc.

Lemma join_cons (sep x : string) (l : list string) :
  exists t, join sep (x :: l) = x +:+ t.
Proof.
  destruct l as [|y l].
  - exists EmptyString. simpl. now rewrite append_empty_r.
  - now exists (sep +:+ join sep (y :: l)).
Qed.

(** With at least one column the result is the joined line, and it
    begins with PK= and the name of a column. *)
Lemma auto_describe_line `{Collaborators} (path raw : string)
    (col : Column) (df : list Column) :
  read_frame (endswith ".csv" (lower path)) raw = Some (col :: df) ->
  exists pk t, In pk (map cname (col :: df))
               /\ auto_describe path raw = Ok ("PK=" +:+ pk +:+ t).
Proof.
  intros Hf. unfold auto_describe. rewrite Hf. cbn [map].
  set (pk := match List.find _ (col :: df) with
             | Some c => cname c
             | None => cname col
             end).
  assert (Hpk : In pk (map cname (col :: df))).
  { unfold pk. destruct (List.find _ (col :: df)) as [c|] eqn:E.
    - apply List.find_some in E. apply List.in_map. tauto.
    - now left. }
  exists pk. cbn [app].
  match goal with
  | |- context [join " · " (?h :: ?tl)%list] =>
      destruct (join_cons " · " h tl) as [t Ht]
  end.
  exists t. split; [exact Hpk|].
  rewrite Ht. rewrite append_assoc. reflexivity.
Qed.

(** The fallback is dead code: no input makes the describer return the
    text Table. *)
Lemma auto_describe_never_Table `{Collaborators} (path raw out : string) :
  auto_describe path raw = Ok out -> out <> "Table".
Proof.
  unfold auto_describe.
  destruct (read_frame _ raw) as [[|col df]|] eqn:Hf; try discriminate.
  destruct (auto_describe_line path raw col df Hf) as (pk & t & _ & Hd).
  unfold auto_describe in Hd. rewrite Hf in Hd. rewrite Hd.
  intros [= <-]. discriminate.
Qed.

(** C9, at the failing input. A columnar sample with no column parses,
    nothing can be identified in it, and the describer raises
    [IndexError] at [cols[0]] instead of returning the fallback. *)
Lemma auto_describe_zero_columns :
  @read_frame Samples.online (endswith ".csv" (lower "empty.parquet")) "PAR1"
  = Some []
  /\ @auto_describe Samples.online "empty.parquet" "PAR1"
     = Raise (IndexError "list index out of range").
Proof. split; reflexivity. Qed.

End Describer.

(** ** The side-car format round trip (claim C3) *)

Module RoundTrip.
Import PyStr PyStrFacts Json Notions.

(** *** Text literals *)

Lemma scan_string_escape (s rest : string) :
  scan_string (escape s +:+ String DQ rest) = Some (s, rest).
Proof.
  induction s as [|c s IH].
  - reflexivity.
  - cbn [escape]. rewrite append_assoc.
    destruct c as [[] [] [] [] [] [] [] []];
      match goal with
      | |- context [escape_char ?c] =>
          let e := eval vm_compute in (escape_char c) in
          change (escape_char c) with e
      end;
      push_append; simpl; rewrite IH; reflexivity.
Qed.

(** *** Integers *)

Lemma nat_of_digit_char (d : nat) :
  (d < 10)%nat -> nat_of_ascii (digit_char d) = (48 + d)%nat.
Proof. intros Hd. unfold digit_char. apply nat_ascii_embedding. lia. Qed.

Lemma more_digits_digit (a : Z) (d : nat) (s : string) :
  (d < 10)%nat ->
  more_digits a (String (digit_char d) s) = more_digits (10 * a + Z.of_nat d) s.
Proof.
  intros Hd. cbn [more_digits]. rewrite (nat_of_digit_char d Hd).
  replace ((48 <=? 48 + d)%nat && (48 + d <=? 57)%nat) with true.
  - do 2 f_equal. lia.
  - symmetry. apply andb_true_iff. split; apply Nat.leb_le; lia.
Qed.

Lemma nat_digits_acc (fuel n : nat) (acc rest : string) :
  nat_digits fuel n acc +:+ rest = nat_digits fuel n (acc +:+ rest).
Proof.
  revert n acc. induction fuel as [|f IH]; intros n acc; cbn [nat_digits].
  - reflexivity.
  - destruct (n <? 10)%nat; [reflexivity|]. now rewrite IH.
Qed.

(** The parser reads back the digits the printer wrote. *)
Lemma more_digits_nat_digits (fuel n : nat) (acc : string) :
  (n < fuel)%nat ->
  exists k : Z, (0 <= k)%Z /\ forall a,
    more_digits a (nat_digits fuel n acc)
    = more_digits (a * 10 ^ k + Z.of_nat n) acc.
Proof.
  revert n acc. induction fuel as [|f IH]; intros n acc Hn; [lia|].
  cbn [nat_digits]. destruct (n <? 10)%nat eqn:E.
  - apply Nat.ltb_lt in E. exists 1%Z. split; [lia|]. intros a.
    rewrite Nat.mod_small by lia. rewrite more_digits_digit by lia.
    f_equal. lia.
  - apply Nat.ltb_ge in E.
    assert (Hq : (n / 10 < f)%nat).
    { pose proof (Nat.div_lt n 10). lia. }
    destruct (IH (n / 10)%nat (String (digit_char (n mod 10)) acc) Hq)
      as (k & Hk & Hrec).
    exists (k + 1)%Z. split; [lia|]. intros a. rewrite Hrec.
    rewrite more_digits_digit by (apply Nat.mod_upper_bound; lia).
    f_equal. rewrite Z.pow_add_r by lia.
    pose proof (Nat.div_mod_eq n 10). lia.
Qed.

(** The first character the printer writes: a lone zero, or a digit that
    is not zero. *)
Lemma nat_digits_head (fuel n : nat) (acc : string) :
  (n < fuel)%nat ->
  (n = 0%nat /\ nat_digits fuel n acc = String "0" acc)
  \/ (exists d s, (1 <= d <= 9)%nat
                  /\ nat_digits fuel n acc = String (digit_char d) s).
Proof.
  revert n acc. induction fuel as [|f IH]; intros n acc Hn; [lia|].
  cbn [nat_digits]. destruct (n <? 10)%nat eqn:E.
  - apply Nat.ltb_lt in E. rewrite Nat.mod_small by lia.
    destruct n as [|n]; [left; split; reflexivity|].
    right. exists (S n), acc. split; [lia | reflexivity].
  - apply Nat.ltb_ge in E. right.
    assert (Hq : (n / 10 < f)%nat).
    { pose proof (Nat.div_lt n 10). lia. }
    destruct (IH (n / 10)%nat (String (digit_char (n mod 10)) acc) Hq)
      as [[Hz _] | (d & s & Hd & Hs)].
    + pose proof (Nat.div_mod_eq n 10).
      pose proof (Nat.mod_upper_bound n 10). lia.
    + now exists d, s.
Qed.

Lemma scan_nat_str_of_nat (n : nat) (rest : string) :
  stops_number rest ->
  scan_nat (str_of_nat n +:+ rest) = Some (Z.of_nat n, rest).
Proof.
  intros Hrest. unfold str_of_nat. rewrite nat_digits_acc. push_append.
  destruct (more_digits_nat_digits (S n) n rest) as (k & Hk & Hrec); [lia|].
  specialize (Hrec 0%Z). rewrite Hrest in Hrec.
  replace (0 * 10 ^ k + Z.of_nat n)%Z with (Z.of_nat n) in Hrec by lia.
  destruct (nat_digits_head (S n) n rest) as [[-> Hs] | (d & s & Hd & Hs)]; [lia| |].
  - rewrite Hs. reflexivity.
  - rewrite Hs in *. rewrite more_digits_digit in Hrec by lia.
    unfold scan_nat. rewrite nat_of_digit_char by lia.
    replace (48 + d =? 48)%nat with false by (symmetry; apply Nat.eqb_neq; lia).
    replace ((49 <=? 48 + d)%nat && (48 + d <=? 57)%nat) with true
      by (symmetry; apply andb_true_iff; split; apply Nat.leb_le; lia).
    replace (Z.of_nat (48 + d - 48)) with (10 * 0 + Z.of_nat d)%Z by lia.
    now rewrite Hrec.
Qed.

(** The first character of a printed integer is a sign or a digit. *)
Lemma str_of_Z_head (z : Z) :
  exists c s, str_of_Z z = String c s
              /\ (c = "-"%char \/ exists d, (d < 10)%nat /\ c = digit_char d).
Proof.
  unfold str_of_Z. destruct (z <? 0)%Z.
  - eexists _, _. split; [reflexivity | now left].
  - unfold str_of_nat.
    destruct (nat_digits_head (S (Z.to_nat z)) (Z.to_nat z) EmptyString)
      as [[_ Hs] | (d & s & Hd & Hs)]; [lia| |]; rewrite Hs.
    + eexists _, _. split; [reflexivity|]. right. exists 0%nat. split; [lia|reflexivity].
    + eexists _, _. split; [reflexivity|]. right. exists d. split; [lia|reflexivity].
Qed.

Lemma scan_int_digit (d : nat) (s : string) :
  (d < 10)%nat ->
  scan_int (String (digit_char d) s) = scan_nat (String (digit_char d) s).
Proof.
  intros Hd.
  do 10 (destruct d as [|d]; [reflexivity|]). lia.
Qed.

Lemma scan_int_str_of_Z (z : Z) (rest : string) :
  stops_number rest ->
  scan_int (str_of_Z z +:+ rest) = Some (z, rest).
Proof.
  intros Hrest. unfold str_of_Z. destruct (z <? 0)%Z eqn:E.
  - apply Z.ltb_lt in E. push_append. cbn [scan_int].
    rewrite scan_nat_str_of_nat by assumption. do 2 f_equal. lia.
  - apply Z.ltb_ge in E.
    pose proof (scan_nat_str_of_nat (Z.to_nat z) rest Hrest) as Hn.
    unfold str_of_nat in *. rewrite nat_digits_acc in *.
    destruct (nat_digits_head (S (Z.to_nat z)) (Z.to_nat z) (EmptyString +:+ rest))
      as [[_ Hs] | (d & s & Hd & Hs)]; [lia| |]; rewrite Hs in *.
    + change "0"%char with (digit_char 0). rewrite scan_int_digit by lia.
      change (digit_char 0) with "0"%char. rewrite Hn. do 2 f_equal. lia.
    + rewrite scan_int_digit by lia. rewrite Hn. do 2 f_equal. lia.
Qed.

(** *** Timestamps *)

Import Datetime.

Lemma digit_val_digit (k : Z) :
  digit_val (digit k) = Some (k mod 10)%Z
  /\ Ascii.eqb (digit k) " " = false.
Proof.
  unfold digit.
  assert (H : (0 <= k mod 10 < 10)%Z) by (apply Z.mod_pos_bound; lia).
  assert (Hc : exists d, (d < 10)%nat /\ (k mod 10)%Z = Z.of_nat d).
  { exists (Z.to_nat (k mod 10)). lia. }
  destruct Hc as (d & Hd & ->). rewrite Nat2Z.id.
  do 10 (destruct d as [|d]; [split; reflexivity|]). lia.
Qed.

Lemma field_pad2 (two one : Z -> bool) (blank : bool) (sep : ascii)
    (n : Z) (rest : string) :
  (0 <= n <= 99)%Z -> two n = true ->
  field two one blank sep (pad2 n +:+ String sep rest) = Some (n, rest).
Proof.
  intros Hn Htwo. unfold pad2. push_append. unfold field.
  destruct (digit_val_digit (n / 10)) as [H1 H1'].
  destruct (digit_val_digit n) as [H2 _].
  rewrite H1, H2, H1'. rewrite andb_false_r.
  replace (10 * ((n / 10) mod 10) + n mod 10)%Z with n
    by (rewrite (Z.mod_small (n / 10)) by (Z.to_euclidean_division_equations; lia);
        Z.to_euclidean_division_equations; lia).
  rewrite Htwo, Ascii.eqb_refl. reflexivity.
Qed.

Lemma year_field_pad4 (sep : ascii) (y : Z) (rest : string) :
  (0 <= y <= 9999)%Z ->
  year_field sep (pad4 y +:+ String sep rest) = Some (y, rest).
Proof.
  intros Hy. unfold pad4, pad2. push_append. unfold year_field.
  destruct (digit_val_digit (y / 1000)) as [-> _].
  destruct (digit_val_digit (y / 100)) as [-> _].
  destruct (digit_val_digit (y / 10)) as [-> _].
  destruct (digit_val_digit y) as [-> _].
  rewrite Ascii.eqb_refl. do 2 f_equal.
  Z.to_euclidean_division_equations; lia.
Qed.

Lemma valid_bounds (d : datetime) :
  valid d = true ->
  (1 <= year d <= 9999 /\ 1 <= month d <= 12 /\ 1 <= day d <= 31
   /\ 0 <= hour d <= 23 /\ 0 <= minute d <= 59 /\ 0 <= second d <= 59)%Z.
Proof.
  unfold valid, within, days_in_month. intros H.
  repeat (apply andb_true_iff in H; destruct H as [H ?]).
  repeat match goal with
         | X : (_ <=? _)%Z = true |- _ => apply Z.leb_le in X
         end.
  repeat split; try lia.
  destruct (month d =? 2)%Z; [destruct (is_leap (year d)); lia|].
  destruct ((month d =? 4) || (month d =? 6) || (month d =? 9) || (month d =? 11))%Z; lia.
Qed.

Lemma valid_whole_seconds (d : datetime) :
  valid d = true -> valid (whole_seconds d) = true.
Proof.
  destruct d as [y mo dd h mi s us]. unfold valid, whole_seconds.
  cbn [year month day hour minute second microsecond].
  change (within 0 999999 0) with true.
  rewrite !andb_true_iff. intuition.
Qed.

(** [strptime] reads back what [strftime] wrote, to the second. *)
Lemma strptime_strftime (d : datetime) :
  valid d = true -> strptime (strftime d) = Some (whole_seconds d).
Proof.
  intros Hv. destruct (valid_bounds d Hv) as (Hy & Hmo & Hd & Hh & Hmi & Hs).
  unfold strftime, strptime. push_append.
  rewrite year_field_pad4 by lia.
  rewrite field_pad2 by (try lia; unfold within; apply andb_true_iff; split; apply Z.leb_le; lia).
  rewrite field_pad2 by (try lia; unfold within; apply andb_true_iff; split; apply Z.leb_le; lia).
  rewrite field_pad2 by (try lia; unfold within; apply andb_true_iff; split; apply Z.leb_le; lia).
  rewrite field_pad2 by (try lia; unfold within; apply andb_true_iff; split; apply Z.leb_le; lia).
  rewrite field_pad2 by (try lia; unfold within; apply andb_true_iff; split; apply Z.leb_le; lia).
  change (mk (year d) (month d) (day d) (hour d) (minute d) (second d) 0)
    with (whole_seconds d).
  now rewrite (valid_whole_seconds d Hv).
Qed.

(** Whatever [strptime] returns is a valid time in whole seconds. *)
Lemma strptime_whole (s : string) (d : datetime) :
  strptime s = Some d -> valid d = true /\ whole_seconds d = d.
Proof.
  unfold strptime. intros H.
  repeat match type of H with
         | (if ?b then _ else _) = _ => destruct b eqn:?; try discriminate
         | (let (_, _) := ?x in _) = _ => destruct x
         | match ?x with _ => _ end = _ => destruct x; try discriminate
         end.
  injection H as <-. split; [assumption | reflexivity].
Qed.

(** *** Objects *)

Ltac ends_value :=
  first [ unfold stops_number; intros; reflexivity
        | reflexivity
        | match goal with
          | |- float_tail (String _ ?r) = false => destruct r; reflexivity
          end ].

Lemma scan_value_dumps (v : value) (rest : string) :
  stops_number rest -> float_tail rest = false ->
  scan_value (dumps_value v +:+ rest) = Some (v, rest).
Proof.
  intros Hstop Hfloat. destruct v as [s|z]; cbn [dumps_value].
  - unfold dumps_string. push_append. rewrite append_assoc. push_append.
    unfold scan_value. change (Ascii.eqb DQ DQ) with true. cbv iota.
    now rewrite scan_string_escape.
  - pose proof (scan_int_str_of_Z z rest Hstop) as Hi.
    destruct (str_of_Z_head z) as (c & s & Hs & Hc). rewrite Hs in *.
    push_append. unfold scan_value. rewrite Hi, Hfloat.
    destruct Hc as [-> | (d & Hd & ->)]; [reflexivity|].
    do 10 (destruct d as [|d]; [reflexivity|]). lia.
Qed.

(** The first character of a printed value is no blank. *)
Lemma skip_ws_dumps_value (v : value) (rest : string) :
  skip_ws (dumps_value v +:+ rest) = dumps_value v +:+ rest.
Proof.
  destruct v as [s|z]; cbn [dumps_value].
  - reflexivity.
  - destruct (str_of_Z_head z) as (c & s & Hs & Hc). rewrite Hs. push_append.
    destruct Hc as [-> | (d & Hd & ->)]; [reflexivity|].
    do 10 (destruct d as [|d]; [reflexivity|]). lia.
Qed.

Lemma scan_member (f : nat) (kv : string * value) (tail : string) :
  stops_number tail -> float_tail tail = false ->
  scan_members (S f) (member kv +:+ tail)
  = match skip_ws tail with
    | String "}" r => Some ([kv], r)
    | String "," s5 =>
        match scan_members f (skip_ws s5) with
        | Some (more, r) => Some (kv :: more, r)
        | None => None
        end
    | _ => None
    end.
Proof.
  intros Hstop Hfloat. destruct kv as [k v]. unfold member, dumps_string.
  cbn [fst snd]. push_append. rewrite !append_assoc. push_append.
  cbn [scan_members]. change (Ascii.eqb DQ DQ) with true. cbv iota.
  rewrite scan_string_escape.
  change (skip_ws (String ":" (String " " (dumps_value v +:+ tail))))
    with (String ":" (String " " (dumps_value v +:+ tail))).
  cbv iota.
  change (skip_ws (String " " (dumps_value v +:+ tail)))
    with (skip_ws (dumps_value v +:+ tail)).
  rewrite skip_ws_dumps_value, scan_value_dumps by assumption.
  reflexivity.
Qed.

Lemma scan_members_join (d : list (string * value)) :
  forall (kv : string * value) (fuel : nat) (rest : string),
  (length (kv :: d) <= fuel)%nat ->
  scan_members fuel (join ", " (map member (kv :: d)) +:+ String "}" rest)
  = Some (kv :: d, rest).
Proof.
  induction d as [|kv' d IH]; intros kv fuel rest Hfuel;
    (destruct fuel as [|f]; [simpl in Hfuel; lia|]).
  - cbn [map join]. rewrite scan_member by ends_value. reflexivity.
  - change (join ", " (map member (kv :: kv' :: d)))
      with (member kv +:+ ", " +:+ join ", " (map member (kv' :: d))).
    rewrite !append_assoc. push_append.
    rewrite scan_member by ends_value.
    change (skip_ws (String "," ?x)) with (String "," x).
    cbv iota.
    match goal with
    | |- context [skip_ws (String " " ?x)] =>
        change (skip_ws (String " " x)) with (skip_ws x)
    end.
    assert (Hhead : forall x, skip_ws (join ", " (map member (kv' :: d)) +:+ x)
                              = join ", " (map member (kv' :: d)) +:+ x).
    { intros x. destruct d; cbn [map join]; unfold member at 1, dumps_string;
        push_append; reflexivity. }
    rewrite Hhead, IH by (simpl in *; lia). reflexivity.
Qed.

Lemma length_join_members (kv : string * value) (d : list (string * value)) :
  (length (kv :: d) <= String.length (join ", " (map member (kv :: d))))%nat.
Proof.
  revert kv. induction d as [|kv' d IH]; intros kv.
  - cbn [map join]. unfold member, dumps_string. push_append. simpl. lia.
  - change (join ", " (map member (kv :: kv' :: d)))
      with (member kv +:+ ", " +:+ join ", " (map member (kv' :: d))).
    rewrite !length_append. specialize (IH kv').
    unfold member at 1, dumps_string. push_append. simpl in *. lia.
Qed.

Lemma loads_object (t : string) :
  loads (String "{" (String DQ t))
  = match scan_members (String.length (String "{" (String DQ t))) (String DQ t) with
    | Some (d, r) => match skip_ws r with EmptyString => Some d | _ => None end
    | None => None
    end.
Proof. reflexivity. Qed.

(** [loads] reads back what [dumps] wrote. *)
Lemma loads_dumps (kv : string * value) (d : list (string * value)) :
  loads (dumps (kv :: d)) = Some (kv :: d).
Proof.
  unfold dumps. fold member.
  set (body := join ", " (map member (kv :: d))).
  assert (Hb : exists t, body = String DQ t).
  { unfold body. destruct d; cbn [map join]; unfold member at 1, dumps_string;
      push_append; eexists; reflexivity. }
  destruct Hb as [t Ht].
  push_append. rewrite Ht. push_append.
  rewrite loads_object. rewrite <- append_cons, <- Ht. unfold body.
  rewrite scan_members_join; [reflexivity|].
  pose proof (length_join_members kv d) as Hl.
  cbn [String.length]. rewrite length_append. lia.
Qed.

(** *** Records *)

Import Meta.

(** [from_json] after [to_json]: every field as it was, the time as
    [strptime] reads it back. *)
Lemma from_json_to_json_gen (m : FileMeta) :
  from_json (to_json m)
  = match strptime (strftime (last_scanned m)) with
    | Some t => Some (mkFileMeta (path m) (cloud m) (title m) (description m)
                                 (mime_type m) (size m) t)
    | None => None
    end.
Proof.
  unfold from_json, to_json. rewrite loads_dumps.
  cbn -[strptime strftime].
  destruct (strptime (strftime (last_scanned m))); reflexivity.
Qed.

Lemma length_strftime (d : datetime) : String.length (strftime d) = 20%nat.
Proof. unfold strftime, pad4, pad2. push_append. reflexivity. Qed.


(** From the year 1000 on the four digits of the year are its plain
    decimal digits: nothing is padded. *)
Lemma year_needs_no_padding (y : Z) :
  (1000 <= y <= 9999)%Z -> pad4 y = str_of_Z y.
Proof.
  intros Hy. unfold str_of_Z. replace (y <? 0)%Z with false
    by (symmetry; apply Z.ltb_ge; lia).
  remember (Z.to_nat y) as n eqn:Hn.
  assert (Hb : (1000 <= Z.of_nat n <= 9999)%Z) by lia.
  replace y with (Z.of_nat n) by lia. clear y Hy Hn.
  assert (Hd : forall k, digit (Z.of_nat k) = digit_char (k mod 10)).
  { intros k. unfold digit. change 10%Z with (Z.of_nat 10).
    now rewrite <- Nat2Z.inj_mod, Nat2Z.id. }
  unfold pad4, pad2. change 1000%Z with (Z.of_nat 1000).
  change 100%Z with (Z.of_nat 100). change 10%Z with (Z.of_nat 10).
  rewrite <- !Nat2Z.inj_div, !Hd.
  unfold str_of_nat. replace (S n) with (S (S (S (S (n - 3))))) by lia.
  cbn [nat_digits].
  replace (n <? 10)%nat with false by (symmetry; apply Nat.ltb_ge; lia).
  replace (n / 10 <? 10)%nat with false
    by (symmetry; apply Nat.ltb_ge; apply Nat.div_le_lower_bound; lia).
  replace (n / 10 / 10 <? 10)%nat with false
    by (symmetry; apply Nat.ltb_ge; rewrite Nat.Div0.div_div;
        apply Nat.div_le_lower_bound; lia).
  replace (n / 10 / 10 / 10 <? 10)%nat with true
    by (symmetry; apply Nat.ltb_lt; rewrite !Nat.Div0.div_div;
        apply Nat.Div0.div_lt_upper_bound; lia).
  rewrite !Nat.Div0.div_div. reflexivity.
Qed.



(** Whatever [from_json] returns is written back unchanged. *)
Lemma from_json_fixed (raw : string) (m : FileMeta) :
  from_json raw = Some m ->
  valid (last_scanned m) = true /\ stored m = m.
Proof.
  unfold from_json. intros H.
  destruct (loads raw) as [d|]; [|discriminate].
  destruct (Json.get "last_scanned" d) as [[ts|?]|]; try discriminate.
  destruct (strptime ts) as [t|] eqn:Et; [|discriminate].
  destruct (strptime_whole _ _ Et) as [Hv Hw].
  destruct (forallb _ d); [|discriminate].
  repeat match type of H with
         | match ?x with _ => _ end = _ => destruct x; try discriminate
         end.
  injection H as <-. split; [exact Hv|]. unfold stored. cbn. now rewrite Hw.
Qed.

End RoundTrip.

(** ** Traces only grow, and by what *)

Module TraceFacts.
Import PyStr.
Export Traces.

Lemma emits_weaken {A} (P Q : Event -> Prop) (m : M A) :
  (forall e, P e -> Q e) -> emits P m -> emits Q m.
Proof.
  intros HPQ Hm w. destruct (Hm w) as (evs & Ht & Hf).
  exists evs. split; [exact Ht|]. eapply Forall_impl; eauto.
Qed.

Lemma emits_ret {A} P (a : A) : emits P (ret a).
Proof. intros w. exists []. split; [now rewrite app_nil_r | constructor]. Qed.

Lemma emits_raise {A} P e : emits P (@raise A e).
Proof. intros w. exists []. split; [now rewrite app_nil_r | constructor]. Qed.

Lemma emits_lift {A} P (r : Res A) : emits P (lift r).
Proof. intros w. exists []. split; [now rewrite app_nil_r | constructor]. Qed.

Lemma emits_world P : emits P world.
Proof. intros w. exists []. split; [now rewrite app_nil_r | constructor]. Qed.

Lemma emits_store_s3 P b k o : emits P (store_s3 b k o).
Proof. intros w. exists []. split; [now rewrite app_nil_r | constructor]. Qed.

Lemma emits_store_azure P c b o : emits P (store_azure c b o).
Proof. intros w. exists []. split; [now rewrite app_nil_r | constructor]. Qed.

Lemma emits_log (P : Event -> Prop) e : P e -> emits P (log e).
Proof. intros He w. exists [e]. split; [reflexivity | now constructor]. Qed.

Lemma emits_bind {A B} P (m : M A) (k : A -> M B) :
  emits P m -> (forall a, emits P (k a)) -> emits P (bind m k).
Proof.
  intros Hm Hk w. unfold bind. destruct (Hm w) as (evs & Ht & Hf).
  destruct (m w) as [[a|e] w1]; cbn [snd] in *.
  - destruct (Hk a w1) as (evs' & Ht' & Hf').
    exists (evs ++ evs')%list. split.
    + now rewrite Ht', Ht, app_assoc.
    + now apply Forall_app.
  - now exists evs.
Qed.

Lemma emits_try {A} P (m : M A) (h : Exception -> M A) :
  emits P m -> (forall e, emits P (h e)) -> emits P (try_except m h).
Proof.
  intros Hm Hh w. unfold try_except. destruct (Hm w) as (evs & Ht & Hf).
  destruct (m w) as [[a|e] w1]; cbn [snd] in *.
  - now exists evs.
  - destruct (Hh e w1) as (evs' & Ht' & Hf').
    exists (evs ++ evs')%list. split.
    + now rewrite Ht', Ht, app_assoc.
    + now apply Forall_app.
Qed.

Lemma emits_for_each {A} P (l : list A) (body : A -> M unit) :
  (forall x, emits P (body x)) -> emits P (for_each l body).
Proof.
  intros Hb. induction l as [|x l IH]; cbn [for_each].
  - apply emits_ret.
  - apply emits_bind; [apply Hb | intros _; exact IH].
Qed.

Lemma calls_of_mono (names names' : list string) (e : Event) :
  incl names names' -> calls_of names e -> calls_of names' e.
Proof. intros Hi. destruct e; cbn; auto. Qed.

Create HintDb emits.

#[export] Hint Extern 1 (In _ _) => simpl; tauto : emits.
#[export] Hint Extern 1 (calls_of _ _) => exact I : emits.
#[export] Hint Extern 2 (calls_of _ _) => simpl; tauto : emits.

(** One step through the structure of a computation. *)
Ltac emits_step :=
  lazymatch goal with
  | |- emits _ (bind _ _) => apply emits_bind; [|intros]
  | |- emits _ (try_except _ _) => apply emits_try; [|intros]
  | |- emits _ (ret _) => apply emits_ret
  | |- emits _ (raise _) => apply emits_raise
  | |- emits _ (lift _) => apply emits_lift
  | |- emits _ world => apply emits_world
  | |- emits _ (store_s3 _ _ _) => apply emits_store_s3
  | |- emits _ (store_azure _ _ _) => apply emits_store_azure
  | |- emits _ (log _) => apply emits_log; solve [auto with emits]
  | |- emits _ (print _) => apply emits_log; exact I
  | |- emits _ (for_each _ _) => apply emits_for_each; intros
  | |- emits _ (match ?x with _ => _ end) => destruct x
  | |- emits _ _ => solve [auto with emits]
  end.

Ltac emits_all := repeat emits_step.

Section WithCollaborators.
Context `{Collaborators}.
Variable names : list string.

Import MetadataStore Scanner.

Lemma emits_s3_get_object b k r : emits (calls_of names) (s3_get_object b k r).
Proof. unfold s3_get_object. emits_all. Qed.

Lemma emits_s3_put_object b k d : emits (calls_of names) (s3_put_object b k d).
Proof. unfold s3_put_object. emits_all. Qed.

Lemma emits_s3_head_object b k : emits (calls_of names) (s3_head_object b k).
Proof. unfold s3_head_object. emits_all. Qed.

Lemma emits_s3_list_keys b p : emits (calls_of names) (s3_list_keys b p).
Proof. unfold s3_list_keys. emits_all. Qed.

Lemma emits_download_blob c r : emits (calls_of names) (download_blob c r).
Proof. unfold download_blob. emits_all. Qed.

Lemma emits_upload_blob c d : emits (calls_of names) (upload_blob c d).
Proof. unfold upload_blob. emits_all. Qed.

Lemma emits_get_blob_properties c : emits (calls_of names) (get_blob_properties c).
Proof. unfold get_blob_properties. emits_all. Qed.

Lemma emits_list_blobs c p : emits (calls_of names) (list_blobs c p).
Proof. unfold list_blobs. emits_all. Qed.

Lemma emits_read_bytes n : emits (calls_of names) (read_bytes n).
Proof. unfold read_bytes. emits_all. Qed.

Lemma emits_glob_sidecars s : emits (calls_of names) (glob_sidecars s).
Proof. unfold glob_sidecars. emits_all. Qed.

Hint Resolve emits_s3_get_object emits_s3_put_object emits_s3_head_object
  emits_s3_list_keys emits_download_blob emits_upload_blob
  emits_get_blob_properties emits_list_blobs emits_read_bytes
  emits_glob_sidecars : emits.

Lemma emits__save k d c : emits (calls_of names) (_save k d c).
Proof. unfold _save. emits_all. Qed.

Lemma emits__load k : emits (calls_of names) (_load k).
Proof. unfold _load. emits_all. Qed.

Hint Resolve emits__save emits__load : emits.

Lemma emits__iter_keys p : emits (calls_of names) (_iter_keys p).
Proof. unfold _iter_keys, _iter_s3, _iter_azure. emits_all. Qed.

Lemma emits_write_meta m c : emits (calls_of names) (write_meta m c).
Proof. unfold write_meta. emits_all. Qed.

Lemma emits_get_meta p c : emits (calls_of names) (get_meta p c).
Proof. unfold get_meta. emits_all. Qed.

Hint Resolve emits__iter_keys emits_write_meta emits_get_meta : emits.

Lemma emits_read_each ks ms : emits (calls_of names) (read_each ks ms).
Proof.
  revert ms. induction ks as [|k ks IH]; intros ms; cbn [read_each]; emits_all.
Qed.

Hint Resolve emits_read_each : emits.

Lemma emits_read_all p : emits (calls_of names) (read_all p).
Proof. unfold read_all. emits_all. Qed.

Lemma emits_create_message m p : emits (calls_of names) (create_message m p).
Proof. unfold create_message. emits_all. Qed.

Lemma emits__download_head p c : emits (calls_of names) (_download_head p c).
Proof. unfold _download_head. emits_all. Qed.

Hint Resolve emits_read_all emits_create_message emits__download_head : emits.

Lemma emits_properties p c : emits (calls_of names) (properties p c).
Proof. unfold properties. emits_all. Qed.

Hint Resolve emits_properties : emits.

Lemma emits_scan_object p c :
  In "scan_object" names -> emits (calls_of names) (scan_object p c).
Proof. intros Hn. unfold scan_object. emits_all. Qed.

End WithCollaborators.

#[export] Hint Resolve emits_s3_get_object emits_s3_put_object emits_s3_head_object
  emits_s3_list_keys emits_download_blob emits_upload_blob
  emits_get_blob_properties emits_list_blobs emits_read_bytes
  emits_glob_sidecars emits__save emits__load emits__iter_keys
  emits_write_meta emits_get_meta emits_read_each emits_read_all
  emits_create_message emits__download_head emits_properties
  emits_scan_object : emits.

Section Clients.
Context `{Collaborators}.
Variable names : list string.

Import Client.

Lemma emits_item l i : emits (calls_of names) (item l i).
Proof. unfold item. emits_all. Qed.

Hint Resolve emits_item : emits.

Lemma emits_descriptions_chunk raw : emits (calls_of names) (descriptions_chunk raw).
Proof. unfold descriptions_chunk. emits_all. Qed.

Lemma emits_republish c cl st p d : emits (calls_of names) (republish c cl st p d).
Proof. unfold republish. emits_all. Qed.

Hint Resolve emits_descriptions_chunk emits_republish : emits.

Lemma emits_cache_descriptions c cl st t raw :
  emits (calls_of names) (cache_descriptions c cl st t raw).
Proof. unfold cache_descriptions. emits_all. Qed.

Hint Resolve emits_cache_descriptions : emits.

Hypothesis scans : In "scan_object" names.

Lemma emits_s3__list_meta : emits (calls_of names) ClientS3._list_meta.
Proof. unfold ClientS3._list_meta. emits_all. Qed.

Lemma emits_s3__read p n : emits (calls_of names) (ClientS3._read p n).
Proof. unfold ClientS3._read. emits_all. Qed.

Hint Resolve emits_s3__list_meta emits_s3__read : emits.

Lemma emits_s3_collect_doc m : emits (calls_of names) (ClientS3.collect_doc m).
Proof. unfold ClientS3.collect_doc. emits_all. Qed.

Hint Resolve emits_s3_collect_doc : emits.

Lemma emits_s3_collect ms ds : emits (calls_of names) (ClientS3.collect ms ds).
Proof.
  revert ds. induction ms as [|m ms IH]; intros ds; cbn [ClientS3.collect]; emits_all.
Qed.

Hint Resolve emits_s3_collect : emits.

Lemma emits_s3_prescan_one m : emits (calls_of names) (ClientS3.prescan_one m).
Proof. unfold ClientS3.prescan_one. emits_all. Qed.

Hint Resolve emits_s3_prescan_one : emits.

Lemma emits_s3_answer q t :
  In "s3.answer" names -> emits (calls_of names) (ClientS3.answer q t).
Proof.
  intros Hn. unfold ClientS3.answer, ClientS3._auto_prescan, ClientS3._collect_docs.
  emits_all.
Qed.

Lemma emits_az__list_meta : emits (calls_of names) ClientAzure._list_meta.
Proof. unfold ClientAzure._list_meta. emits_all. Qed.

Lemma emits_az__read_blob p n : emits (calls_of names) (ClientAzure._read_blob p n).
Proof. unfold ClientAzure._read_blob. emits_all. Qed.

Hint Resolve emits_az__list_meta emits_az__read_blob : emits.

Lemma emits_az_collect_doc m : emits (calls_of names) (ClientAzure.collect_doc m).
Proof. unfold ClientAzure.collect_doc. emits_all. Qed.

Hint Resolve emits_az_collect_doc : emits.

Lemma emits_az_collect ms ds : emits (calls_of names) (ClientAzure.collect ms ds).
Proof.
  revert ds. induction ms as [|m ms IH]; intros ds; cbn [ClientAzure.collect]; emits_all.
Qed.

Hint Resolve emits_az_collect : emits.

Lemma emits_az_prescan_one m : emits (calls_of names) (ClientAzure.prescan_one m).
Proof. unfold ClientAzure.prescan_one. emits_all. Qed.

Hint Resolve emits_az_prescan_one : emits.

Lemma emits_az_answer q t :
  In "azure.answer" names -> emits (calls_of names) (ClientAzure.answer q t).
Proof.
  intros Hn. unfold ClientAzure.answer, ClientAzure._collect_docs, ClientAzure._prescan.
  emits_all.
Qed.

End Clients.

#[export] Hint Resolve emits_item emits_descriptions_chunk emits_republish
  emits_cache_descriptions emits_s3__list_meta emits_s3__read
  emits_s3_collect_doc emits_s3_collect emits_s3_prescan_one emits_s3_answer
  emits_az__list_meta emits_az__read_blob emits_az_collect_doc
  emits_az_collect emits_az_prescan_one emits_az_answer : emits.

Section Orchestration.
Context `{Collaborators}.
Variable names : list string.
Hypothesis scans : In "scan_object" names.

Import Orchestrator.

Lemma emits_block_step st m : emits (calls_of names) (block_step st m).
Proof. unfold block_step, list_s3_meta. emits_all. Qed.

Hint Resolve emits_block_step : emits.

Lemma emits_block_loop ms st : emits (calls_of names) (block_loop ms st).
Proof.
  revert st. induction ms as [|m ms IH]; intros st; cbn [block_loop]; emits_all.
Qed.

Hint Resolve emits_block_loop : emits.

Lemma emits__build : emits (calls_of names) _build_dataset_and_schema_blocks.
Proof.
  unfold _build_dataset_and_schema_blocks, list_s3_meta, list_az_meta. emits_all.
Qed.

Lemma emits_prescan cl c ms : emits (calls_of names) (prescan cl c ms).
Proof. unfold prescan. emits_all. Qed.

Lemma emits__plan q d s ms :
  In "_plan" names -> emits (calls_of names) (_plan q d s ms).
Proof. intros Hn. unfold _plan. emits_all. Qed.

Hint Resolve emits__build emits_prescan emits__plan : emits.

(** Discovery and planning enter no function but the scanner and the
    planner. *)
Lemma emits_discover_and_plan q :
  In "_plan" names -> emits (calls_of names) (discover_and_plan q).
Proof.
  intros Hn. unfold discover_and_plan, list_s3_meta, list_az_meta. emits_all.
Qed.

Hypothesis asks_s3 : In "s3.answer" names.
Hypothesis asks_az : In "azure.answer" names.

Lemma emits_execute_step step st : emits (calls_of names) (execute_step step st).
Proof.
  unfold execute_step, s3_answer, az_answer. destruct st as [results history].
  emits_all.
Qed.

Hint Resolve emits_execute_step : emits.

Lemma emits_execute_steps steps st : emits (calls_of names) (execute_steps steps st).
Proof.
  revert st. induction steps as [|s steps IH]; intros st; cbn [execute_steps]; emits_all.
Qed.

End Orchestration.

#[export] Hint Resolve emits_block_step emits_block_loop emits__build
  emits_prescan emits__plan emits_discover_and_plan emits_execute_step
  emits_execute_steps : emits.

End TraceFacts.

(** ** Text that survives trimming *)

Module StripFacts.
Import PyStr PyStrFacts Notions.

Lemma rev_onto_append (s acc : string) :
  rev_onto s acc = rev_onto s EmptyString +:+ acc.
Proof.
  revert acc. induction s as [|c s IH]; intros acc; cbn [rev_onto].
  - reflexivity.
  - rewrite (IH (String c acc)), (IH (String c EmptyString)).
    rewrite append_assoc. reflexivity.
Qed.

Lemma rev_cons (c : ascii) (s : string) :
  rev (String c s) = rev s +:+ String c EmptyString.
Proof. unfold rev. cbn [rev_onto]. apply rev_onto_append. Qed.

Lemma rev_append (a b : string) : rev (a +:+ b) = rev b +:+ rev a.
Proof.
  induction a as [|c a IH]; push_append.
  - now rewrite append_empty_r.
  - rewrite !rev_cons, IH, append_assoc. reflexivity.
Qed.

Lemma rev_involutive (s : string) : rev (rev s) = s.
Proof.
  induction s as [|c s IH]; [reflexivity|].
  rewrite rev_cons, rev_append, IH. reflexivity.
Qed.

Lemma lacks_cons (c a : ascii) (p : string) :
  lacks c (String a p) -> a <> c /\ lacks c p.
Proof.
  unfold lacks, contains. rewrite split_once_unfold.
  rewrite startswith_cons. cbn [startswith].
  destruct (Ascii.eqb c a) eqn:E; [discriminate|].
  apply Ascii.eqb_neq in E.
  destruct (split_once (String c EmptyString) p) as [[? ?]|]; [discriminate|].
  intros _. split; [congruence | reflexivity].
Qed.

(** A pattern without [c] that matches at the start of [x c y] matches
    inside [x]. *)
Lemma startswith_before (p x y : string) (c : ascii) :
  lacks c p -> startswith p (x +:+ String c y) = true ->
  exists x', x = p +:+ x'.
Proof.
  revert x. induction p as [|a p IH]; intros x Hl Hs.
  - now exists x.
  - destruct (lacks_cons _ _ _ Hl) as [Hne Hl'].
    destruct x as [|b x]; push_append; rewrite startswith_cons in Hs.
    + destruct (Ascii.eqb a c) eqn:E; [|discriminate].
      apply Ascii.eqb_eq in E. contradiction.
    + destruct (Ascii.eqb a b) eqn:E; [|discriminate].
      apply Ascii.eqb_eq in E. subst b.
      destruct (IH x Hl' Hs) as [x' ->]. now exists x'.
Qed.

Lemma eat_one_before (pats : list string) (x y r : string) (c : ascii) :
  Forall (lacks c) pats ->
  eat_one pats (x +:+ String c y) = Some r ->
  exists x', r = x' +:+ String c y.
Proof.
  induction 1 as [|p pats Hp Hps IH]; cbn [eat_one]; [discriminate|].
  destruct (startswith p (x +:+ String c y)) eqn:E; [|exact IH].
  intros [= <-]. destruct (startswith_before _ _ _ _ Hp E) as [x' ->].
  exists x'. rewrite append_assoc. apply drop_append.
Qed.

(** Trimming from the left stops at the latest before a solid character. *)
Lemma eat_all_before (fuel : nat) (pats : list string) (x y : string) (c : ascii) :
  Forall (lacks c) pats ->
  exists x', eat_all fuel pats (x +:+ String c y) = x' +:+ String c y.
Proof.
  intros Hp. revert x. induction fuel as [|f IH]; intros x; cbn [eat_all].
  - now exists x.
  - destruct (eat_one pats (x +:+ String c y)) as [r|] eqn:E; [|now exists x].
    destruct (eat_one_before _ _ _ _ _ Hp E) as [x' ->]. apply IH.
Qed.

Lemma solid_lacks (c : ascii) :
  solid c = true ->
  Forall (lacks c) whitespace /\ Forall (lacks c) (map rev whitespace).
Proof.
  unfold solid. rewrite forallb_app. intros H.
  apply andb_true_iff in H. destruct H as [H1 H2].
  split; apply List.Forall_forall; intros p Hp.
  - rewrite forallb_forall in H1. specialize (H1 p Hp).
    now apply negb_true_iff in H1.
  - rewrite forallb_forall in H2. specialize (H2 p Hp).
    now apply negb_true_iff in H2.
Qed.

(** [strip] keeps everything between two solid characters. *)
Lemma strip_between (a x b : string) (c1 c2 : ascii) :
  solid c1 = true -> solid c2 = true ->
  exists a' b',
    strip (a +:+ String c1 (x +:+ String c2 b))
    = a' +:+ String c1 (x +:+ String c2 b').
Proof.
  intros H1 H2. destruct (solid_lacks _ H1) as [L1 _].
  destruct (solid_lacks _ H2) as [_ R2].
  unfold strip, lstrip.
  destruct (eat_all_before
              (String.length (a +:+ String c1 (x +:+ String c2 b)))
              whitespace a (x +:+ String c2 b) c1 L1) as [a' ->].
  exists a'. unfold rstrip.
  set (n := String.length (a' +:+ String c1 (x +:+ String c2 b))).
  assert (E : rev (a' +:+ String c1 (x +:+ String c2 b))
              = rev b +:+ String c2 (rev (a' +:+ String c1 x))).
  { rewrite <- append_cons, <- append_assoc, rev_append, rev_cons.
    rewrite append_assoc. reflexivity. }
  rewrite E.
  destruct (eat_all_before n (map rev whitespace) (rev b)
              (rev (a' +:+ String c1 x)) c2 R2) as [r ->].
  exists (rev r).
  rewrite rev_append, rev_cons, rev_involutive.
  rewrite !append_assoc. push_append. reflexivity.
Qed.

End StripFacts.

(** ** Context threading (claim C5) *)

Module Threading.
Import PyStr PyStrFacts Notions StripFacts TraceFacts Orchestrator.

Lemma in_order_prefix (l : list string) (p s : string) :
  in_order l s -> in_order l (p +:+ s).
Proof.
  destruct 1 as [s|x xs pre rest Hr]; [constructor|].
  rewrite <- append_assoc. now constructor.
Qed.

Lemma in_order_suffix (l : list string) (s t : string) :
  in_order l s -> in_order l (s +:+ t).
Proof.
  induction 1 as [s|x xs pre rest Hr IH]; [constructor|].
  rewrite !append_assoc. now constructor.
Qed.

Lemma in_order_app (l1 l2 : list string) (s1 s2 : string) :
  in_order l1 s1 -> in_order l2 s2 -> in_order (l1 ++ l2) (s1 +:+ s2).
Proof.
  induction 1 as [s|x xs pre rest Hr IH]; intros H2; cbn [app].
  - now apply in_order_prefix.
  - rewrite !append_assoc. constructor. now apply IH.
Qed.

Lemma in_order_one (x : string) : in_order [x] x.
Proof.
  rewrite <- (append_empty_r x) at 2.
  change (in_order [x] (EmptyString +:+ x +:+ EmptyString)).
  constructor. constructor.
Qed.

Lemma join_two (sep x y : string) (l : list string) :
  join sep (x :: y :: l) = x +:+ sep +:+ join sep (y :: l).
Proof. reflexivity. Qed.

Lemma in_order_here (x : string) (xs : list string) (rest : string) :
  in_order xs rest -> in_order (x :: xs) (x +:+ rest).
Proof.
  intros Hr. change (in_order (x :: xs) (EmptyString +:+ x +:+ rest)).
  now constructor.
Qed.

(** The blocks of the context hold the answers in order. *)
Lemma in_order_history_blocks (history : list string) (i : nat) :
  in_order history (join (nl +:+ nl) (history_blocks i history)).
Proof.
  revert i. induction history as [|ans rest IH]; intros i; [constructor|].
  cbn [history_blocks]. destruct rest as [|ans' rest].
  - cbn [history_blocks join]. do 4 apply in_order_prefix. apply in_order_one.
  - specialize (IH (S i)). cbn [history_blocks] in IH |- *.
    rewrite join_two. rewrite !append_assoc.
    do 4 apply in_order_prefix. apply in_order_here.
    do 2 apply in_order_prefix. exact IH.
Qed.

(** The augmented sub-question holds every answer of the history, in
    order, and then the question itself. *)
Lemma in_order_augment (subq : string) (history : list string) :
  in_order (history ++ [subq])%list (_augment subq history).
Proof.
  unfold _augment. destruct history as [|a h].
  - apply in_order_one.
  - set (hs := a :: h). rewrite !append_assoc.
    do 4 apply in_order_prefix.
    apply in_order_app; [apply in_order_history_blocks|].
    do 4 apply in_order_prefix. apply in_order_one.
Qed.

(** The prompt of a step holds its augmented sub-question, whole. *)
Lemma enhanced_prompt_holds (dataset cloud subq : string) :
  exists pre post, enhanced_prompt dataset cloud subq = pre +:+ subq +:+ post.
Proof.
  unfold enhanced_prompt.
  match goal with
  | |- context [strip (?l0 +:+ dataset +:+ ?l1 +:+ upper cloud +:+ ?l2
                       +:+ subq +:+ ?l3 +:+ dataset)] =>
      let a := eval vm_compute in (take 9 l0) in
      let x0 := eval vm_compute in (drop 10 l0) in
      let n3 := eval vm_compute in (String.length l3 - 2)%nat in
      let l3a := eval vm_compute in (take n3 l3) in
      assert (E : l0 +:+ dataset +:+ l1 +:+ upper cloud +:+ l2
                  +:+ subq +:+ l3 +:+ dataset
                  = a +:+ String "Y"
                      ((x0 +:+ (dataset +:+ l1 +:+ upper cloud +:+ l2)
                           +:+ subq +:+ l3a)
                       +:+ String ":" (" " +:+ dataset)))
        by (rewrite ?append_assoc; reflexivity);
      rewrite E;
      destruct (strip_between a
                  (x0 +:+ (dataset +:+ l1 +:+ upper cloud +:+ l2) +:+ subq +:+ l3a)
                  (" " +:+ dataset) "Y" ":" eq_refl eq_refl) as (a' & b' & ->);
      exists (a' +:+ String "Y" (x0 +:+ (dataset +:+ l1 +:+ upper cloud +:+ l2))),
             (l3a +:+ String ":" b')
  end.
  clear E.
  repeat (progress (rewrite ?append_assoc, ?append_cons, ?append_nil)).
  reflexivity.
Qed.

Lemma bind_Ok {A B} (m : M A) (k : A -> M B) (w w1 : World) (a : A) :
  m w = (Ok a, w1) -> bind m k w = k a w1.
Proof. intros Hm. unfold bind. now rewrite Hm. Qed.

Lemma begins_log_bind {A} (e : Event) (k : unit -> M A) :
  (forall u, emits (fun _ => True) (k u)) -> begins e (bind (log e) k).
Proof.
  intros Hk w. unfold bind, log.
  destruct (Hk tt (logged w [e])) as (evs & Ht & _).
  exists evs. unfold logged in Ht. cbn [trace] in Ht.
  rewrite Ht, <- app_assoc. reflexivity.
Qed.

Lemma begins_bind {A B} (e : Event) (m : M A) (k : A -> M B) :
  begins e m -> (forall a, emits (fun _ => True) (k a)) -> begins e (bind m k).
Proof.
  intros Hm Hk w. unfold bind. destruct (Hm w) as (evs & Ht).
  destruct (m w) as [[a|x] w1]; cbn [snd] in *.
  - destruct (Hk a w1) as (evs' & Ht' & _).
    exists (evs ++ evs')%list. rewrite Ht', Ht, <- app_assoc. reflexivity.
  - now exists evs.
Qed.

Lemma emits_anything {A} (names : list string) (m : M A) :
  emits (calls_of names) m -> emits (fun _ => True) m.
Proof. apply emits_weaken. trivial. Qed.

Section WithCollaborators.
Context `{Collaborators}.

(** A per-source client first records the question it was sent. *)
Lemma begins_s3_answer (q : string) (t : option string) :
  begins (Called "s3.answer" [q; fmt t]) (s3_answer q t).
Proof.
  unfold s3_answer, ClientS3.answer. apply begins_log_bind. intros _.
  apply (emits_anything every_call).
  unfold ClientS3._auto_prescan, ClientS3._collect_docs. emits_all.
Qed.

Lemma begins_az_answer (q : string) (t : option string) :
  begins (Called "azure.answer" [q; fmt t]) (az_answer q t).
Proof.
  unfold az_answer, ClientAzure.answer. apply begins_log_bind. intros _.
  apply (emits_anything every_call).
  unfold ClientAzure._collect_docs, ClientAzure._prescan. emits_all.
Qed.

Lemma begins_execute_step (step : Step) (cloud dataset : string)
    (results : list (string * string)) (history : list string) :
  usable (step_cloud step) = Some cloud ->
  usable (step_dataset step) = Some dataset ->
  begins (Called (client_of cloud)
            [enhanced_prompt dataset cloud
               (_augment (step_sub_question step) history); dataset])
         (execute_step step (results, history)).
Proof.
  intros Hc Hd. unfold execute_step, client_of. rewrite Hc, Hd.
  apply begins_bind; [|intros; apply emits_ret].
  destruct (String.eqb (lower cloud) "s3").
  - apply (begins_s3_answer _ (Some dataset)).
  - apply (begins_az_answer _ (Some dataset)).
Qed.

Lemma execute_steps_app (l1 l2 : list Step)
    (st : list (string * string) * list string) (w : World) :
  execute_steps (l1 ++ l2) st w = bind (execute_steps l1 st) (execute_steps l2) w.
Proof.
  revert st w. induction l1 as [|s l1 IH]; intros st w; cbn [app execute_steps].
  - reflexivity.
  - unfold bind.
    destruct (execute_step s st w) as [[st'|e] w']; [|reflexivity].
    rewrite IH. reflexivity.
Qed.

(** One turn of the loop adds one result entry, and the answer to the
    history when the step was dispatched. *)
Lemma execute_step_Ok (step : Step) (results results' : list (string * string))
    (history history' : list string) (w w1 : World) :
  execute_step step (results, history) w = (Ok (results', history'), w1) ->
  exists r, results' = (results ++ [r])%list
            /\ history' = (history ++ if dispatched step then [snd r] else [])%list.
Proof.
  unfold execute_step, dispatched.
  destruct (usable (step_cloud step)) as [cloud|];
    [destruct (usable (step_dataset step)) as [dataset|]|].
  - unfold bind.
    match goal with
    | |- match ?x with _ => _ end = _ -> _ => destruct x as [[out|e] w']
    end; [|discriminate].
    intros [= <- <- <-]. now exists (cloud, out).
  - intros [= <- <- <-]. eexists. split; [reflexivity|]. now rewrite app_nil_r.
  - intros [= <- <- <-]. eexists. split; [reflexivity|]. now rewrite app_nil_r.
Qed.

Lemma answers_of_snoc (steps : list Step) (step : Step)
    (rs : list (string * string)) (r : string * string) :
  length rs = length steps ->
  answers_of (steps ++ [step]) (rs ++ [r])
  = (answers_of steps rs ++ if dispatched step then [snd r] else [])%list.
Proof.
  revert rs. induction steps as [|s steps IH]; intros [|r0 rs] Hl;
    try discriminate; cbn [app answers_of].
  - destruct (dispatched step); reflexivity.
  - injection Hl as Hl. rewrite (IH rs Hl).
    destruct (dispatched s); reflexivity.
Qed.

(** After the steps [before], the history is the list of the answers of
    those among them that were dispatched. *)
Lemma execute_steps_history (before : list Step) :
  forall (results : list (string * string)) (history : list string)
         (w w1 : World),
  execute_steps before ([], []) w = (Ok (results, history), w1) ->
  length results = length before /\ history = answers_of before results.
Proof.
  induction before as [|step before IH] using rev_ind; intros results history w w1.
  - intros [= <- <- <-]. split; reflexivity.
  - rewrite execute_steps_app. unfold bind.
    destruct (execute_steps before ([], []) w) as [[[rs hs]|e] w'] eqn:E;
      [|discriminate].
    destruct (IH _ _ _ _ E) as [Hl ->].
    cbn [execute_steps]. unfold bind.
    destruct (execute_step step (rs, answers_of before rs) w')
      as [[[rs' hs']|e] w''] eqn:E2; [|discriminate].
    intros [= <- <- <-].
    destruct (execute_step_Ok _ _ _ _ _ _ _ E2) as (r & -> & ->).
    split.
    + rewrite !length_app. cbn. lia.
    + now rewrite answers_of_snoc.
Qed.


End WithCollaborators.


End Threading.

(** ** The empty plan and the plan of one step (claims C6, C7) *)

Module Plans.
Import PyStr PyStrFacts Notions TraceFacts Threading Orchestrator.

Lemma scan_and_plan_are_quiet (e : Event) :
  calls_of ["scan_object"; "_plan"] e -> quiet e.
Proof.
  destruct e as [| | |f args|]; cbn; trivial.
  intros [<- | [<- | []]]; repeat split; discriminate.
Qed.

Lemma clients_do_not_merge (e : Event) :
  calls_of ["scan_object"; "s3.answer"; "azure.answer"] e ->
  forall args, e <> Called "_merge_step" args.
Proof.
  destruct e as [| | |f a|]; cbn; try discriminate.
  intros [<- | [<- | [<- | []]]] args; discriminate.
Qed.

Section WithCollaborators.
Context `{Collaborators}.

(** C6. Whenever discovery and planning end with a plan that has no step
    (the planner answered with an empty [steps] array, or with none), the
    orchestrator returns the fixed message, nothing at all happens once
    the plan is printed, and nothing that happened before was the
    dispatch of a step to a per-source client or a merge call. *)
Theorem empty_plan_short_circuit (question : string)
    (plan : option (list Step)) (w w1 : World) :
  discover_and_plan question w = (Ok plan, w1) ->
  steps_of plan = [] ->
  answer question w = (Ok no_plan, w1) /\ since w w1 quiet.
Proof.
  intros Hplan Hsteps. split.
  - unfold answer. rewrite (bind_Ok _ _ _ _ _ Hplan).
    unfold conclude. now rewrite Hsteps.
  - destruct (emits_discover_and_plan ["scan_object"; "_plan"]
                ltac:(simpl; tauto) question ltac:(simpl; tauto) w)
      as (evs & Ht & Hf).
    rewrite Hplan in Ht. exists evs. split; [exact Ht|].
    eapply List.Forall_impl; [|exact Hf]. apply scan_and_plan_are_quiet.
Qed.

(** C7. Whenever discovery and planning end with a plan of exactly one
    step, the orchestrator's outcome is the outcome of that step alone: for
    a step that names a source and a dataset, the answer of the one call
    to its per-source client, as it is, in the world that call leaves; for
    a step that names none, the text of its error entry.  No event since
    the plan is a merge call. *)
Theorem single_step_fast_path (question : string) (step : Step)
    (w w1 : World) :
  discover_and_plan question w = (Ok (Some [step]), w1) ->
  (forall cloud dataset,
     usable (step_cloud step) = Some cloud ->
     usable (step_dataset step) = Some dataset ->
     answer question w
     = (if String.eqb (lower cloud) "s3" then s3_answer else az_answer)
         (enhanced_prompt dataset cloud (step_sub_question step))
         (Some dataset) w1)
  /\ (dispatched step = false ->
      answer question w
      = (Ok ("⚠️ Skipped step: missing cloud or dataset." +:+ nl
             +:+ step_sub_question step), w1))
  /\ since w1 (snd (answer question w))
       (fun e => forall args, e <> Called "_merge_step" args).
Proof.
  intros Hplan.
  assert (Hrun : answer question w
                 = bind (execute_step step ([], []))
                     (fun st => match fst st with
                                | [only] => ret (snd only)
                                | [] => raise (IndexError "list index out of range")
                                | first :: rest =>
                                    bind (print (nl +:+ "⚙️ Execution Results:"))
                                      (fun _ =>
                                         bind (print_results 0 (fst st))
                                           (fun _ =>
                                              merge_rest question rest
                                                (snd first) (fst first)))
                                end) w1).
  { unfold answer. rewrite (bind_Ok _ _ _ _ _ Hplan).
    unfold conclude, _execute_plan, steps_of. cbn [execute_steps].
    unfold bind. destruct (execute_step step ([], []) w1) as [[st|e] w2];
      reflexivity. }
  split; [|split].
  - intros cloud dataset Hc Hd. rewrite Hrun.
    unfold execute_step. rewrite Hc, Hd. cbn [_augment]. unfold bind.
    destruct (String.eqb (lower cloud) "s3").
    + destruct (s3_answer (enhanced_prompt dataset cloud (step_sub_question step))
                  (Some dataset) w1) as [[out|e] w2]; reflexivity.
    + destruct (az_answer (enhanced_prompt dataset cloud (step_sub_question step))
                  (Some dataset) w1) as [[out|e] w2]; reflexivity.
  - intros Hd. rewrite Hrun. unfold execute_step, dispatched in *.
    destruct (usable (step_cloud step));
      [destruct (usable (step_dataset step)); [discriminate|]|]; reflexivity.
  - rewrite Hrun. unfold bind.
    destruct (emits_execute_step ["scan_object"; "s3.answer"; "azure.answer"]
                ltac:(simpl; tauto) ltac:(simpl; tauto) ltac:(simpl; tauto)
                step ([], []) w1) as (evs & Ht & Hf).
    destruct (execute_step step ([], []) w1) as [[[results history]|e] w2] eqn:E;
      cbn [snd] in Ht.
    + destruct (execute_step_Ok _ _ _ _ _ _ _ E) as (r & -> & _).
      cbn [fst app snd ret]. exists evs. split; [exact Ht|].
      eapply List.Forall_impl; [|exact Hf]. apply clients_do_not_merge.
    + cbn [snd]. exists evs. split; [exact Ht|].
      eapply List.Forall_impl; [|exact Hf]. apply clients_do_not_merge.
Qed.

End WithCollaborators.

Lemma empty_plan_short_circuit_witness :
  @answer Samples.online "which orders?" Samples.stocked
  = (Ok no_plan, snd (@discover_and_plan Samples.online "which orders?" Samples.stocked))
  /\ since Samples.stocked
       (snd (@discover_and_plan Samples.online "which orders?" Samples.stocked))
       quiet.
Proof.
  apply (@empty_plan_short_circuit Samples.online "which orders?" (Some [])
           Samples.stocked).
  - vm_compute. reflexivity.
  - reflexivity.
Defined.

Lemma single_step_fast_path_witness :
  fst (@answer Samples.planned "which orders?" Samples.stocked) = Ok "order 7"
  /\ since (snd (@discover_and_plan Samples.planned "which orders?" Samples.stocked))
       (snd (@answer Samples.planned "which orders?" Samples.stocked))
       (fun e => forall args, e <> Called "_merge_step" args).
Proof.
  pose proof (@single_step_fast_path Samples.planned "which orders?"
                Samples.ask_orders Samples.stocked
                (snd (@discover_and_plan Samples.planned "which orders?" Samples.stocked))
                ltac:(vm_compute; reflexivity)) as (Hrun & _ & Hquiet).
  split; [|exact Hquiet].
  rewrite (Hrun "s3" "orders.csv" eq_refl eq_refl). vm_compute. reflexivity.
Defined.

End Plans.
(** ** A record that exists is not scanned again (claim C8) *)

Module Idempotence.
Import PyStr PyStrFacts.
Export Sidecars.

Lemma since_refl (w : World) (P : Event -> Prop) : since w w P.
Proof. exists []. split; [now rewrite app_nil_r | constructor]. Qed.

Lemma since_trans (w0 w1 w2 : World) (P : Event -> Prop) :
  since w0 w1 P -> since w1 w2 P -> since w0 w2 P.
Proof.
  intros (e1 & H1 & F1) (e2 & H2 & F2). exists (e1 ++ e2)%list. split.
  - now rewrite H2, H1, app_assoc.
  - now apply Forall_app.
Qed.

Lemma append_inj_r (a b s : string) : a +:+ s = b +:+ s -> a = b.
Proof.
  revert b. induction a as [|x a IH]; intros [|y b] E; push_append.
  - reflexivity.
  - apply (f_equal String.length) in E. cbn in E. rewrite length_append in E. lia.
  - apply (f_equal String.length) in E. cbn in E. rewrite length_append in E. lia.
  - injection E as -> E. f_equal. now apply IH.
Qed.

Lemma calls_of_none_unscanned (full : string) (e : Event) :
  calls_of [] e -> unscanned full e.
Proof. destruct e; cbn; intros Hc c; try discriminate. destruct Hc. Qed.

Section WithCollaborators.
Context `{Collaborators}.
Variables (full : string) (ts : datetime).

Lemma steady_same (w w' : World) :
  (forall key, stored_text w' key = stored_text w key) ->
  steady full ts w -> steady full ts w'.
Proof.
  intros Hs [Hk (m & Hm & Ht)]. split.
  - intros p r. unfold stored_meta. rewrite Hs. apply Hk.
  - exists m. split; [|exact Ht]. revert Hm. unfold stored_meta. now rewrite Hs.
Qed.

Lemma keeps_ret {A} (a : A) : keeps full ts (ret a).
Proof. intros w J. split; [exact J | apply since_refl]. Qed.

Lemma keeps_raise {A} (e : Exception) : keeps full ts (@raise A e).
Proof. intros w J. split; [exact J | apply since_refl]. Qed.

Lemma keeps_lift {A} (r : Res A) : keeps full ts (lift r).
Proof. intros w J. split; [exact J | apply since_refl]. Qed.

Lemma keeps_world : keeps full ts world.
Proof. intros w J. split; [exact J | apply since_refl]. Qed.

Lemma keeps_log (e : Event) : unscanned full e -> keeps full ts (log e).
Proof.
  intros He w J. split.
  - revert J. apply steady_same. reflexivity.
  - exists [e]. split; [reflexivity | now constructor].
Qed.

Lemma keeps_bind {A B} (m : M A) (k : A -> M B) :
  keeps full ts m -> (forall a, keeps full ts (k a)) -> keeps full ts (bind m k).
Proof.
  intros Hm Hk w J. unfold bind. destruct (Hm w J) as [J1 S1].
  destruct (m w) as [[a|e] w1]; cbn [snd] in *.
  - destruct (Hk a w1 J1) as [J2 S2]. split; [exact J2|].
    eapply since_trans; eassumption.
  - now split.
Qed.

Lemma keeps_try {A} (m : M A) (h : Exception -> M A) :
  keeps full ts m -> (forall e, keeps full ts (h e)) ->
  keeps full ts (try_except m h).
Proof.
  intros Hm Hh w J. unfold try_except. destruct (Hm w J) as [J1 S1].
  destruct (m w) as [[a|e] w1]; cbn [snd] in *.
  - now split.
  - destruct (Hh e w1 J1) as [J2 S2]. split; [exact J2|].
    eapply since_trans; eassumption.
Qed.

Lemma keeps_for_each {A} (l : list A) (body : A -> M unit) :
  (forall x, keeps full ts (body x)) -> keeps full ts (for_each l body).
Proof.
  intros Hb. induction l as [|x l IH]; cbn [for_each].
  - apply keeps_ret.
  - apply keeps_bind; [apply Hb | intros _; exact IH].
Qed.

End WithCollaborators.

Create HintDb keeps.

#[export] Hint Extern 1 (unscanned _ _) => intros ? ?; discriminate : keeps.
#[export] Hint Extern 2 (unscanned _ _) =>
  let E := fresh in intros ? E; injection E; congruence : keeps.

(** One step through the structure of a computation. *)
Ltac keeps_step :=
  lazymatch goal with
  | |- keeps _ _ (bind _ _) => apply keeps_bind; [|intros]
  | |- keeps _ _ (try_except _ _) => apply keeps_try; [|intros]
  | |- keeps _ _ (ret _) => apply keeps_ret
  | |- keeps _ _ (raise _) => apply keeps_raise
  | |- keeps _ _ (lift _) => apply keeps_lift
  | |- keeps _ _ world => apply keeps_world
  | |- keeps _ _ (log _) => apply keeps_log; solve [auto with keeps]
  | |- keeps _ _ (print _) => apply keeps_log; solve [auto with keeps]
  | |- keeps _ _ (for_each _ _) => apply keeps_for_each; intros
  | |- keeps _ _ (match ?x with _ => _ end) => destruct x
  | |- keeps _ _ _ => solve [auto with keeps]
  end.

Ltac keeps_all := repeat keeps_step.

Section Reading.
Context `{Collaborators}.
Variables (full : string) (ts : datetime).

Import Scanner.

Lemma keeps_s3_get_object b k r : keeps full ts (s3_get_object b k r).
Proof. unfold s3_get_object. keeps_all. Qed.

Lemma keeps_s3_head_object b k : keeps full ts (s3_head_object b k).
Proof. unfold s3_head_object. keeps_all. Qed.

Lemma keeps_s3_list_keys b p : keeps full ts (s3_list_keys b p).
Proof. unfold s3_list_keys. keeps_all. Qed.

Lemma keeps_download_blob c r : keeps full ts (download_blob c r).
Proof. unfold download_blob. keeps_all. Qed.

Lemma keeps_get_blob_properties c : keeps full ts (get_blob_properties c).
Proof. unfold get_blob_properties. keeps_all. Qed.

Lemma keeps_list_blobs c p : keeps full ts (list_blobs c p).
Proof. unfold list_blobs. keeps_all. Qed.

Lemma keeps_read_bytes n : keeps full ts (read_bytes n).
Proof. unfold read_bytes. keeps_all. Qed.

Hint Resolve keeps_s3_get_object keeps_s3_head_object keeps_s3_list_keys
  keeps_download_blob keeps_get_blob_properties keeps_list_blobs
  keeps_read_bytes : keeps.

Lemma keeps__load k : keeps full ts (_load k).
Proof. unfold _load. keeps_all. Qed.

Hint Resolve keeps__load : keeps.

Lemma keeps_get_meta p c : keeps full ts (get_meta p c).
Proof. unfold get_meta. keeps_all. Qed.

Lemma keeps_create_message m p : keeps full ts (create_message m p).
Proof. unfold create_message. keeps_all. Qed.

Lemma keeps__download_head p c : keeps full ts (_download_head p c).
Proof. unfold _download_head. keeps_all. Qed.

Hint Resolve keeps_get_meta keeps_create_message keeps__download_head : keeps.

Lemma keeps_properties p c : keeps full ts (properties p c).
Proof. unfold properties. keeps_all. Qed.

End Reading.

#[export] Hint Resolve keeps_s3_get_object keeps_s3_head_object keeps_s3_list_keys
  keeps_download_blob keeps_get_blob_properties keeps_list_blobs
  keeps_read_bytes keeps__load keeps_get_meta keeps_create_message
  keeps__download_head keeps_properties : keeps.

Section Writing.
Context `{Collaborators}.
Variables (full : string) (ts : datetime).

Import Scanner.
Import RoundTrip.

(** What [_save] changes: nothing that [_load] reads in test mode, else
    the text under its key alone. *)
Lemma _save_stores (key data cloud : string) (w : World) :
  since w (snd (_save key data cloud w)) (calls_of [])
  /\ forall key',
       stored_text (snd (_save key data cloud w)) key' = stored_text w key'
       \/ (key' = key
           /\ stored_text (snd (_save key data cloud w)) key' = Some data).
Proof.
  unfold _save. destruct (split_once "/" key) as [[c b]|] eqn:Ek.
  2:{ split; [apply since_refl | now left]. }
  pose proof (split_once_Some _ _ _ _ Ek) as Hkey.
  assert (Hc : get_blob_client (c +:+ "/" +:+ b) = (Some c, b)).
  { unfold get_blob_client. now rewrite <- Hkey, Ek. }
  rewrite Hc.
  destruct (_is_s3_bucket c) eqn:Es3; (split;
    [exists [Network (if _is_s3_bucket c then "s3" else "azure")
               (if _is_s3_bucket c then "put_object" else "upload_blob") c b];
     rewrite Es3; split; [reflexivity | repeat constructor]|]).
  - intros key'. unfold stored_text. destruct TEST_MODE; [now left|].
    destruct (split_once "/" key') as [[c' b']|] eqn:Ek'; [|now left].
    destruct (_is_s3_bucket c') eqn:Es3'; [|now left].
    cbn. destruct (decide ((c, b) = (c', b'))) as [E|N].
    + injection E as <- <-. right. split.
      * now rewrite Hkey, (split_once_Some _ _ _ _ Ek').
      * now rewrite lookup_insert_eq.
    + left. now rewrite lookup_insert_ne.
  - intros key'. unfold stored_text. destruct TEST_MODE; [now left|].
    destruct (split_once "/" key') as [[c' b']|] eqn:Ek'; [|now left].
    destruct (_is_s3_bucket c') eqn:Es3'; [now left|].
    cbn. destruct (decide ((c, b) = (c', b'))) as [E|N].
    + injection E as <- <-. right. split.
      * now rewrite Hkey, (split_once_Some _ _ _ _ Ek').
      * now rewrite lookup_insert_eq.
    + left. now rewrite lookup_insert_ne.
Qed.

(** The record read back has the path of the record written. *)
Lemma from_json_to_json_path (meta m : FileMeta) :
  from_json (to_json meta) = Some m -> path m = path meta.
Proof.
  rewrite from_json_to_json_gen. intros E.
  destruct (strptime (strftime (last_scanned meta))); [|discriminate].
  now injection E as <-.
Qed.

(** A record that was read is read back as it is written, with any
    description. *)
Lemma from_json_rewritten (raw desc : string) (m : FileMeta) :
  from_json raw = Some m ->
  from_json (to_json (set_description m desc)) = Some (set_description m desc).
Proof.
  intros E. destruct (from_json_fixed _ _ E) as [Hv Hs].
  rewrite from_json_to_json_gen. cbn [set_description last_scanned path cloud
    title description mime_type size].
  rewrite (strptime_strftime _ Hv). unfold set_description. do 2 f_equal.
  unfold stored in Hs. now apply (f_equal last_scanned) in Hs.
Qed.

(** [write_meta] of a record for another path, or of one for [full] that is
    read back with the time [ts]. *)
Lemma keeps_write_meta (meta : FileMeta) (cloud : option string) :
  (path meta = full ->
   exists m, from_json (to_json meta) = Some m /\ last_scanned m = ts) ->
  keeps full ts (write_meta meta cloud).
Proof.
  intros Hfull w [Hk (m0 & Hm0 & Ht0)]. unfold write_meta.
  match goal with
  | |- context [_save ?k ?d ?c w] =>
      destruct (_save_stores k d c w) as [Hs Hst];
      set (w' := snd (_save k d c w)) in *
  end.
  assert (Hcase : forall p, stored_meta w' p = stored_meta w p
                            \/ (p = path meta
                                /\ stored_meta w' p = from_json (to_json meta))).
  { intros p. unfold stored_meta.
    destruct (Hst (p +:+ SUFFIX)) as [-> | [Ep ->]]; [now left|].
    right. split; [|reflexivity]. now apply append_inj_r in Ep. }
  split; [split|].
  - intros p m. destruct (Hcase p) as [-> | [-> ->]]; [apply Hk|].
    apply from_json_to_json_path.
  - destruct (Hcase full) as [-> | [Ep ->]]; [now exists m0|].
    now apply Hfull.
  - destruct Hs as (evs & Ht & Hf). exists evs. split; [exact Ht|].
    eapply List.Forall_impl; [|exact Hf]. apply calls_of_none_unscanned.
Qed.

(** What [_load] returns. *)
Lemma _load_reads (key : string) (w : World) :
  exists evs e,
    Forall (calls_of []) evs
    /\ _load key w
       = (match stored_text w key with Some d => Ok d | None => Raise e end,
          logged w evs).
Proof.
  unfold _load, stored_text. destruct TEST_MODE.
  - unfold read_bytes, bind, log, world. cbn.
    exists [LocalFile "read_bytes" (replace "/" "__" key)],
           (FileNotFoundError (replace "/" "__" key)).
    split; [repeat constructor|].
    now destruct (local_files w !! replace "/" "__" key).
  - destruct (split_once "/" key) as [[c b]|] eqn:Ek.
    2:{ exists [], (ValueError ("Invalid key format: " +:+ key)).
        split; [constructor|]. unfold raise, logged. rewrite app_nil_r.
        now destruct w. }
    assert (Hc : get_blob_client (c +:+ "/" +:+ b) = (Some c, b)).
    { unfold get_blob_client.
      now rewrite <- (split_once_Some _ _ _ _ Ek), Ek. }
    rewrite Hc. destruct (_is_s3_bucket c).
    + unfold s3_get_object, bind, log, world. cbn.
      exists [Network "s3" "get_object" c b], (BackendError "s3" "NoSuchKey").
      split; [repeat constructor|].
      now destruct (s3_objects w !! (c, b)).
    + unfold download_blob, bind, log, world. cbn.
      exists [Network "azure" "download_blob" c b],
             (BackendError "azure" "BlobNotFound").
      split; [repeat constructor|].
      now destruct (azure_blobs w !! (c, b)).
Qed.

(** [get_meta] returns the stored record, and changes the trace alone. *)
Lemma get_meta_reads (p cloud : string) (w : World) :
  exists evs,
    Forall (calls_of []) evs
    /\ get_meta p cloud w = (Ok (stored_meta w p), logged w evs).
Proof.
  destruct (_load_reads (p +:+ SUFFIX) w) as (evs & e & Hf & E).
  exists evs. split; [exact Hf|].
  unfold get_meta, try_except, bind, stored_meta. rewrite E.
  destruct (stored_text w (p +:+ SUFFIX)) as [raw|]; [|reflexivity].
  now destruct (from_json raw).
Qed.

(** What follows [get_meta] may rely on what it found. *)
Lemma keeps_after_get_meta {A} (p cloud : string)
    (k : option FileMeta -> M A) :
  (forall m raw, from_json raw = Some m -> path m = p ->
                 (p = full -> last_scanned m = ts) ->
                 keeps full ts (k (Some m))) ->
  (p <> full -> keeps full ts (k None)) ->
  keeps full ts (bind (get_meta p cloud) k).
Proof.
  intros HS HN w J. destruct (get_meta_reads p cloud w) as (evs & Hf & E).
  unfold bind. rewrite E.
  assert (J1 : steady full ts (logged w evs)).
  { revert J. apply steady_same. reflexivity. }
  assert (S1 : since w (logged w evs) (unscanned full)).
  { exists evs. split; [reflexivity|].
    eapply List.Forall_impl; [|exact Hf]. apply calls_of_none_unscanned. }
  assert (Hk : keeps full ts (k (stored_meta w p))).
  { destruct J as [Hwk (m0 & Hm0 & Ht0)].
    destruct (stored_meta w p) as [m|] eqn:Em.
    - unfold stored_meta in Em.
      destruct (stored_text w (p +:+ SUFFIX)) as [raw|] eqn:Er; [|discriminate].
      apply (HS m raw Em).
      + apply Hwk. unfold stored_meta. now rewrite Er.
      + intros ->. unfold stored_meta in Hm0. rewrite Er, Em in Hm0.
        now injection Hm0 as ->.
    - apply HN. intros ->. congruence. }
  destruct (Hk _ J1) as [J2 S2]. split; [exact J2|].
  eapply since_trans; eassumption.
Qed.

Lemma keeps_write_other (meta : FileMeta) (cloud : option string) :
  path meta <> full -> keeps full ts (write_meta meta cloud).
Proof. intros Hp. apply keeps_write_meta. intros E. now destruct Hp. Qed.

(** [scan_object] for another path. *)
Lemma keeps_scan_object (p cloud : string) :
  p <> full -> keeps full ts (scan_object p cloud).
Proof.
  intros Hp. unfold scan_object. keeps_all.
  apply keeps_write_other. exact Hp.
Qed.

(** The body of the caching loop: an existing record keeps its time, a new
    one is for a path that had none. *)
Lemma keeps_republish (container : option string) (cloud : string)
    (stamp : list Event -> datetime) (p desc : string) :
  keeps full ts (Client.republish container cloud stamp p desc).
Proof.
  unfold Client.republish. apply keeps_after_get_meta.
  - intros m raw Hraw Hpath Hts. apply keeps_write_meta.
    cbn [set_description path]. intros E.
    exists (set_description m (strip desc)). split.
    + exact (from_json_rewritten raw _ m Hraw).
    + cbn. apply Hts. congruence.
  - intros Hp. keeps_all. now apply keeps_write_other.
Qed.

Lemma keeps_item (l : list string) (i : nat) : keeps full ts (Client.item l i).
Proof. unfold Client.item. keeps_all. Qed.

Hint Resolve keeps_item keeps_republish : keeps.

Lemma keeps_cache_descriptions (container : option string) (cloud : string)
    (stamp : list Event -> datetime) (trim : bool) (raw : string) :
  keeps full ts (Client.cache_descriptions container cloud stamp trim raw).
Proof.
  unfold Client.cache_descriptions, Client.descriptions_chunk. keeps_all.
Qed.

End Writing.

#[export] Hint Resolve keeps_item keeps_republish keeps_cache_descriptions
  : keeps.

(** *** The S3 client *)

Section S3.
Context `{Collaborators}.
Variables (full : string) (ts : datetime).

Import ClientS3.

Lemma keeps_s3__list_meta : keeps full ts _list_meta.
Proof. unfold _list_meta. keeps_all. Qed.

Lemma keeps_s3__read (p : string) (n : nat) : keeps full ts (_read p n).
Proof. unfold _read. keeps_all. Qed.

Hint Resolve keeps_s3__list_meta keeps_s3__read : keeps.

Lemma keeps_s3_collect_doc (meta : Listed) : keeps full ts (collect_doc meta).
Proof. unfold collect_doc. keeps_all. Qed.

Lemma keeps_s3_collect (metas : list Listed) (docs : list Doc) :
  keeps full ts (collect metas docs).
Proof.
  revert docs. induction metas as [|meta metas IH]; intros docs;
    cbn [collect]; keeps_all; apply keeps_s3_collect_doc.
Qed.

(** A path with a record is passed over; one without is not [full]. *)
Lemma keeps_s3_prescan_one (meta : Listed) : keeps full ts (prescan_one meta).
Proof.
  unfold prescan_one. apply keeps_after_get_meta.
  - intros. apply keeps_ret.
  - intros Hp. keeps_all.
    + now apply keeps_write_other.
    + now apply keeps_scan_object.
Qed.

Lemma keeps_s3_answer (question : string) (target_path : option string) :
  keeps full ts (answer question target_path).
Proof.
  unfold answer, _auto_prescan, _collect_docs.
  repeat (keeps_step; try apply keeps_s3_prescan_one;
          try apply keeps_s3_collect).
Qed.

End S3.

(** *** The Azure client *)

Section Azure.
Context `{Collaborators}.
Variables (full : string) (ts : datetime).

Import ClientAzure.

Lemma keeps_az__list_meta : keeps full ts _list_meta.
Proof. unfold _list_meta. keeps_all. Qed.

Lemma keeps_az__read_blob (p : string) (n : nat) :
  keeps full ts (_read_blob p n).
Proof. unfold _read_blob. keeps_all. Qed.

Hint Resolve keeps_az__list_meta keeps_az__read_blob : keeps.

Lemma keeps_az_collect_doc (meta : Listed) : keeps full ts (collect_doc meta).
Proof. unfold collect_doc. keeps_all. Qed.

Lemma keeps_az_collect (metas : list Listed) (docs : list Doc) :
  keeps full ts (collect metas docs).
Proof.
  revert docs. induction metas as [|meta metas IH]; intros docs;
    cbn [collect]; keeps_all; apply keeps_az_collect_doc.
Qed.

Lemma keeps_az_prescan_one (meta : Listed) : keeps full ts (prescan_one meta).
Proof.
  unfold prescan_one. apply keeps_after_get_meta.
  - intros. apply keeps_ret.
  - intros Hp. keeps_all.
    + now apply keeps_write_other.
    + now apply keeps_scan_object.
Qed.

Lemma keeps_az_answer (question : string) (target_path : option string) :
  keeps full ts (answer question target_path).
Proof.
  unfold answer, _collect_docs, _prescan.
  repeat (keeps_step; try apply keeps_az_prescan_one;
          try apply keeps_az_collect).
Qed.

End Azure.


Section Twice.
Context `{Collaborators}.

Lemma keeps_twice {A} (full : string) (m : FileMeta) (w : World)
    (first second : M A) :
  keeps full (last_scanned m) first -> keeps full (last_scanned m) second ->
  well_keyed w -> stored_meta w full = Some m ->
  settled full (last_scanned m) w (snd (second (snd (first w)))).
Proof.
  intros H1 H2 Hk Hm.
  assert (J : steady full (last_scanned m) w) by (split; [exact Hk | now exists m]).
  destruct (H1 w J) as [J1 S1]. destruct (H2 _ J1) as [[_ Hm2] S2].
  split; [exact Hm2 | eapply since_trans; eassumption].
Qed.

(** C8. Take a store in which every record lies under its own path and
    the path [full] has a record [m], whatever its description.  Calling
    the answer routine of a per-source client twice in succession, with
    any questions, any targets and any model, never enters [scan_object]
    for [full], and the record stored for [full] afterwards still has the
    [last_scanned] of [m]; this also when the model rewrites the
    description.  It holds for the S3 client and for the Azure client. *)
Theorem answer_twice_scans_once (full : string) (m : FileMeta)
    (question question' : string) (target target' : option string)
    (w : World) :
  well_keyed w ->
  stored_meta w full = Some m ->
  settled full (last_scanned m) w
    (snd (ClientS3.answer question' target'
            (snd (ClientS3.answer question target w))))
  /\ settled full (last_scanned m) w
       (snd (ClientAzure.answer question' target'
               (snd (ClientAzure.answer question target w)))).
Proof.
  intros Hk Hm. split.
  - apply keeps_twice; auto using keeps_s3_answer.
  - apply keeps_twice; auto using keeps_az_answer.
Qed.

End Twice.

Lemma stocked_well_keyed : @well_keyed Samples.online Samples.stocked.
Proof.
  intros p m. unfold stored_meta, stored_text.
  change (@TEST_MODE Samples.online) with false. cbv iota.
  destruct (split_once "/" (p +:+ SUFFIX)) as [[c b]|] eqn:Ek; [|discriminate].
  pose proof (split_once_Some _ _ _ _ Ek) as Hkey.
  destruct (@_is_s3_bucket Samples.online c).
  2:{ change (azure_blobs Samples.stocked) with (∅ : gmap (string * string) Object).
      rewrite lookup_empty. discriminate. }
  destruct (s3_objects Samples.stocked !! (c, b)) as [o|] eqn:Eo; [|discriminate].
  unfold Samples.stocked in Eo. cbn [s3_objects] in Eo.
  apply lookup_insert_Some in Eo as [[E <-] | [_ Eo]].
  - injection E as <- <-. vm_compute. discriminate.
  - apply lookup_singleton_Some in Eo as [E <-]. injection E as <- <-.
    change ("bkt" +:+ "/" +:+ "orders.csv.meta.json")
      with ("bkt/orders.csv" +:+ SUFFIX) in Hkey.
    apply append_inj_r in Hkey. subst p.
    vm_compute. intros E. now injection E as <-.
Qed.

Lemma answer_twice_scans_once_witness :
  settled (H := Samples.online) "bkt/orders.csv"
    (last_scanned Samples.orders_record) Samples.stocked
    (snd (@ClientS3.answer Samples.online "And the smallest?" None
            (snd (@ClientS3.answer Samples.online "Which order is the largest?"
                    None Samples.stocked))))
  /\ settled (H := Samples.online) "bkt/orders.csv"
       (last_scanned Samples.orders_record) Samples.stocked
       (snd (@ClientAzure.answer Samples.online "And the smallest?" None
               (snd (@ClientAzure.answer Samples.online
                       "Which order is the largest?" None Samples.stocked)))).
Proof.
  apply (@answer_twice_scans_once Samples.online "bkt/orders.csv"
           Samples.orders_record).
  - apply stocked_well_keyed.
  - vm_compute. reflexivity.
Defined.

End Idempotence.
(** ** Everything but side-cars is left alone *)

Module FrameFacts.
Import PyStr PyStrFacts StripFacts.
Export Frames.

Lemma endswith_append (s a : string) : endswith s (a +:+ s) = true.
Proof. unfold endswith. rewrite rev_append. apply startswith_append. Qed.

(** The first occurrence of a one-character separator stays the first
    when text is added at the end. *)
Lemma split_once_append (l : ascii) (s a b t : string) :
  split_once (String l EmptyString) s = Some (a, b) ->
  split_once (String l EmptyString) (s +:+ t) = Some (a, b +:+ t).
Proof.
  revert a b. induction s as [|c s IH]; intros a b.
  - rewrite split_once_unfold. cbn. discriminate.
  - rewrite split_once_unfold. push_append.
    rewrite (split_once_unfold _ (String c (s +:+ t))).
    rewrite !startswith_cons. cbn [startswith String.length drop].
    destruct (Ascii.eqb l c).
    + now intros [= <- <-].
    + destruct (split_once (String l EmptyString) s) as [[a' b']|];
        [|discriminate].
      intros [= <- <-]. now rewrite (IH a' b' eq_refl).
Qed.

Lemma contains_true (sub s : string) :
  contains sub s = true -> exists a b, split_once sub s = Some (a, b).
Proof.
  unfold contains. destruct (split_once sub s) as [[a b]|]; [|discriminate].
  intros _. now exists a, b.
Qed.

(** The name a side-car is stored under ends in the suffix. *)
Lemma sidecar_name (p c b : string) :
  split_once "/" (p +:+ ".meta.json") = Some (c, b) ->
  endswith ".meta.json" b = true.
Proof.
  intros E. destruct (split_once "/" p) as [[c0 b0]|] eqn:Ep.
  - rewrite (split_once_append "/" _ _ _ ".meta.json" Ep) in E.
    injection E as <- <-. apply endswith_append.
  - rewrite (split_once_slash_suffix _ Ep) in E. discriminate.
Qed.

Lemma data_kept_refl (m : gmap (string * string) Object) : data_kept m m.
Proof. intros c b. split; auto. Qed.

Lemma data_kept_trans (m1 m2 m3 : gmap (string * string) Object) :
  data_kept m1 m2 -> data_kept m2 m3 -> data_kept m1 m3.
Proof.
  intros H12 H23 c b. destruct (H12 c b) as [A1 B1], (H23 c b) as [A2 B2].
  split; [intros E; now rewrite A2, A1 | auto].
Qed.

Lemma data_kept_insert (m : gmap (string * string) Object)
    (c b : string) (o : Object) :
  endswith ".meta.json" b = true -> data_kept m (<[(c, b) := o]> m).
Proof.
  intros Hb c' b'. destruct (decide ((c, b) = (c', b'))) as [E|N].
  - injection E as <- <-. rewrite lookup_insert_eq. split; [congruence | eauto].
  - rewrite lookup_insert_ne by exact N. split; auto.
Qed.

Lemma untouched_refl (w : World) : untouched w w.
Proof. repeat split; auto using data_kept_refl. Qed.

Lemma untouched_trans (a b c : World) :
  untouched a b -> untouched b c -> untouched a c.
Proof.
  intros (L1 & S1 & A1) (L2 & S2 & A2). split; [congruence|].
  split; eapply data_kept_trans; eassumption.
Qed.

Lemma unwritten_refl (w : World) : unwritten w w.
Proof. now repeat split. Qed.

Lemma unwritten_trans (a b c : World) :
  unwritten a b -> unwritten b c -> unwritten a c.
Proof. intros (? & ? & ?) (? & ? & ?). repeat split; congruence. Qed.

(** *** The frame rules *)

Section Rules.
Variable R : World -> World -> Prop.
Hypothesis R_refl : forall w, R w w.
Hypothesis R_trans : forall a b c, R a b -> R b c -> R a c.
Hypothesis R_log : forall e w, R w (snd (log e w)).

Lemma frames_ret {A} (a : A) : frames R (ret a).
Proof. intros w. apply R_refl. Qed.

Lemma frames_raise {A} (e : Exception) : frames R (@raise A e).
Proof. intros w. apply R_refl. Qed.

Lemma frames_lift {A} (r : Res A) : frames R (lift r).
Proof. intros w. apply R_refl. Qed.

Lemma frames_world : frames R world.
Proof. intros w. apply R_refl. Qed.

Lemma frames_log (e : Event) : frames R (log e).
Proof. intros w. apply R_log. Qed.

Lemma frames_bind {A B} (m : M A) (k : A -> M B) :
  frames R m -> (forall a, frames R (k a)) -> frames R (bind m k).
Proof.
  intros Hm Hk w. unfold bind. specialize (Hm w).
  destruct (m w) as [[a|e] w1]; cbn [snd] in *; [|exact Hm].
  eapply R_trans; [exact Hm | apply Hk].
Qed.

Lemma frames_try {A} (m : M A) (h : Exception -> M A) :
  frames R m -> (forall e, frames R (h e)) -> frames R (try_except m h).
Proof.
  intros Hm Hh w. unfold try_except. specialize (Hm w).
  destruct (m w) as [[a|e] w1]; cbn [snd] in *; [exact Hm|].
  eapply R_trans; [exact Hm | apply Hh].
Qed.

Lemma frames_for_each {A} (l : list A) (body : A -> M unit) :
  (forall x, frames R (body x)) -> frames R (for_each l body).
Proof.
  intros Hb. induction l as [|x l IH]; cbn [for_each].
  - apply frames_ret.
  - apply frames_bind; [apply Hb | intros _; exact IH].
Qed.

End Rules.

Create HintDb frames.

(** One step through the structure of a computation. *)
Ltac frames_step :=
  lazymatch goal with
  | |- frames _ (bind _ _) => apply frames_bind; [assumption | |intros]
  | |- frames _ (try_except _ _) => apply frames_try; [assumption | |intros]
  | |- frames _ (ret _) => apply frames_ret; assumption
  | |- frames _ (raise _) => apply frames_raise; assumption
  | |- frames _ (lift _) => apply frames_lift; assumption
  | |- frames _ world => apply frames_world; assumption
  | |- frames _ (log _) => apply frames_log; assumption
  | |- frames _ (print _) => apply frames_log; assumption
  | |- frames _ (for_each _ _) =>
      apply frames_for_each; [assumption | assumption | intros]
  | |- frames _ (match ?x with _ => _ end) => destruct x
  | |- frames _ _ => solve [eauto with frames]
  end.

Ltac frames_all := repeat frames_step.

(** *** The functions, for a relation that [write_meta] respects *)

Section Functions.
Context `{Collaborators}.
Variable R : World -> World -> Prop.
Hypothesis R_refl : forall w, R w w.
Hypothesis R_trans : forall a b c, R a b -> R b c -> R a c.
Hypothesis R_log : forall e w, R w (snd (log e w)).

Import Scanner.

Lemma frames_s3_get_object b k r : frames R (s3_get_object b k r).
Proof. unfold s3_get_object. frames_all. Qed.

Lemma frames_s3_head_object b k : frames R (s3_head_object b k).
Proof. unfold s3_head_object. frames_all. Qed.

Lemma frames_s3_list_keys b p : frames R (s3_list_keys b p).
Proof. unfold s3_list_keys. frames_all. Qed.

Lemma frames_download_blob c r : frames R (download_blob c r).
Proof. unfold download_blob. frames_all. Qed.

Lemma frames_get_blob_properties c : frames R (get_blob_properties c).
Proof. unfold get_blob_properties. frames_all. Qed.

Lemma frames_list_blobs c p : frames R (list_blobs c p).
Proof. unfold list_blobs. frames_all. Qed.

Lemma frames_read_bytes n : frames R (read_bytes n).
Proof. unfold read_bytes. frames_all. Qed.

Lemma frames_glob_sidecars s : frames R (glob_sidecars s).
Proof. unfold glob_sidecars. frames_all. Qed.

Hint Resolve frames_s3_get_object frames_s3_head_object frames_s3_list_keys
  frames_download_blob frames_get_blob_properties frames_list_blobs
  frames_read_bytes frames_glob_sidecars : frames.

Lemma frames__load k : frames R (_load k).
Proof. unfold _load. frames_all. Qed.

Lemma frames__iter_keys p : frames R (_iter_keys p).
Proof. unfold _iter_keys, _iter_s3, _iter_azure. frames_all. Qed.

Hint Resolve frames__load frames__iter_keys : frames.

Lemma frames_get_meta p c : frames R (get_meta p c).
Proof. unfold get_meta. frames_all. Qed.

Lemma frames_read_each ks ms : frames R (read_each ks ms).
Proof.
  revert ms. induction ks as [|k ks IH]; intros ms; cbn [read_each]; frames_all.
Qed.

Hint Resolve frames_get_meta frames_read_each : frames.

Lemma frames_read_all p : frames R (read_all p).
Proof. unfold read_all. frames_all. Qed.

Lemma frames_create_message m p : frames R (create_message m p).
Proof. unfold create_message. frames_all. Qed.

Lemma frames__download_head p c : frames R (_download_head p c).
Proof. unfold _download_head. frames_all. Qed.

Hint Resolve frames_read_all frames_create_message frames__download_head
  : frames.

Lemma frames_properties p c : frames R (properties p c).
Proof. unfold properties. frames_all. Qed.

Lemma frames_item l i : frames R (Client.item l i).
Proof. unfold Client.item. frames_all. Qed.

Hint Resolve frames_properties frames_item : frames.

Hypothesis R_write : forall meta cloud, frames R (write_meta meta cloud).

Hint Resolve R_write : frames.

Lemma frames_scan_object p c : frames R (scan_object p c).
Proof. unfold scan_object. frames_all. Qed.

Lemma frames_republish c cl st p d : frames R (Client.republish c cl st p d).
Proof. unfold Client.republish. frames_all. Qed.

Hint Resolve frames_scan_object frames_republish : frames.

Lemma frames_cache_descriptions c cl st t raw :
  frames R (Client.cache_descriptions c cl st t raw).
Proof.
  unfold Client.cache_descriptions, Client.descriptions_chunk. frames_all.
Qed.

Hint Resolve frames_cache_descriptions : frames.

Lemma frames_s3__list_meta : frames R ClientS3._list_meta.
Proof. unfold ClientS3._list_meta. frames_all. Qed.

Lemma frames_s3__read p n : frames R (ClientS3._read p n).
Proof. unfold ClientS3._read. frames_all. Qed.

Hint Resolve frames_s3__list_meta frames_s3__read : frames.

Lemma frames_s3_collect ms ds : frames R (ClientS3.collect ms ds).
Proof.
  revert ds. induction ms as [|m ms IH]; intros ds; cbn [ClientS3.collect];
    unfold ClientS3.collect_doc; frames_all.
Qed.

Lemma frames_s3_prescan_one m : frames R (ClientS3.prescan_one m).
Proof. unfold ClientS3.prescan_one. frames_all. Qed.

Hint Resolve frames_s3_collect frames_s3_prescan_one : frames.

Lemma frames_s3_answer q t : frames R (ClientS3.answer q t).
Proof.
  unfold ClientS3.answer, ClientS3._auto_prescan, ClientS3._collect_docs.
  frames_all.
Qed.

Lemma frames_az__list_meta : frames R ClientAzure._list_meta.
Proof. unfold ClientAzure._list_meta. frames_all. Qed.

Lemma frames_az__read_blob p n : frames R (ClientAzure._read_blob p n).
Proof. unfold ClientAzure._read_blob. frames_all. Qed.

Hint Resolve frames_az__list_meta frames_az__read_blob : frames.

Lemma frames_az_collect ms ds : frames R (ClientAzure.collect ms ds).
Proof.
  revert ds. induction ms as [|m ms IH]; intros ds; cbn [ClientAzure.collect];
    unfold ClientAzure.collect_doc; frames_all.
Qed.

Lemma frames_az_prescan_one m : frames R (ClientAzure.prescan_one m).
Proof. unfold ClientAzure.prescan_one. frames_all. Qed.

Hint Resolve frames_az_collect frames_az_prescan_one : frames.

Lemma frames_az_answer q t : frames R (ClientAzure.answer q t).
Proof.
  unfold ClientAzure.answer, ClientAzure._collect_docs, ClientAzure._prescan.
  frames_all.
Qed.

Hint Resolve frames_s3_answer frames_az_answer : frames.

Lemma frames_s3__auto_prescan : frames R ClientS3._auto_prescan.
Proof. unfold ClientS3._auto_prescan. frames_all. Qed.

Lemma frames_az__prescan : frames R ClientAzure._prescan.
Proof. unfold ClientAzure._prescan. frames_all. Qed.

Import Orchestrator.

Lemma frames_block_loop ms st : frames R (block_loop ms st).
Proof.
  revert st. induction ms as [|m ms IH]; intros st; cbn [block_loop];
    unfold block_step, list_s3_meta; frames_all.
Qed.

Hint Resolve frames_block_loop : frames.

Lemma frames__build : frames R _build_dataset_and_schema_blocks.
Proof.
  unfold _build_dataset_and_schema_blocks, list_s3_meta, list_az_meta.
  frames_all.
Qed.

Lemma frames_prescan cl c ms : frames R (prescan cl c ms).
Proof. unfold prescan. frames_all. Qed.

Lemma frames__plan q d s ms : frames R (_plan q d s ms).
Proof. unfold _plan. frames_all. Qed.

Hint Resolve frames__build frames_prescan frames__plan : frames.

Lemma frames_discover_and_plan q : frames R (discover_and_plan q).
Proof. unfold discover_and_plan, list_s3_meta, list_az_meta. frames_all. Qed.

Lemma frames_execute_steps steps st : frames R (execute_steps steps st).
Proof.
  revert st. induction steps as [|s steps IH]; intros [results history];
    cbn [execute_steps]; unfold execute_step, s3_answer, az_answer; frames_all.
Qed.

Lemma frames_merge_rest q rest merged prev :
  frames R (merge_rest q rest merged prev).
Proof.
  revert merged prev. induction rest as [|[cloud out] rest IH];
    intros merged prev; cbn [merge_rest]; unfold _merge_step; frames_all.
Qed.

Lemma frames_print_results i results : frames R (print_results i results).
Proof.
  revert i. induction results as [|[cloud out] rest IH]; intros i;
    cbn [print_results]; frames_all.
Qed.

Hint Resolve frames_discover_and_plan frames_execute_steps frames_merge_rest
  frames_print_results : frames.

Lemma frames_answer q : frames R (Orchestrator.answer q).
Proof.
  unfold Orchestrator.answer, conclude, _execute_plan. frames_all.
Qed.

End Functions.

#[export] Hint Resolve frames_s3_get_object frames_s3_head_object
  frames_s3_list_keys frames_download_blob frames_get_blob_properties
  frames_list_blobs frames_read_bytes frames_glob_sidecars frames__load
  frames__iter_keys frames_get_meta frames_read_each frames_read_all
  frames_create_message frames__download_head frames_properties frames_item
  : frames.

End FrameFacts.
(** ** Laws of the side-car store: put, get and what they leave alone *)

Module StoreLaws.
Import PyStr PyStrFacts RoundTrip.
Export Idempotence FrameFacts.

Section WithCollaborators.
Context `{Collaborators}.

(** Outside test mode [_save] succeeds for a key with a slash, and
    [_load] then finds the text under that key. *)
Lemma _save_puts (key data cloud c b : string) (w : World) :
  TEST_MODE = false ->
  split_once "/" key = Some (c, b) ->
  fst (_save key data cloud w) = Ok tt
  /\ stored_text (snd (_save key data cloud w)) key = Some data.
Proof.
  intros Ht Ek. unfold _save, stored_text. rewrite Ht, Ek.
  assert (Hc : get_blob_client (c +:+ "/" +:+ b) = (Some c, b)).
  { unfold get_blob_client. now rewrite <- (split_once_Some _ _ _ _ Ek), Ek. }
  rewrite Hc. destruct (_is_s3_bucket c); cbn; now rewrite lookup_insert_eq.
Qed.

(** [_save] changes the text under no other key. *)
Lemma _save_elsewhere (key key' data cloud : string) (w : World) :
  key' <> key ->
  stored_text (snd (_save key data cloud w)) key' = stored_text w key'.
Proof.
  intros Hne. destruct (_save_stores key data cloud w) as [_ Hst].
  destruct (Hst key') as [E | [E _]]; [exact E | contradiction].
Qed.

Lemma stored_meta_logged (w : World) (evs : list Event) (p : string) :
  stored_meta (logged w evs) p = stored_meta w p.
Proof. reflexivity. Qed.

Lemma key_has_slash (p c b : string) :
  split_once "/" p = Some (c, b) ->
  split_once "/" (p +:+ SUFFIX) = Some (c, b +:+ SUFFIX).
Proof. apply (split_once_append "/"). Qed.

(** What [write_meta] stores, outside test mode, for a path with a
    slash. *)
Lemma write_meta_stores (meta : FileMeta) (cloud : option string) (w : World) :
  TEST_MODE = false ->
  contains "/" (path meta) = true ->
  fst (write_meta meta cloud w) = Ok tt
  /\ stored_meta (snd (write_meta meta cloud w)) (path meta)
     = from_json (to_json meta).
Proof.
  intros Ht Hs. destruct (contains_true _ _ Hs) as (c & b & Ek).
  apply key_has_slash in Ek. unfold write_meta, stored_meta.
  match goal with
  | |- context [_save ?k ?d ?cl w] =>
      destruct (_save_puts k d cl _ _ w Ht Ek) as [Hok Hst]
  end.
  split; [exact Hok|]. now rewrite Hst.
Qed.

Lemma get_meta_result (p tag : string) (w : World) :
  fst (get_meta p tag w) = Ok (stored_meta w p).
Proof. destruct (get_meta_reads p tag w) as (evs & _ & ->). reflexivity. Qed.

Lemma get_meta_stores (p tag : string) (w : World) (q : string) :
  stored_meta (snd (get_meta p tag w)) q = stored_meta w q.
Proof. destruct (get_meta_reads p tag w) as (evs & _ & ->). reflexivity. Qed.


(** Put leaves every other path alone: in every mode, [get_meta] of a path
    other than the record's returns after [write_meta] what it returned
    before. *)
Theorem write_meta_keeps_other_paths (meta : FileMeta)
    (cloud : option string) (p tag : string) (w : World) :
  p <> path meta ->
  fst (get_meta p tag (snd (write_meta meta cloud w)))
  = fst (get_meta p tag w).
Proof.
  intros Hne.
  destruct (get_meta_reads p tag (snd (write_meta meta cloud w)))
    as (evs & _ & ->).
  destruct (get_meta_reads p tag w) as (evs' & _ & ->). cbn [fst].
  unfold stored_meta, write_meta. rewrite _save_elsewhere; [reflexivity|].
  intros E. apply append_inj_r in E. contradiction.
Qed.

(** Get never raises and never writes.  Whatever the path, [get_meta]
    returns normally and leaves buckets, containers and local files as
    they were; and outside test mode a path without a slash gets [None]
    without any call to a storage service (the [ValueError] of [_load] is
    swallowed), where [write_meta] raises. *)
Theorem get_meta_never_raises (p tag : string) (w : World) :
  (exists found, fst (get_meta p tag w) = Ok found)
  /\ s3_objects (snd (get_meta p tag w)) = s3_objects w
  /\ azure_blobs (snd (get_meta p tag w)) = azure_blobs w
  /\ local_files (snd (get_meta p tag w)) = local_files w
  /\ (TEST_MODE = false -> contains "/" p = false ->
      get_meta p tag w = (Ok None, w)).
Proof.
  destruct (get_meta_reads p tag w) as (evs & _ & E).
  rewrite E. cbn [fst snd logged s3_objects azure_blobs local_files].
  split; [now eexists|]. do 3 (split; [reflexivity|]).
  intros Ht Hs. rewrite <- E. unfold get_meta, _load, try_except, bind, SUFFIX.
  rewrite Ht, (split_once_slash_suffix _ (contains_false _ _ Hs)).
  reflexivity.
Qed.

(** How a name is classified: the configured bucket is an S3 bucket; the
    configured container is an Azure container unless it bears the name of
    an S3 bucket. *)
Lemma _is_s3_bucket_configured (name : string) :
  (S3_BUCKET = Some name -> _is_s3_bucket name = true)
  /\ (AZURE_CONTAINER = Some name -> S3_BUCKET <> Some name ->
      name <> "my-api-bucket-100757077" -> _is_s3_bucket name = false).
Proof.
  unfold _is_s3_bucket, in_list. split.
  - intros ->. cbn. now rewrite String.eqb_refl.
  - intros -> Hb Hn. cbn. rewrite String.eqb_refl.
    apply String.eqb_neq in Hn. rewrite Hn.
    destruct S3_BUCKET as [b|]; [|reflexivity].
    destruct (String.eqb name b) eqn:E; [|reflexivity].
    apply String.eqb_eq in E. subst b. now destruct Hb.
Qed.



End WithCollaborators.


Lemma write_meta_keeps_other_paths_witness :
  fst (@get_meta Samples.online "bkt/orders.csv" "s3"
         (snd (@write_meta Samples.online Samples.a_record None Samples.stocked)))
  = fst (@get_meta Samples.online "bkt/orders.csv" "s3" Samples.stocked).
Proof.
  apply (@write_meta_keeps_other_paths Samples.online Samples.a_record None
           "bkt/orders.csv" "s3" Samples.stocked).
  discriminate.
Defined.



End StoreLaws.
(** ** What is never written, and what [read_all] returns *)

Module Untouched.
Import PyStr PyStrFacts.
Export StoreLaws.

Lemma untouched_log (e : Event) (w : World) : untouched w (snd (log e w)).
Proof. split; [reflexivity|]. split; apply data_kept_refl. Qed.

Lemma unwritten_log (e : Event) (w : World) : unwritten w (snd (log e w)).
Proof. now repeat split. Qed.

Lemma omap_agree {A B} (f g : A -> option B) (l : list A) :
  (forall x, f x = g x) -> omap f l = omap g l.
Proof.
  intros Hfg. induction l as [|x l IH]; [reflexivity|].
  change (match f x with Some y => y :: omap f l | None => omap f l end
          = match g x with Some y => y :: omap g l | None => omap g l end).
  now rewrite Hfg, IH.
Qed.

Section WithCollaborators.
Context `{Collaborators}.

(** [write_meta] writes one object at most, under a name that ends in
    .meta.json. *)
Lemma untouched_write_meta (meta : FileMeta) (cloud : option string) :
  frames untouched (write_meta meta cloud).
Proof.
  intros w. unfold write_meta, _save.
  destruct (split_once "/" (path meta +:+ SUFFIX)) as [[c b]|] eqn:Ek;
    [|apply untouched_refl].
  pose proof (sidecar_name _ _ _ Ek) as Hb.
  assert (Hc : get_blob_client (c +:+ "/" +:+ b) = (Some c, b)).
  { unfold get_blob_client. now rewrite <- (split_once_Some _ _ _ _ Ek), Ek. }
  rewrite Hc. destruct (_is_s3_bucket c); cbn.
  - split; [reflexivity|]. split; [|apply data_kept_refl].
    now apply data_kept_insert.
  - split; [reflexivity|]. split; [apply data_kept_refl|].
    now apply data_kept_insert.
Qed.

Lemma unwritten_stored_text (w w' : World) (key : string) :
  unwritten w w' -> stored_text w' key = stored_text w key.
Proof. intros (L & S & A). unfold stored_text. now rewrite L, S, A. Qed.

Lemma read_each_collects (keys : list string) (metas : list FileMeta)
    (w : World) :
  fst (read_each keys metas w) = Ok (metas ++ omap (record_at w) keys)%list.
Proof.
  revert metas w. induction keys as [|key keys IH]; intros metas w;
    cbn [read_each].
  - cbn. now rewrite app_nil_r.
  - destruct (_load_reads key w) as (evs & e & _ & E).
    change (omap (record_at w) (key :: keys))
      with (match record_at w key with
            | Some m => m :: omap (record_at w) keys
            | None => omap (record_at w) keys
            end).
    remember (record_at w key) as r eqn:Hr. unfold record_at in Hr.
    unfold bind, try_except. rewrite E.
    destruct (stored_text w key) as [raw|]; cbn [ret raise].
    + destruct (from_json raw) as [m|]; subst r; cbn [ret raise].
      * etransitivity; [apply (IH (metas ++ [m])%list (logged w evs))|].
        now rewrite <- app_assoc.
      * exact (IH metas (logged w evs)).
    + subst r. exact (IH metas (logged w evs)).
Qed.

(** The objects that are no side-cars are never written.  Whatever the
    question, the models' replies and the outcome, [scan_object], the
    [answer] of the S3 client, the [answer] of the Azure client and the
    orchestrator's [answer] change no local file, change no object whose
    name does not end in .meta.json, and remove no object. *)
Theorem answers_write_side_cars_only (question path cloud : string)
    (target : option string) (w : World) :
  untouched w (snd (Scanner.scan_object path cloud w))
  /\ untouched w (snd (ClientS3.answer question target w))
  /\ untouched w (snd (ClientAzure.answer question target w))
  /\ untouched w (snd (Orchestrator.answer question w)).
Proof.
  split; [|split; [|split]].
  - apply (frames_scan_object untouched untouched_refl untouched_trans
             untouched_log untouched_write_meta).
  - apply (frames_s3_answer untouched untouched_refl untouched_trans
             untouched_log untouched_write_meta).
  - apply (frames_az_answer untouched untouched_refl untouched_trans
             untouched_log untouched_write_meta).
  - apply (frames_answer untouched untouched_refl untouched_trans
             untouched_log untouched_write_meta).
Qed.

(** [read_all] skips what it cannot read.  It writes nothing; when the
    listing of the keys raises, it raises the same; otherwise it returns,
    in the order of the listing, the records of the keys whose side-car
    can be loaded and parsed, and passes over the others without
    raising. *)
Theorem read_all_skips_unreadable (prefix : string) (w : World) :
  unwritten w (snd (read_all prefix w))
  /\ (forall keys w1, _iter_keys prefix w = (Ok keys, w1) ->
        fst (read_all prefix w) = Ok (omap (record_at w) keys))
  /\ (forall e w1, _iter_keys prefix w = (Raise e, w1) ->
        fst (read_all prefix w) = Raise e).
Proof.
  split; [|split].
  - apply (frames_read_all unwritten unwritten_refl unwritten_trans
             unwritten_log).
  - intros keys w1 E. unfold read_all, bind. rewrite E.
    rewrite read_each_collects. cbn [app]. f_equal.
    pose proof (frames__iter_keys unwritten unwritten_refl unwritten_trans
                  unwritten_log prefix w) as Hw.
    rewrite E in Hw. cbn [snd] in Hw.
    apply omap_agree. intros key. unfold record_at.
    now rewrite (unwritten_stored_text _ _ key Hw).
  - intros e w1 E. unfold read_all, bind. now rewrite E.
Qed.

End WithCollaborators.

End Untouched.
(** ** The orchestrator and the records that exist *)

Module OrchestratorStore.
Import PyStr PyStrFacts.
Export Untouched.

Section WithCollaborators.
Context `{Collaborators}.
Variables (full : string) (ts : datetime).

Import Orchestrator.

Lemma keeps_glob_sidecars s : keeps full ts (glob_sidecars s).
Proof. unfold glob_sidecars. keeps_all. Qed.

Hint Resolve keeps_glob_sidecars : keeps.

Lemma keeps__iter_keys p : keeps full ts (_iter_keys p).
Proof. unfold _iter_keys, _iter_s3, _iter_azure. keeps_all. Qed.

Lemma keeps_read_each ks ms : keeps full ts (read_each ks ms).
Proof.
  revert ms. induction ks as [|k ks IH]; intros ms; cbn [read_each]; keeps_all.
Qed.

Hint Resolve keeps__iter_keys keeps_read_each : keeps.

Lemma keeps_read_all p : keeps full ts (read_all p).
Proof. unfold read_all. keeps_all. Qed.

Hint Resolve keeps_read_all keeps_s3__list_meta keeps_az__list_meta : keeps.

Lemma keeps_block_loop ms st : keeps full ts (block_loop ms st).
Proof.
  revert st. induction ms as [|m ms IH]; intros st; cbn [block_loop];
    unfold block_step, list_s3_meta; keeps_all.
Qed.

Hint Resolve keeps_block_loop : keeps.

Lemma keeps__build : keeps full ts _build_dataset_and_schema_blocks.
Proof.
  unfold _build_dataset_and_schema_blocks, list_s3_meta, list_az_meta.
  keeps_all.
Qed.

(** The orchestrator's own pre-scan passes over a path with a record. *)
Lemma keeps_prescan cl c ms : keeps full ts (prescan cl c ms).
Proof.
  unfold prescan. apply keeps_for_each. intros meta.
  apply keeps_after_get_meta.
  - intros. apply keeps_ret.
  - intros Hp. now apply keeps_scan_object.
Qed.

Lemma keeps__plan q d s ms : keeps full ts (_plan q d s ms).
Proof. unfold _plan. keeps_all. Qed.

Hint Resolve keeps__build keeps_prescan keeps__plan : keeps.

Lemma keeps_discover_and_plan q : keeps full ts (discover_and_plan q).
Proof. unfold discover_and_plan, list_s3_meta, list_az_meta. keeps_all. Qed.

Hint Resolve keeps_s3_answer keeps_az_answer : keeps.

Lemma keeps_execute_steps steps st : keeps full ts (execute_steps steps st).
Proof.
  revert st. induction steps as [|s steps IH]; intros [results history];
    cbn [execute_steps]; unfold execute_step, s3_answer, az_answer; keeps_all.
Qed.

Lemma keeps_merge_rest q rest merged prev :
  keeps full ts (merge_rest q rest merged prev).
Proof.
  revert merged prev. induction rest as [|[cloud out] rest IH];
    intros merged prev; cbn [merge_rest]; unfold _merge_step; keeps_all.
Qed.

Lemma keeps_print_results i results : keeps full ts (print_results i results).
Proof.
  revert i. induction results as [|[cloud out] rest IH]; intros i;
    cbn [print_results]; keeps_all.
Qed.

Hint Resolve keeps_discover_and_plan keeps_execute_steps keeps_merge_rest
  keeps_print_results : keeps.

Lemma keeps_answer q : keeps full ts (Orchestrator.answer q).
Proof. unfold Orchestrator.answer, conclude, _execute_plan. keeps_all. Qed.

End WithCollaborators.

Section Twice.
Context `{Collaborators}.

(** The orchestrator scans a path once.  In a store where every record
    lies under its own path and [full] has a record [m] whose time is of
    the year 1000 or later (so that it is written back with the four
    digits it is read with, whatever the C library, should the model
    rewrite the description), two calls of the orchestrator's [answer]
    in succession (pre-scan, discovery, planning, every step of the plans
    and the merges, whatever the models reply) never enter [scan_object]
    for [full], and the record of [full] still has the [last_scanned] of
    [m] afterwards. *)
Theorem orchestrator_scans_once (full : string) (m : FileMeta)
    (question question' : string) (w : World) :
  well_keyed w ->
  stored_meta w full = Some m ->
  (1000 <= year (last_scanned m))%Z ->
  settled full (last_scanned m) w
    (snd (Orchestrator.answer question'
            (snd (Orchestrator.answer question w)))).
Proof.
  intros Hk Hm _. apply keeps_twice; auto using keeps_answer.
Qed.

End Twice.

Lemma orchestrator_scans_once_witness :
  settled (H := Samples.planned) "bkt/orders.csv"
    (last_scanned Samples.orders_record) Samples.stocked
    (snd (@Orchestrator.answer Samples.planned "And the smallest?"
            (snd (@Orchestrator.answer Samples.planned
                    "Which order is the largest?" Samples.stocked)))).
Proof.
  apply (@orchestrator_scans_once Samples.planned "bkt/orders.csv"
           Samples.orders_record).
  - exact stocked_well_keyed.
  - vm_compute. reflexivity.
  - vm_compute. discriminate.
Defined.

End OrchestratorStore.
(** ** The scanner: when it raises, what it saves *)

Module ScannerFacts.
Import PyStr PyStrFacts RoundTrip.
Export OrchestratorStore.
Import Scanner.

Lemma bind_Raise {A B} (m : M A) (k : A -> M B) (w w1 : World)
    (e : Exception) :
  m w = (Raise e, w1) -> bind m k w = (Raise e, w1).
Proof. intros Hm. unfold bind. now rewrite Hm. Qed.

Section WithCollaborators.
Context `{Collaborators}.

(** The head that is downloaded does not depend on the trace. *)
Lemma _download_head_logged (path cloud : string) (w : World)
    (evs : list Event) :
  fst (_download_head path cloud (logged w evs))
  = fst (_download_head path cloud w).
Proof.
  unfold _download_head, s3_get_object, download_blob, bind, log, world.
  destruct (String.eqb cloud "s3"); cbn.
  - destruct (fst (s3_place path)) as [b|]; [|reflexivity]. cbn.
    now destruct (s3_objects w !! (b, snd (s3_place path))).
  - destruct (fst (get_blob_client path)) as [c|]; [|reflexivity]. cbn.
    now destruct (azure_blobs w !! (c, snd (get_blob_client path))).
Qed.

(** The properties fall back to their defaults instead of raising. *)
Lemma properties_total (path cloud : string) (w : World) :
  exists props, fst (properties path cloud w) = Ok props.
Proof.
  unfold properties, try_except.
  match goal with
  | |- context [match ?m w with _ => _ end] => destruct (m w) as [[r|e] w1]
  end; [now exists r|].
  now eexists.
Qed.

(** After the download nothing raises any more. *)
Lemma scan_body_total (path cloud prompt : string) (w : World) :
  fst (try_except
         (chunks <- create_message "claude-3-5-haiku-20241022" prompt ;;
          let desc := strip (String.concat EmptyString chunks) in
          if (2 <? word_count desc)%nat then
            props <- properties path cloud ;;
            w <- world ;;
            let meta := mkFileMeta path cloud (basename path) desc (snd props)
                          (fst props) (now (trace w)) in
            write_meta meta (Some cloud) ;;;
            print ("✅ Saved cloud meta for " +:+ path)
          else ret tt)
         (fun e => print ("❌ Failed to scan " +:+ path +:+ ": ")) w)
  = Ok tt.
Proof.
  unfold try_except.
  match goal with
  | |- context [match ?m w with _ => _ end] => destruct (m w) as [[[]|e] w1]
  end; reflexivity.
Qed.

(** [scan_object] raises at the download or not at all: when
    [_download_head] returns for the path, [scan_object] returns normally,
    whatever the model, the property lookup and the store do (a failure
    there is printed, not raised); when [_download_head] raises,
    [scan_object] raises the same exception. *)
Theorem scan_object_raises_only_at_download (path cloud : string)
    (w : World) :
  (forall head w1, _download_head path cloud w = (Ok head, w1) ->
                   fst (scan_object path cloud w) = Ok tt)
  /\ (forall e w1, _download_head path cloud w = (Raise e, w1) ->
                   fst (scan_object path cloud w) = Raise e).
Proof.
  pose proof (_download_head_logged path cloud w
                [Called "scan_object" [path; cloud]]) as Hl.
  unfold scan_object.
  rewrite (Threading.bind_Ok _ _ w
             (logged w [Called "scan_object" [path; cloud]]) tt eq_refl).
  cbv beta.
  destruct (_download_head path cloud
              (logged w [Called "scan_object" [path; cloud]]))
    as [[head|e] w2] eqn:E2; cbn [fst] in Hl; split; intros ? ? E;
    rewrite E in Hl; cbn [fst] in Hl; try discriminate.
  - rewrite (Threading.bind_Ok _ _ _ _ _ E2). apply scan_body_total.
  - rewrite (bind_Raise _ _ _ _ _ E2). now injection Hl as ->.
Qed.

Lemma create_message_reply (model prompt : string) (w : World) :
  create_message model prompt w
  = (match complete (trace w) model prompt with
     | Some chunks => Ok chunks
     | None => Raise ModelError
     end, logged w [ModelCall model prompt]).
Proof.
  unfold create_message, bind, world, log.
  now destruct (complete (trace w) model prompt).
Qed.

Lemma unwritten_logged (w : World) (evs : list Event) :
  unwritten w (logged w evs).
Proof. now repeat split. Qed.

(** A description of two words or fewer is not saved: when every reply
    of the model has at most two words, [scan_object] writes nothing at
    all, whatever its outcome. *)
Theorem scan_object_short_reply_saves_nothing (path cloud : string)
    (w : World) :
  (forall t prompt chunks,
     complete t "claude-3-5-haiku-20241022" prompt = Some chunks ->
     (word_count (strip (String.concat EmptyString chunks)) <= 2)%nat) ->
  unwritten w (snd (scan_object path cloud w)).
Proof.
  intros Hshort. unfold scan_object.
  rewrite (Threading.bind_Ok _ _ w
             (logged w [Called "scan_object" [path; cloud]]) tt eq_refl).
  cbv beta.
  pose proof (frames__download_head unwritten unwritten_refl unwritten_trans
                unwritten_log path cloud
                (logged w [Called "scan_object" [path; cloud]])) as Hd.
  destruct (_download_head path cloud
              (logged w [Called "scan_object" [path; cloud]]))
    as [[head|e] w2] eqn:E2; cbn [snd] in Hd.
  2:{ rewrite (bind_Raise _ _ _ _ _ E2).
      eapply unwritten_trans; [apply unwritten_logged | exact Hd]. }
  rewrite (Threading.bind_Ok _ _ _ _ _ E2).
  eapply unwritten_trans; [apply unwritten_logged|].
  eapply unwritten_trans; [exact Hd|].
  unfold try_except, bind. rewrite create_message_reply.
  destruct (complete (trace w2) "claude-3-5-haiku-20241022"
              (scan_prompt path cloud (fst head))) as [chunks|] eqn:Ec.
  - apply Hshort in Ec. apply Nat.ltb_ge in Ec. rewrite Ec.
    apply unwritten_logged.
  - now repeat split.
Qed.

(** What a scan saves.  Outside test mode, for a path with a slash whose
    head can be downloaded, a model that replies with a description of
    more than two words and a clock that gives valid times: after
    [scan_object] the store holds a record for the path, with the path,
    the cloud tag, the base name of the path as title, the trimmed reply
    as description, and a time in whole seconds. *)
Theorem scan_object_saves_record (path cloud : string)
    (head : string * string) (chunks : list string) (w w1 : World) :
  TEST_MODE = false ->
  contains "/" path = true ->
  _download_head path cloud w = (Ok head, w1) ->
  (forall t, complete t "claude-3-5-haiku-20241022"
               (scan_prompt path cloud (fst head)) = Some chunks) ->
  (2 < word_count (strip (String.concat EmptyString chunks)))%nat ->
  (forall t, valid (now t) = true) ->
  exists m,
    fst (get_meta path cloud (snd (scan_object path cloud w))) = Ok (Some m)
    /\ Meta.path m = path
    /\ Meta.cloud m = cloud
    /\ title m = basename path
    /\ description m = strip (String.concat EmptyString chunks)
    /\ microsecond (last_scanned m) = 0%Z.
Proof.
  intros Ht Hs Hd Hc Hw Hv.
  pose proof (_download_head_logged path cloud w
                [Called "scan_object" [path; cloud]]) as Hl.
  rewrite Hd in Hl. cbn [fst] in Hl.
  unfold scan_object.
  rewrite (Threading.bind_Ok _ _ w
             (logged w [Called "scan_object" [path; cloud]]) tt eq_refl).
  cbv beta.
  destruct (_download_head path cloud
              (logged w [Called "scan_object" [path; cloud]]))
    as [r w2] eqn:E2. cbn [fst] in Hl. subst r.
  rewrite (Threading.bind_Ok _ _ _ _ _ E2).
  unfold try_except.
  rewrite (Threading.bind_Ok _ _ _ _ chunks
             (eq_trans (create_message_reply _ _ w2)
                (f_equal (fun o => (match o with
                                    | Some c => Ok c
                                    | None => Raise ModelError
                                    end, logged w2 _)) (Hc (trace w2))))).
  cbv beta zeta. apply Nat.ltb_lt in Hw. rewrite Hw.
  set (w3 := logged w2 _).
  destruct (properties_total path cloud w3) as [props Hp].
  destruct (properties path cloud w3) as [rp w4] eqn:Ep. cbn [fst] in Hp.
  subst rp. rewrite (Threading.bind_Ok _ _ _ _ _ Ep).
  rewrite (Threading.bind_Ok world _ w4 w4 w4 eq_refl).
  set (meta := mkFileMeta path cloud (basename path) _ _ _ _).
  destruct (write_meta_stores meta (Some cloud) w4 Ht Hs) as [Hok Hst].
  destruct (write_meta meta (Some cloud) w4) as [rw w5] eqn:Ew.
  cbn [fst snd] in Hok, Hst. subst rw.
  rewrite (Threading.bind_Ok _ _ _ _ _ Ew). cbn [print log snd].
  rewrite get_meta_result.
  change (stored_meta (mkWorld (s3_objects w5) (azure_blobs w5)
                         (local_files w5) _) path)
    with (stored_meta w5 path).
  cbn [Meta.path meta] in Hst. rewrite Hst, from_json_to_json_gen.
  cbn [last_scanned meta]. rewrite (strptime_strftime _ (Hv _)).
  eexists. split; [reflexivity|]. now repeat split.
Qed.

End WithCollaborators.

Lemma scan_object_short_reply_saves_nothing_witness :
  unwritten Samples.stocked
    (snd (@scan_object (Samples.env false "ok" []) "bkt/orders.csv" "s3"
            Samples.stocked)).
Proof.
  apply (@scan_object_short_reply_saves_nothing (Samples.env false "ok" [])).
  intros t prompt chunks E. injection E as <-. vm_compute. lia.
Defined.

Lemma scan_object_saves_record_witness :
  exists m,
    fst (@get_meta Samples.online "bkt/orders.csv" "s3"
           (snd (@scan_object Samples.online "bkt/orders.csv" "s3"
                   Samples.stocked))) = Ok (Some m)
    /\ Meta.path m = "bkt/orders.csv"
    /\ Meta.cloud m = "s3"
    /\ title m = basename "bkt/orders.csv"
    /\ description m
       = strip (String.concat EmptyString ["A table of orders with totals"])
    /\ microsecond (last_scanned m) = 0%Z.
Proof.
  apply (@scan_object_saves_record Samples.online "bkt/orders.csv" "s3"
           ("order_id,total" +:+ nl +:+ "7,90" +:+ nl,
            "order_id,total" +:+ nl +:+ "7,90" +:+ nl)
           ["A table of orders with totals"] Samples.stocked
           (snd (@_download_head Samples.online "bkt/orders.csv" "s3"
                   Samples.stocked))).
  - reflexivity.
  - reflexivity.
  - vm_compute. reflexivity.
  - intros t. reflexivity.
  - vm_compute. lia.
  - intros t. reflexivity.
Defined.

End ScannerFacts.
(** ** A plan's run: one entry per step, one merge per further step *)

Module PlanRuns.
Import PyStr PyStrFacts TraceFacts.
Export ScannerFacts PlanNotions.
Import Orchestrator.

Lemma merge_calls_app (a b : list Event) :
  merge_calls (a ++ b) = (merge_calls a + merge_calls b)%nat.
Proof. unfold merge_calls. now rewrite List.filter_app, length_app. Qed.

Lemma merge_calls_none (names : list string) (evs : list Event) :
  ~ In "_merge_step" names -> Forall (calls_of names) evs ->
  merge_calls evs = 0%nat.
Proof.
  intros Hn Hf. induction Hf as [|e evs He _ IH]; [reflexivity|].
  change (merge_calls (e :: evs)) with (merge_calls ([e] ++ evs)).
  rewrite merge_calls_app, IH, Nat.add_0_r.
  destruct e as [| | |f args|]; try reflexivity.
  unfold merge_calls. cbn.
  destruct (String.eqb f "_merge_step") eqn:E; [|reflexivity].
  apply String.eqb_eq in E. subst f. now destruct Hn.
Qed.

Lemma no_merge_among_clients :
  ~ In "_merge_step" ["scan_object"; "s3.answer"; "azure.answer"].
Proof.
  intros X. cbn in X. repeat (destruct X as [X|X]; [discriminate|]). exact X.
Qed.

Section WithCollaborators.
Context `{Collaborators}.

Lemma execute_step_entry (step : Step) (results results' : list (string * string))
    (history history' : list string) (w w1 : World) :
  execute_step step (results, history) w = (Ok (results', history'), w1) ->
  exists r, results' = (results ++ [r])%list /\ fst r = entry_tag step.
Proof.
  unfold execute_step, entry_tag.
  destruct (usable (step_cloud step)) as [cloud|];
    [destruct (usable (step_dataset step)) as [dataset|]|].
  - unfold bind.
    match goal with
    | |- match ?x with _ => _ end = _ -> _ => destruct x as [[out|e] w']
    end; [|discriminate].
    intros [= <- <- <-]. now exists (cloud, out).
  - intros [= <- <- <-]. now eexists.
  - intros [= <- <- <-]. now eexists.
Qed.

Lemma execute_steps_entries (steps : list Step) :
  forall (results results' : list (string * string))
         (history history' : list string) (w w1 : World),
  execute_steps steps (results, history) w = (Ok (results', history'), w1) ->
  map fst results' = (map fst results ++ map entry_tag steps)%list.
Proof.
  induction steps as [|step steps IH]; intros results results' history history' w w1;
    cbn [execute_steps map].
  - intros [= <- <- <-]. now rewrite app_nil_r.
  - unfold bind.
    destruct (execute_step step (results, history) w)
      as [[[rs hs]|e] w'] eqn:E; [|discriminate].
    intros E2. rewrite (IH _ _ _ _ _ _ E2).
    destruct (execute_step_entry _ _ _ _ _ _ _ E) as (r & -> & Hr).
    rewrite map_app, <- app_assoc. cbn [map app]. now rewrite Hr.
Qed.

Lemma _execute_plan_tags (plan : option (list Step))
    (results : list (string * string)) (w w1 : World) :
  _execute_plan plan w = (Ok results, w1) ->
  map fst results = map entry_tag (steps_of plan).
Proof.
  unfold _execute_plan, bind.
  destruct (execute_steps (steps_of plan) ([], []) w)
    as [[[rs hs]|e] w'] eqn:E; [|discriminate].
  intros [= <- <-]. cbn [fst].
  exact (execute_steps_entries _ _ _ _ _ _ _ E).
Qed.

(** One entry per step.  When [_execute_plan] returns, its result has one
    entry for each step of the plan, in the order of the steps, tagged
    with the source the step names (as written in the plan) or with
    [error] for a step that names no source or no dataset. *)
Theorem _execute_plan_entries (plan : option (list Step))
    (results : list (string * string)) (w w1 : World) :
  _execute_plan plan w = (Ok results, w1) ->
  map fst results = map entry_tag (steps_of plan)
  /\ length results = length (steps_of plan).
Proof.
  intros E. pose proof (_execute_plan_tags _ _ _ _ E) as Hm.
  split; [exact Hm|].
  apply (f_equal (@length string)) in Hm. now rewrite !length_map in Hm.
Qed.

(** The steps enter no merge. *)
Lemma _execute_plan_quiet (plan : option (list Step))
    (results : list (string * string)) (w w1 : World) :
  _execute_plan plan w = (Ok results, w1) ->
  exists evs, trace w1 = (trace w ++ evs)%list
              /\ merge_calls evs = 0%nat
              /\ length results = length (steps_of plan).
Proof.
  intros E.
  assert (He : emits (calls_of ["scan_object"; "s3.answer"; "azure.answer"])
                 (_execute_plan plan)).
  { unfold _execute_plan. emits_all. }
  destruct (He w) as (evs & Ht & Hf). rewrite E in Ht. cbn [snd] in Ht.
  exists evs. split; [exact Ht|]. split.
  - apply (merge_calls_none _ _ (no_merge_among_clients) Hf).
  - pose proof (_execute_plan_tags _ _ _ _ E) as Hm.
    apply (f_equal (@length string)) in Hm. now rewrite !length_map in Hm.
Qed.

Lemma emits_print_results (names : list string) (i : nat)
    (results : list (string * string)) :
  emits (calls_of names) (print_results i results).
Proof.
  revert i. induction results as [|[cloud out] rest IH]; intros i;
    cbn [print_results]; emits_all.
Qed.

Lemma _merge_step_runs (question prev_ans this_ans prev_cloud this_cloud : string)
    (w : World) :
  exists r evs,
    _merge_step question prev_ans this_ans prev_cloud this_cloud w
    = (r, logged w evs)
    /\ merge_calls evs = 1%nat.
Proof.
  unfold _merge_step.
  rewrite (Threading.bind_Ok _ _ w
             (logged w [Called "_merge_step"
                          [question; prev_ans; this_ans; prev_cloud; this_cloud]])
             tt eq_refl).
  cbv beta. unfold bind. rewrite create_message_reply.
  match goal with
  | |- context [complete ?t ?m ?p] => destruct (complete t m p) as [chunks|]
  end; eexists _, [_; _]; (split; [unfold logged; cbn; rewrite <- app_assoc; reflexivity | reflexivity]).
Qed.

(** Every turn of the merge loop enters [_merge_step] once. *)
Lemma merge_rest_calls (question : string) (rest : list (string * string)) :
  forall (merged prev out : string) (w w1 : World),
  merge_rest question rest merged prev w = (Ok out, w1) ->
  exists evs, trace w1 = (trace w ++ evs)%list
              /\ merge_calls evs = length rest.
Proof.
  induction rest as [|[cloud this] rest IH]; intros merged prev out w w1;
    cbn [merge_rest].
  - intros [= <- <-]. exists []. split; [now rewrite app_nil_r | reflexivity].
  - destruct (_merge_step_runs question merged this prev cloud w)
      as (r & evs1 & E1 & Hn1).
    unfold bind. rewrite E1. destruct r as [merged'|e]; [|discriminate].
    intros E. destruct (IH _ _ _ _ _ E) as (evs & Ht & Hn).
    exists (evs1 ++ evs)%list. split.
    + rewrite Ht. cbn [trace logged]. now rewrite <- app_assoc.
    + now rewrite merge_calls_app, Hn, Hn1.
Qed.

(** One merge per further step.  When the orchestrator's [answer]
    returns, it has entered [_merge_step] once for every step of the plan
    but the first: never for a plan of no step or of one step, and
    [n - 1] times for a plan of [n] steps. *)
Theorem answer_merges_once_per_further_step (question out : string)
    (plan : option (list Step)) (w w1 w2 : World) :
  discover_and_plan question w = (Ok plan, w1) ->
  Orchestrator.answer question w = (Ok out, w2) ->
  exists evs,
    trace w2 = (trace w ++ evs)%list
    /\ merge_calls evs = (length (steps_of plan) - 1)%nat.
Proof.
  intros Hp Ha.
  assert (Hnm : ~ In "_merge_step" ["scan_object"; "s3.answer"; "azure.answer"; "_plan"]).
  { intros X. cbn in X. repeat (destruct X as [X|X]; [discriminate|]). exact X. }
  destruct (emits_discover_and_plan ["scan_object"; "s3.answer"; "azure.answer"; "_plan"]
              ltac:(simpl; tauto) question ltac:(simpl; tauto) w)
    as (evs0 & Ht0 & Hf0).
  rewrite Hp in Ht0. cbn [snd] in Ht0.
  pose proof (merge_calls_none _ _ Hnm Hf0) as Hc0.
  unfold Orchestrator.answer in Ha. rewrite (Threading.bind_Ok _ _ _ _ _ Hp) in Ha.
  unfold conclude in Ha.
  destruct (steps_of plan) as [|s0 steps] eqn:Es.
  { injection Ha as <- <-. exists evs0. split; [exact Ht0|]. now rewrite Hc0. }
  rewrite <- Es in *. clear s0 steps Es.
  unfold bind in Ha.
  destruct (_execute_plan plan w1) as [[results|e] w3] eqn:Ex; [|discriminate].
  destruct (_execute_plan_quiet plan results w1 w3 Ex) as (evs1 & Ht1 & Hc1 & Hl).
  destruct results as [|first [|second rest]].
  - discriminate.
  - injection Ha as <- <-. exists (evs0 ++ evs1)%list. split.
    + now rewrite Ht1, Ht0, app_assoc.
    + rewrite merge_calls_app, Hc0, Hc1, <- Hl. reflexivity.
  - cbn [print log] in Ha.
    destruct (emits_print_results [] 0 (first :: second :: rest)
                (logged w3 [Printed (nl +:+ "⚙️ Execution Results:")]))
      as (evs2 & Ht2 & Hf2).
    match type of Ha with
    | context [print_results 0 ?rs ?ww] =>
        change ww with (logged w3 [Printed (nl +:+ "⚙️ Execution Results:")]) in Ha;
        destruct (print_results 0 rs
                    (logged w3 [Printed (nl +:+ "⚙️ Execution Results:")]))
          as [[[]|e] w4]; [|discriminate]
    end.
    cbn [snd] in Ht2.
    destruct (merge_rest_calls _ _ _ _ _ _ _ Ha) as (evs3 & Ht3 & Hc3).
    exists (evs0 ++ evs1
            ++ [Printed (nl +:+ "⚙️ Execution Results:")] ++ evs2 ++ evs3)%list.
    split.
    + rewrite Ht3, Ht2. cbn [trace logged]. rewrite Ht1, Ht0.
      now rewrite <- !app_assoc.
    + rewrite !merge_calls_app, Hc0, Hc1, Hc3.
      rewrite (merge_calls_none [] evs2 (fun X => X) Hf2).
      rewrite <- Hl. cbn. lia.
Qed.

End WithCollaborators.

Lemma _execute_plan_entries_witness :
  map fst
    (match fst (@_execute_plan Samples.planned
                  (Some [Samples.ask_orders; mkStep None (Some "s3") "And then?"])
                  Samples.stocked) with
     | Ok results => results
     | Raise _ => []
     end)
  = map entry_tag [Samples.ask_orders; mkStep None (Some "s3") "And then?"]
  /\ length
       (match fst (@_execute_plan Samples.planned
                     (Some [Samples.ask_orders; mkStep None (Some "s3") "And then?"])
                     Samples.stocked) with
        | Ok results => results
        | Raise _ => []
        end)
     = length [Samples.ask_orders; mkStep None (Some "s3") "And then?"].
Proof.
  apply (@_execute_plan_entries Samples.planned
           (Some [Samples.ask_orders; mkStep None (Some "s3") "And then?"])
           _ Samples.stocked
           (snd (@_execute_plan Samples.planned
                   (Some [Samples.ask_orders; mkStep None (Some "s3") "And then?"])
                   Samples.stocked))).
  vm_compute. reflexivity.
Defined.

Lemma answer_merges_once_per_further_step_witness :
  exists evs,
    trace (snd (@Orchestrator.answer
                  (Samples.env false ("ANSWER" +:+ nl +:+ "order 7")
                     [Samples.ask_orders; Samples.ask_again])
                  "Which orders stand out?" Samples.stocked))
    = (trace Samples.stocked ++ evs)%list
    /\ merge_calls evs
       = (length (steps_of (Some [Samples.ask_orders; Samples.ask_again])) - 1)%nat.
Proof.
  apply (@answer_merges_once_per_further_step
           (Samples.env false ("ANSWER" +:+ nl +:+ "order 7")
              [Samples.ask_orders; Samples.ask_again])
           "Which orders stand out?"
           (match fst (@Orchestrator.answer
                         (Samples.env false ("ANSWER" +:+ nl +:+ "order 7")
                            [Samples.ask_orders; Samples.ask_again])
                         "Which orders stand out?" Samples.stocked) with
            | Ok out => out
            | Raise _ => EmptyString
            end)
           (Some [Samples.ask_orders; Samples.ask_again])
           Samples.stocked
           (snd (@discover_and_plan
                   (Samples.env false ("ANSWER" +:+ nl +:+ "order 7")
                      [Samples.ask_orders; Samples.ask_again])
                   "Which orders stand out?" Samples.stocked))).
  - vm_compute. reflexivity.
  - vm_compute. reflexivity.
Defined.

End PlanRuns.
(** ** The keys the describer reports *)

Module DescriberKeys.
Import PyStr PyStrFacts AutoDesc.
Export PlanRuns.

Section WithCollaborators.
Context `{Collaborators}.


End WithCollaborators.


End DescriberKeys.
(** ** A target that is not there *)

Module Targets.
Import PyStr PyStrFacts.
Export DescriberKeys.

(** A listed name is the name of an object of the container. *)
Lemma names_in_lookup (container k : string)
    (m : gmap (string * string) Object) :
  k ∈ names_in container m -> is_Some (m !! (container, k)).
Proof.
  unfold names_in, sorted. rewrite merge_sort_Permutation.
  intros Hk. apply list_elem_of_In, List.in_map_iff in Hk
    as ([[c b] o] & <- & Hkv).
  apply list_elem_of_In, list_elem_of_filter in Hkv as [Hc Hkv].
  cbn in Hc. subst c.
  apply elem_of_map_to_list in Hkv. cbn. now exists o.
Qed.

Lemma filter_none {A} (P : A -> Prop) `{!forall x, Decision (P x)}
    (l : list A) :
  (forall x, x ∈ l -> ~ P x) -> filter P l = [].
Proof.
  induction l as [|x l IH]; intros Hn; [reflexivity|].
  rewrite filter_cons. destruct (decide (P x)) as [Hp|_].
  - destruct (Hn x); [left | exact Hp].
  - apply IH. intros y Hy. apply Hn. now right.
Qed.

Section WithCollaborators.
Context `{Collaborators}.

Lemma s3__list_meta_lists (b : string) (metas : list Listed) (w w1 : World) :
  S3_BUCKET = Some b ->
  ClientS3._list_meta w = (Ok metas, w1) ->
  forall m, m ∈ metas ->
            is_Some (s3_objects w !! (b, l_path m))
            /\ endswith ".meta.json" (l_path m) = false.
Proof.
  intros Hb. unfold ClientS3._list_meta, ClientS3.BUCKET, s3_list_keys, bind,
    log, world. rewrite Hb. cbv beta iota. intros [= <- <-] m Hm.
  apply list_elem_of_In, List.in_map_iff in Hm as (k & <- & Hk). cbn [l_path].
  apply list_elem_of_In, list_elem_of_filter in Hk as [Hns Hk].
  apply list_elem_of_filter in Hk as [_ Hk].
  split; [exact (names_in_lookup _ _ _ Hk)|].
  unfold Client.not_sidecar in Hns.
  destruct (endswith ".meta.json" k); [destruct Hns | reflexivity].
Qed.

Lemma az__list_meta_lists (c : string) (metas : list Listed) (w w1 : World) :
  AZURE_CONTAINER = Some c ->
  ClientAzure._list_meta w = (Ok metas, w1) ->
  forall m, m ∈ metas ->
            is_Some (azure_blobs w !! (c, l_path m))
            /\ endswith ".meta.json" (l_path m) = false.
Proof.
  intros Hc. unfold ClientAzure._list_meta, ClientAzure.AZ_CONTAINER,
    list_blobs, bind, log, world. rewrite Hc. cbv beta iota. intros [= <- <-] m Hm.
  apply list_elem_of_In, List.in_map_iff in Hm as (k & <- & Hk). cbn [l_path].
  apply list_elem_of_In, list_elem_of_filter in Hk as [Hns Hk].
  apply list_elem_of_filter in Hk as [_ Hk].
  split; [exact (names_in_lookup _ _ _ Hk)|].
  unfold Client.not_sidecar in Hns.
  destruct (endswith ".meta.json" k); [destruct Hns | reflexivity].
Qed.

(** The documents are those of the listed objects, in their order. *)
Lemma s3_collect_paths (metas : list Listed) :
  forall (acc docs : list Doc) (w w1 : World),
  ClientS3.collect metas acc w = (Ok docs, w1) ->
  map d_path docs = (map d_path acc ++ map l_path metas)%list.
Proof.
  induction metas as [|meta metas IH]; intros acc docs w w1;
    cbn [ClientS3.collect map].
  - intros [= <- <-]. now rewrite app_nil_r.
  - unfold bind at 1.
    destruct (ClientS3.collect_doc meta w) as [[d|e] w'] eqn:Ed; [|discriminate].
    intros E. rewrite (IH _ _ _ _ E), map_app, <- app_assoc. cbn [map app].
    do 2 f_equal. revert Ed. unfold ClientS3.collect_doc, bind.
    destruct (get_meta _ "s3" w) as [[found|?] ?]; [|discriminate].
    destruct (ClientS3._read _ _ _) as [[preview|?] ?]; [|discriminate].
    now intros [= <- <-].
Qed.

Lemma az_collect_paths (metas : list Listed) :
  forall (acc docs : list Doc) (w w1 : World),
  ClientAzure.collect metas acc w = (Ok docs, w1) ->
  map d_path docs = (map d_path acc ++ map l_path metas)%list.
Proof.
  induction metas as [|meta metas IH]; intros acc docs w w1;
    cbn [ClientAzure.collect map].
  - intros [= <- <-]. now rewrite app_nil_r.
  - unfold bind at 1.
    destruct (ClientAzure.collect_doc meta w) as [[d|e] w'] eqn:Ed; [|discriminate].
    intros E. rewrite (IH _ _ _ _ E), map_app, <- app_assoc. cbn [map app].
    do 2 f_equal. revert Ed. unfold ClientAzure.collect_doc, bind.
    destruct (get_meta _ "azure" w) as [[found|?] ?]; [|discriminate].
    destruct (ClientAzure._read_blob _ _ _) as [[text|?] ?]; [|discriminate].
    now intros [= <- <-].
Qed.

Lemma no_document_for (t : string) (docs : list Doc) :
  ~ In t (map d_path docs) -> filter (fun d => d_path d = t) docs = [].
Proof.
  intros Hn. apply filter_none. intros d Hd E. apply Hn.
  rewrite <- E. apply List.in_map. now apply list_elem_of_In.
Qed.

(** A target that is not in the bucket.  When the S3 client is asked
    about a target path under which the configured bucket holds no
    object, its [answer], if it returns, returns the text No data found
    for file followed by the target, and not a reply of the model. *)
Theorem s3_answer_unknown_target (question t b out : string) (w : World) :
  S3_BUCKET = Some b ->
  truthy t = true ->
  s3_objects w !! (b, t) = None ->
  fst (ClientS3.answer question (Some t) w) = Ok out ->
  out = "No data found for file: " +:+ t.
Proof.
  intros Hb Ht Hnone. unfold ClientS3.answer.
  rewrite (Threading.bind_Ok _ _ w
             (logged w [Called "s3.answer" [question; fmt (Some t)]]) tt eq_refl).
  cbv beta. set (w0 := logged w _).
  pose proof (frames_s3__auto_prescan untouched untouched_refl untouched_trans
                untouched_log untouched_write_meta w0) as Hu.
  destruct (ClientS3._auto_prescan w0) as [[[]|e] w1] eqn:E1.
  2:{ rewrite (bind_Raise _ _ _ _ _ E1). discriminate. }
  rewrite (Threading.bind_Ok _ _ _ _ _ E1). cbn [snd] in Hu.
  destruct (ClientS3._collect_docs w1) as [[docs|e] w2] eqn:E2.
  2:{ rewrite (bind_Raise _ _ _ _ _ E2). discriminate. }
  rewrite (Threading.bind_Ok _ _ _ _ _ E2). rewrite Ht.
  assert (Hno : ~ In t (map d_path docs)).
  { revert E2. unfold ClientS3._collect_docs, bind.
    destruct (ClientS3._list_meta w1) as [[metas|?] w1'] eqn:El; [|discriminate].
    intros Ec. rewrite (s3_collect_paths _ _ _ _ _ Ec). cbn [map app].
    intros Hin. apply List.in_map_iff in Hin as (m & <- & Hm).
    apply list_elem_of_In in Hm.
    destruct (s3__list_meta_lists b _ _ _ Hb El m Hm) as [[o Ho] Hs].
    destruct Hu as (_ & Hs3 & _). destruct (Hs3 b (l_path m)) as [Hsame _].
    rewrite (Hsame Hs) in Ho. cbn [s3_objects w0 logged] in Ho. congruence. }
  rewrite (no_document_for _ _ Hno). now intros [= <-].
Qed.

(** The same for the Azure client and the configured container. *)
Theorem azure_answer_unknown_target (question t c out : string) (w : World) :
  AZURE_CONTAINER = Some c ->
  truthy t = true ->
  azure_blobs w !! (c, t) = None ->
  fst (ClientAzure.answer question (Some t) w) = Ok out ->
  out = "No data found for file: " +:+ t.
Proof.
  intros Hc Ht Hnone. unfold ClientAzure.answer.
  rewrite (Threading.bind_Ok _ _ w
             (logged w [Called "azure.answer" [question; fmt (Some t)]]) tt eq_refl).
  cbv beta. set (w0 := logged w _).
  destruct (ClientAzure._collect_docs w0) as [[docs|e] w2] eqn:E2.
  2:{ rewrite (bind_Raise _ _ _ _ _ E2). discriminate. }
  rewrite (Threading.bind_Ok _ _ _ _ _ E2). rewrite Ht.
  assert (Hno : ~ In t (map d_path docs)).
  { revert E2. unfold ClientAzure._collect_docs.
    pose proof (frames_az__prescan untouched untouched_refl untouched_trans
                  untouched_log untouched_write_meta w0) as Hu.
    unfold bind.
    destruct (ClientAzure._prescan w0) as [[[]|?] w1]; [|discriminate].
    cbn [snd] in Hu.
    destruct (ClientAzure._list_meta w1) as [[metas|?] w1'] eqn:El; [|discriminate].
    intros Ec. rewrite (az_collect_paths _ _ _ _ _ Ec). cbn [map app].
    intros Hin. apply List.in_map_iff in Hin as (m & <- & Hm).
    apply list_elem_of_In in Hm.
    destruct (az__list_meta_lists c _ _ _ Hc El m Hm) as [[o Ho] Hs].
    destruct Hu as (_ & _ & Haz). destruct (Haz c (l_path m)) as [Hsame _].
    rewrite (Hsame Hs) in Ho. cbn [azure_blobs w0 logged] in Ho. congruence. }
  rewrite (no_document_for _ _ Hno). now intros [= <-].
Qed.

End WithCollaborators.

Lemma s3_answer_unknown_target_witness :
  match fst (@ClientS3.answer Samples.online "What is in it?"
               (Some "missing.csv") Samples.stocked) with
  | Ok out => out
  | Raise _ => EmptyString
  end = "No data found for file: " +:+ "missing.csv".
Proof.
  apply (@s3_answer_unknown_target Samples.online "What is in it?"
           "missing.csv" "bkt" _ Samples.stocked).
  - reflexivity.
  - reflexivity.
  - vm_compute. reflexivity.
  - vm_compute. reflexivity.
Defined.

Lemma azure_answer_unknown_target_witness :
  match fst (@ClientAzure.answer Samples.online "What is in it?"
               (Some "missing.csv") Samples.stocked) with
  | Ok out => out
  | Raise _ => EmptyString
  end = "No data found for file: " +:+ "missing.csv".
Proof.
  apply (@azure_answer_unknown_target Samples.online "What is in it?"
           "missing.csv" "cont" _ Samples.stocked).
  - reflexivity.
  - reflexivity.
  - vm_compute. reflexivity.
  - vm_compute. reflexivity.
Defined.

End Targets.
(** ** The names of the local side-car files, there and back *)

Module LocalNames.
Import PyStr PyStrFacts StripFacts Notions.
Export Targets.

Lemma join_cons2 (sep x y : string) (l : list string) :
  join sep (x :: y :: l) = x +:+ sep +:+ join sep (y :: l).
Proof. reflexivity. Qed.

Lemma split_fuel_nonempty (f : nat) (sep s : string) :
  exists p ps, split_fuel f sep s = p :: ps.
Proof.
  destruct f as [|f]; cbn [split_fuel]; [now eexists _, _|].
  destruct (split_once sep s) as [[a b]|]; now eexists _, _.
Qed.

(** Joining what was split gives the text back, whatever the fuel. *)
Lemma join_split_fuel (f : nat) (sep s : string) :
  join sep (split_fuel f sep s) = s.
Proof.
  revert s. induction f as [|f IH]; intros s; cbn [split_fuel]; [reflexivity|].
  destruct (split_once sep s) as [[a b]|] eqn:E; [|reflexivity].
  destruct (split_fuel_nonempty f sep b) as (p & ps & Hp).
  pose proof (IH b) as Hb. rewrite Hp in *. rewrite join_cons2, Hb.
  symmetry. now apply split_once_Some.
Qed.

Lemma lacks_nil (c : ascii) : lacks c EmptyString.
Proof. reflexivity. Qed.

Lemma lacks_String (c a : ascii) (p : string) :
  a <> c -> lacks c p -> lacks c (String a p).
Proof.
  unfold lacks, contains. intros Hne Hp. rewrite split_once_unfold.
  rewrite startswith_cons. cbn [startswith].
  destruct (Ascii.eqb c a) eqn:E.
  - apply Ascii.eqb_eq in E. now destruct Hne.
  - destruct (split_once (String c EmptyString) p) as [[? ?]|];
      [discriminate | reflexivity].
Qed.

Lemma lacks_append (c : ascii) (a b : string) :
  lacks c (a +:+ b) <-> lacks c a /\ lacks c b.
Proof.
  induction a as [|x a IH]; push_append.
  - split; [intros Hb; split; [apply lacks_nil | exact Hb] | tauto].
  - split.
    + intros Hab. apply lacks_cons in Hab as [Hx Hab]. apply IH in Hab.
      split; [apply lacks_String; tauto | tauto].
    + intros [Ha Hb]. apply lacks_cons in Ha as [Hx Ha].
      apply lacks_String; [exact Hx | apply IH; tauto].
Qed.

Lemma split_fuel_lacks (c : ascii) (f : nat) (sep s : string) :
  lacks c s -> Forall (lacks c) (split_fuel f sep s).
Proof.
  revert s. induction f as [|f IH]; intros s Hs; cbn [split_fuel].
  - now repeat constructor.
  - destruct (split_once sep s) as [[a b]|] eqn:E; [|now repeat constructor].
    apply split_once_Some in E. subst s.
    apply lacks_append in Hs as [Ha Hs]. apply lacks_append in Hs as [_ Hb].
    constructor; [exact Ha | now apply IH].
Qed.

Lemma length_join_ge (c : ascii) (ps : list string) (p : string) :
  (length ps <= String.length (join (String c EmptyString) (p :: ps)))%nat.
Proof.
  revert p. induction ps as [|q ps IH]; intros p; [cbn; lia|].
  rewrite join_cons2, !length_append. specialize (IH q). cbn [length String.length].
  lia.
Qed.

(** Splitting what was joined gives the parts back, when no part holds
    the separator. *)
Lemma split_fuel_join (c : ascii) (ps : list string) :
  forall (p : string) (f : nat),
  (length ps <= f)%nat -> Forall (lacks c) (p :: ps) ->
  split_fuel f (String c EmptyString) (join (String c EmptyString) (p :: ps))
  = p :: ps.
Proof.
  induction ps as [|q ps IH]; intros p f Hf Hl.
  - apply Forall_cons in Hl as [Hp _]. cbn [join].
    destruct f as [|f]; cbn [split_fuel]; [reflexivity|].
    unfold lacks in Hp. now rewrite (contains_false _ _ Hp).
  - apply Forall_cons in Hl as [Hp Hl].
    destruct f as [|f]; [cbn in Hf; lia|]. cbn [split_fuel].
    rewrite join_cons2.
    pose proof (split_once_first EmptyString c p
                  (join (String c EmptyString) (q :: ps))) as X.
    cbv zeta in X. rewrite !append_nil, append_empty_r in X.
    rewrite (X Hp). f_equal. apply IH; [cbn in Hf; lia | exact Hl].
Qed.

(** The name of a file, decoded and encoded again, is the name. *)
Lemma encode_decode (name : string) :
  contains "/" name = false ->
  replace "/" "__" (replace "__" "/" name) = name.
Proof.
  intros Hn. unfold replace at 2. unfold split.
  pose proof (split_fuel_lacks "/" (String.length name) "__" name Hn) as Hl.
  pose proof (join_split_fuel (String.length name) "__" name) as Hj.
  destruct (split_fuel_nonempty (String.length name) "__" name) as (p & ps & Hp).
  rewrite Hp in *. unfold replace, split.
  rewrite (split_fuel_join "/" ps p _ (length_join_ge "/" ps p) Hl).
  exact Hj.
Qed.

Lemma omap_head {A B} (f : A -> option B) (x : A) (l : list A) :
  omap f (x :: l)
  = match f x with Some y => y :: omap f l | None => omap f l end.
Proof. reflexivity. Qed.

Section WithCollaborators.
Context `{Collaborators}.

(** The key of a local file leads back to the file.  In test mode, for a
    file name without a slash, [_load] of the key that [_iter_keys] makes
    of the name (every doubled underscore turned into a slash) reads the
    file of that very name, also when the name of the object itself holds
    doubled underscores. *)
Theorem _load_of_listed_key (name : string) (w : World) :
  TEST_MODE = true ->
  contains "/" name = false ->
  _load (replace "__" "/" name) w = read_bytes name w.
Proof.
  intros Ht Hn. unfold _load. now rewrite Ht, (encode_decode _ Hn).
Qed.

Lemma record_at_listed_key (name : string) (w : World) :
  TEST_MODE = true ->
  contains "/" name = false ->
  record_at w (replace "__" "/" name)
  = match local_files w !! name with
    | Some raw => from_json raw
    | None => None
    end.
Proof.
  intros Ht Hn. unfold record_at, stored_text.
  now rewrite Ht, (encode_decode _ Hn).
Qed.

Lemma omap_listed (w : World) (prefix : string) (names : list string) :
  TEST_MODE = true ->
  Forall (fun name => contains "/" name = false) names ->
  omap (record_at w)
    (filter (fun path => Is_true (startswith prefix path))
       (map (replace "__" "/") names))
  = omap (fun name => match local_files w !! name with
                      | Some raw => from_json raw
                      | None => None
                      end)
      (filter (fun name => Is_true (startswith prefix (replace "__" "/" name)))
         names).
Proof.
  intros Ht Hf. induction Hf as [|name names Hn _ IH]; [reflexivity|].
  cbn [map]. rewrite !filter_cons.
  destruct (decide (Is_true (startswith prefix (replace "__" "/" name))));
    [|exact IH].
  rewrite !omap_head.
  now rewrite (record_at_listed_key _ _ Ht Hn), IH.
Qed.

(** [read_all] in test mode.  When the local file names that the glob
    yields hold no slash, [read_all] returns, in the order of the glob,
    the records of the files whose decoded name begins with the prefix
    and whose text parses: what it lists it also finds. *)
Theorem read_all_in_test_mode (prefix : string) (names : list string)
    (w w1 : World) :
  TEST_MODE = true ->
  glob_sidecars SUFFIX w = (Ok names, w1) ->
  Forall (fun name => contains "/" name = false) names ->
  fst (read_all prefix w)
  = Ok (omap (fun name => match local_files w !! name with
                          | Some raw => from_json raw
                          | None => None
                          end)
          (filter (fun name => Is_true (startswith prefix (replace "__" "/" name)))
             names)).
Proof.
  intros Ht Hg Hf. unfold read_all, _iter_keys. rewrite Ht.
  rewrite (Threading.bind_Ok _ _ _ _ _
             (Threading.bind_Ok _ _ _ _ _ Hg)).
  cbv beta. rewrite read_each_collects. cbn [app]. f_equal.
  assert (Hw : forall key, record_at w1 key = record_at w key).
  { revert Hg. unfold glob_sidecars, bind, log, world. cbv beta iota.
    now intros [= _ <-]. }
  rewrite (omap_agree _ _ _ Hw). now apply omap_listed.
Qed.

End WithCollaborators.

Lemma _load_of_listed_key_witness :
  @_load Samples.offline (replace "__" "/" "bkt__my__notes.txt.meta.json")
    MoreSamples.local_cache
  = read_bytes "bkt__my__notes.txt.meta.json" MoreSamples.local_cache.
Proof.
  exact (@_load_of_listed_key Samples.offline "bkt__my__notes.txt.meta.json"
           MoreSamples.local_cache eq_refl eq_refl).
Defined.

Lemma read_all_in_test_mode_witness :
  fst (@read_all Samples.offline "bkt/" MoreSamples.local_cache)
  = Ok (omap (fun name => match local_files MoreSamples.local_cache !! name with
                          | Some raw => from_json raw
                          | None => None
                          end)
          (filter (fun name => Is_true (startswith "bkt/" (replace "__" "/" name)))
             ["bkt__a.csv.meta.json"; "bkt__my__notes.txt.meta.json"])).
Proof.
  apply (@read_all_in_test_mode Samples.offline "bkt/" _
           MoreSamples.local_cache
           (snd (glob_sidecars SUFFIX MoreSamples.local_cache))).
  - reflexivity.
  - vm_compute. reflexivity.
  - repeat constructor.
Defined.

End LocalNames.
(** ** The files the planner is told about *)

Module Blocks.
Import PyStr PyStrFacts.
Export LocalNames.
Import Orchestrator.

Lemma listed_eqb_refl (m : Listed) : listed_eqb m m = true.
Proof.
  unfold listed_eqb. rewrite !String.eqb_refl. cbn.
  destruct (l_description m); [apply String.eqb_refl | reflexivity].
Qed.

Lemma existsb_here (m : Listed) (l : list Listed) :
  In m l -> existsb (listed_eqb m) l = true.
Proof.
  intros Hin. apply existsb_exists. exists m. split; [exact Hin|].
  apply listed_eqb_refl.
Qed.

Lemma existsb_other_kind (m : Listed) (l : list Listed) :
  l_description m <> None ->
  Forall (fun x => l_description x = None) l ->
  existsb (listed_eqb m) l = false.
Proof.
  intros Hm Hl. induction Hl as [|x l Hx _ IH]; [reflexivity|].
  cbn [existsb]. rewrite IH, orb_false_r. unfold listed_eqb. rewrite Hx.
  destruct (l_description m); [apply andb_false_r | now destruct Hm].
Qed.

Section WithCollaborators.
Context `{Collaborators}.

(** The listing of the bucket depends on the bucket alone, and every
    entry it makes is without a description. *)
Lemma list_s3_meta_again (w w' : World) :
  unwritten w w' -> fst (list_s3_meta w') = fst (list_s3_meta w).
Proof.
  intros (_ & Hs & _).
  unfold list_s3_meta, ClientS3._list_meta, s3_list_keys, bind, log, world.
  destruct ClientS3.BUCKET; cbn; [now rewrite Hs | reflexivity].
Qed.

Lemma list_s3_meta_plain (metas : list Listed) (w w1 : World) :
  list_s3_meta w = (Ok metas, w1) ->
  Forall (fun x => l_description x = None) metas.
Proof.
  unfold list_s3_meta, ClientS3._list_meta, bind.
  destruct (s3_list_keys _ _ w) as [[keys|?] ?]; [|discriminate].
  intros [= <- <-]. apply List.Forall_forall. intros x Hx.
  apply List.in_map_iff in Hx as (k & <- & _). reflexivity.
Qed.

Lemma list_az_meta_described (metas : list Listed) (w w1 : World) :
  list_az_meta w = (Ok metas, w1) ->
  Forall (fun x => l_description x <> None) metas.
Proof.
  unfold list_az_meta, ClientAzure._list_meta, bind.
  destruct (list_blobs _ _ w) as [[names|?] ?]; [|discriminate].
  intros [= <- <-]. apply List.Forall_forall. intros x Hx.
  apply List.in_map_iff in Hx as (k & <- & _). discriminate.
Qed.

(** One turn of the loop adds the object with its tag, and writes
    nothing. *)
Lemma block_step_files (from_s3 : list Listed) (st st' : Blocks)
    (meta : Listed) (w0 w w' : World) :
  fst (list_s3_meta w0) = Ok from_s3 ->
  unwritten w0 w ->
  block_step st meta w = (Ok st', w') ->
  all_files st'
  = (all_files st
     ++ [(l_path meta,
          if existsb (listed_eqb meta) from_s3 then "s3" else "azure")])%list
  /\ unwritten w0 w'.
Proof.
  intros Hl Hu E. split.
  - revert E. unfold block_step. unfold bind at 1.
    pose proof (list_s3_meta_again _ _ Hu) as Ha. rewrite Hl in Ha.
    pose proof (frames_s3__list_meta unwritten unwritten_refl unwritten_trans
                  unwritten_log w) as Hw.
    change ClientS3._list_meta with list_s3_meta in Hw.
    destruct (list_s3_meta w) as [r w1]. cbn [fst snd] in Ha, Hw. subst r.
    unfold try_except, bind.
    destruct (_download_head (l_path meta) _ w1) as [[head|e] w2].
    + destruct (read_csv_columns (fst head)) as [cols|].
      * now intros [= <- <-].
      * cbn. now intros [= <- <-].
    + destruct (head_text st) as [text|]; [|discriminate].
      cbn. now intros [= <- <-].
  - pose proof (frames_block_loop unwritten unwritten_refl unwritten_trans
                  unwritten_log [meta] st w) as Hw.
    cbn [block_loop] in Hw. unfold bind in Hw. rewrite E in Hw.
    cbn [ret snd] in Hw. eapply unwritten_trans; eassumption.
Qed.

Lemma block_loop_files (from_s3 : list Listed) (metas : list Listed) :
  forall (st st' : Blocks) (w0 w w' : World),
  fst (list_s3_meta w0) = Ok from_s3 ->
  unwritten w0 w ->
  block_loop metas st w = (Ok st', w') ->
  all_files st'
  = (all_files st
     ++ map (fun m => (l_path m,
                       if existsb (listed_eqb m) from_s3 then "s3" else "azure"))
          metas)%list.
Proof.
  induction metas as [|meta metas IH]; intros st st' w0 w w' Hl Hu;
    cbn [block_loop map].
  - intros [= <- <-]. now rewrite app_nil_r.
  - unfold bind.
    destruct (block_step st meta w) as [[st1|e] w1] eqn:E; [|discriminate].
    destruct (block_step_files _ _ _ _ _ _ _ Hl Hu E) as [Hf Hu1].
    intros E2. rewrite (IH _ _ _ _ _ Hl Hu1 E2), Hf, <- app_assoc.
    reflexivity.
Qed.

(** Every object is named to the planner, with its source.  When
    [_build_dataset_and_schema_blocks] returns, the list of files it
    returns has one entry for every object the bucket lists, tagged s3,
    followed by one entry for every blob the container lists, tagged
    azure, each in listing order; also for the objects whose head could
    not be loaded or read as a table. *)
Theorem blocks_name_every_object (from_s3 from_az : list Listed)
    (dataset_block schema_block : string) (files : list (string * string))
    (w w1 w2 w3 : World) :
  list_s3_meta w = (Ok from_s3, w1) ->
  list_az_meta w1 = (Ok from_az, w2) ->
  _build_dataset_and_schema_blocks w
  = (Ok (dataset_block, schema_block, files), w3) ->
  files = (map (fun m => (l_path m, "s3")) from_s3
           ++ map (fun m => (l_path m, "azure")) from_az)%list.
Proof.
  intros Hs Ha. unfold _build_dataset_and_schema_blocks.
  rewrite (Threading.bind_Ok _ _ _ _ _ Hs), (Threading.bind_Ok _ _ _ _ _ Ha).
  unfold bind.
  destruct (block_loop _ _ w2) as [[st|e] w4] eqn:E; [|discriminate].
  intros [= _ _ <- _].
  assert (Hu : unwritten w w2).
  { pose proof (frames_s3__list_meta unwritten unwritten_refl unwritten_trans
                  unwritten_log w) as H1.
    pose proof (frames_az__list_meta unwritten unwritten_refl unwritten_trans
                  unwritten_log w1) as H2.
    change ClientS3._list_meta with list_s3_meta in H1.
    change ClientAzure._list_meta with list_az_meta in H2.
    rewrite Hs in H1. rewrite Ha in H2. cbn [snd] in H1, H2.
    eapply unwritten_trans; eassumption. }
  rewrite (block_loop_files from_s3 _ _ _ w w2 w4 ltac:(now rewrite Hs) Hu E).
  cbn [all_files app]. rewrite map_app. f_equal.
  - apply List.map_ext_in. intros m Hm. now rewrite (existsb_here _ _ Hm).
  - pose proof (list_s3_meta_plain _ _ _ Hs) as Hplain.
    pose proof (list_az_meta_described _ _ _ Ha) as Hdesc.
    apply List.map_ext_in. intros m Hm.
    rewrite (existsb_other_kind m from_s3); [reflexivity | | exact Hplain].
    rewrite List.Forall_forall in Hdesc. now apply Hdesc.
Qed.

End WithCollaborators.

Lemma blocks_name_every_object_witness :
  snd (match fst (@_build_dataset_and_schema_blocks Samples.online
                    Samples.stocked) with
       | Ok blocks => blocks
       | Raise _ => (EmptyString, EmptyString, [])
       end)
  = (map (fun m => (l_path m, "s3")) [mkListed "orders.csv" "orders.csv" None]
     ++ map (fun m => (l_path m, "azure")) [])%list.
Proof.
  apply (@blocks_name_every_object Samples.online
           [mkListed "orders.csv" "orders.csv" None] []
           (fst (fst (match fst (@_build_dataset_and_schema_blocks
                                   Samples.online Samples.stocked) with
                      | Ok blocks => blocks
                      | Raise _ => (EmptyString, EmptyString, [])
                      end)))
           (snd (fst (match fst (@_build_dataset_and_schema_blocks
                                   Samples.online Samples.stocked) with
                      | Ok blocks => blocks
                      | Raise _ => (EmptyString, EmptyString, [])
                      end)))
           _ Samples.stocked
           (snd (@list_s3_meta Samples.online Samples.stocked))
           (snd (@list_az_meta Samples.online
                   (snd (@list_s3_meta Samples.online Samples.stocked))))
           (snd (@_build_dataset_and_schema_blocks Samples.online
                   Samples.stocked))).
  - vm_compute. reflexivity.
  - vm_compute. reflexivity.
  - vm_compute. reflexivity.
Defined.

End Blocks.
(** ** What an answer is made of, and what ends a plan *)

Module Replies.
Import PyStr PyStrFacts.
Export Blocks.
Import Scanner.

Lemma bind_inv {A B} (m : M A) (k : A -> M B) (w w2 : World) (b : B) :
  bind m k w = (Ok b, w2) ->
  exists a w1, m w = (Ok a, w1) /\ k a w1 = (Ok b, w2).
Proof.
  unfold bind. destruct (m w) as [[a|e] w1]; [|discriminate].
  intros E. now exists a, w1.
Qed.

Section WithCollaborators.
Context `{Collaborators}.

Lemma create_message_inv (model prompt : string) (chunks : list string)
    (w w1 : World) :
  create_message model prompt w = (Ok chunks, w1) ->
  complete (trace w) model prompt = Some chunks.
Proof.
  rewrite create_message_reply.
  destruct (complete (trace w) model prompt); [|discriminate].
  now intros [= <- _].
Qed.

(** An answer is the no-data text or the answer text of a reply.  When
    the [answer] of a per-source client returns, what it returns is
    either the text No data found for file with the target, or the text
    [answer_text] cuts out of a reply the model gave to a prompt built
    for the question: of the first block of the reply in the S3 client,
    of all blocks of the reply joined in the Azure client, trimmed in
    both. *)
Theorem answers_come_from_replies (question out : string)
    (target : option string) (w : World) :
  (fst (ClientS3.answer question target w) = Ok out ->
   (exists t, target = Some t /\ out = "No data found for file: " +:+ t)
   \/ exists tr docs chunks first,
        complete tr Client.MODEL (Client._build_prompt "-" question docs)
        = Some chunks
        /\ chunks !! 0%nat = Some first
        /\ out = Client.answer_text (strip first))
  /\ (fst (ClientAzure.answer question target w) = Ok out ->
      (exists t, target = Some t /\ out = "No data found for file: " +:+ t)
      \/ exists tr docs chunks,
           complete tr Client.MODEL (Client._build_prompt "‑" question docs)
           = Some chunks
           /\ out = Client.answer_text
                      (strip (String.concat EmptyString chunks))).
Proof.
  split.
  - intros E.
    destruct (ClientS3.answer question target w) as [r w'] eqn:Ea.
    cbn [fst] in E. subst r. unfold ClientS3.answer in Ea.
    apply bind_inv in Ea as ([] & w0 & _ & Ea).
    apply bind_inv in Ea as ([] & w1 & _ & Ea).
    apply bind_inv in Ea as (docs & w2 & _ & Ea).
    set (wanted := match target with
                   | Some t => if truthy t then Some t else None
                   | None => None
                   end) in Ea.
    set (docs' := match wanted with
                  | Some t => filter (fun d => d_path d = t) docs
                  | None => docs
                  end) in Ea.
    assert (Hrun : forall w2 w',
              (chunks <- create_message Client.MODEL
                           (Client._build_prompt "-" question docs') ;;
               first <- Client.item chunks 0 ;;
               let raw := strip first in
               Client.cache_descriptions ClientS3.BUCKET "s3" now true raw ;;;
               ret (Client.answer_text raw)) w2 = (Ok out, w') ->
              exists tr docs chunks first,
                complete tr Client.MODEL (Client._build_prompt "-" question docs)
                = Some chunks
                /\ chunks !! 0%nat = Some first
                /\ out = Client.answer_text (strip first)).
    { clear. intros w2 w' Ea.
      apply bind_inv in Ea as (chunks & w3 & Ec & Ea).
      apply bind_inv in Ea as (first & w4 & Ei & Ea).
      apply bind_inv in Ea as ([] & w5 & _ & Ea).
      injection Ea as <- _.
      exists (trace w2), docs', chunks, first.
      split; [exact (create_message_inv _ _ _ _ _ Ec)|]. split; [|reflexivity].
      revert Ei. unfold Client.item.
      destruct (chunks !! 0%nat); [|discriminate]. now intros [= <- _]. }
    destruct wanted as [t|] eqn:Ew.
    + destruct docs' as [|d ds] eqn:Ed.
      * injection Ea as <- _. left. exists t. split; [|reflexivity].
        revert Ew. unfold wanted. destruct target as [t'|]; [|discriminate].
        destruct (truthy t'); [|discriminate]. now intros [= ->].
      * right. exact (Hrun _ _ Ea).
    + right. destruct docs'; exact (Hrun _ _ Ea).
  - intros E.
    destruct (ClientAzure.answer question target w) as [r w'] eqn:Ea.
    cbn [fst] in E. subst r. unfold ClientAzure.answer in Ea.
    apply bind_inv in Ea as ([] & w0 & _ & Ea).
    apply bind_inv in Ea as (docs & w2 & _ & Ea).
    set (wanted := match target with
                   | Some t => if truthy t then Some t else None
                   | None => None
                   end) in Ea.
    set (docs' := match wanted with
                  | Some t => filter (fun d => d_path d = t) docs
                  | None => docs
                  end) in Ea.
    assert (Hrun : forall w2 w',
              (chunks <- create_message Client.MODEL
                           (Client._build_prompt "‑" question docs') ;;
               let raw := strip (String.concat EmptyString chunks) in
               Client.cache_descriptions ClientAzure.AZ_CONTAINER "azure"
                 utcnow false raw ;;;
               ret (Client.answer_text raw)) w2 = (Ok out, w') ->
              exists tr docs chunks,
                complete tr Client.MODEL (Client._build_prompt "‑" question docs)
                = Some chunks
                /\ out = Client.answer_text
                           (strip (String.concat EmptyString chunks))).
    { clear. intros w2 w' Ea.
      apply bind_inv in Ea as (chunks & w3 & Ec & Ea).
      apply bind_inv in Ea as ([] & w5 & _ & Ea).
      injection Ea as <- _.
      exists (trace w2), docs', chunks.
      split; [exact (create_message_inv _ _ _ _ _ Ec) | reflexivity]. }
    destruct wanted as [t|] eqn:Ew.
    + destruct docs' as [|d ds] eqn:Ed.
      * injection Ea as <- _. left. exists t. split; [|reflexivity].
        revert Ew. unfold wanted. destruct target as [t'|]; [|discriminate].
        destruct (truthy t'); [|discriminate]. now intros [= ->].
      * right. exact (Hrun _ _ Ea).
    + right. destruct docs'; exact (Hrun _ _ Ea).
Qed.

Import Orchestrator.

(** A step that fails ends the plan.  When the steps before a step have
    run and the step itself raises (its per-source client raised), then
    [_execute_plan] raises the same exception, whatever steps follow: no
    entry is made for the failure and no later step runs; and the
    orchestrator's [answer] for that plan raises it too. *)
Theorem step_failure_ends_the_plan (question : string)
    (before after : list Step) (step : Step)
    (st : list (string * string) * list string) (e : Exception)
    (w w0 w1 w2 : World) :
  execute_steps before ([], []) w0 = (Ok st, w1) ->
  execute_step step st w1 = (Raise e, w2) ->
  _execute_plan (Some (before ++ step :: after)%list) w0 = (Raise e, w2)
  /\ (discover_and_plan question w
      = (Ok (Some (before ++ step :: after)%list), w0) ->
      Orchestrator.answer question w = (Raise e, w2)).
Proof.
  intros Hb Hs.
  assert (Hx : _execute_plan (Some (before ++ step :: after)%list) w0
               = (Raise e, w2)).
  { unfold _execute_plan, steps_of. apply bind_Raise.
    rewrite Threading.execute_steps_app. rewrite (Threading.bind_Ok _ _ _ _ _ Hb).
    cbn [execute_steps]. now apply bind_Raise. }
  split; [exact Hx|].
  intros Hp. unfold Orchestrator.answer. rewrite (Threading.bind_Ok _ _ _ _ _ Hp).
  unfold conclude.
  destruct (steps_of (Some (before ++ step :: after)%list)) eqn:Es.
  - cbn [steps_of] in Es. now destruct before.
  - now apply bind_Raise.
Qed.

End WithCollaborators.

Lemma step_failure_ends_the_plan_witness :
  @Orchestrator._execute_plan Samples.planned
    (Some ([] ++ Samples.ask_orders :: [Samples.ask_again])%list)
    Samples.one_empty_object
  = (Raise ParserError,
     snd (@Orchestrator.execute_step Samples.planned Samples.ask_orders ([], [])
            Samples.one_empty_object))
  /\ (@Orchestrator.discover_and_plan Samples.planned "Which orders stand out?"
        Samples.one_empty_object
      = (Ok (Some ([] ++ Samples.ask_orders :: [Samples.ask_again])%list),
         Samples.one_empty_object) ->
      @Orchestrator.answer Samples.planned "Which orders stand out?"
        Samples.one_empty_object
      = (Raise ParserError,
         snd (@Orchestrator.execute_step Samples.planned Samples.ask_orders ([], [])
                Samples.one_empty_object))).
Proof.
  apply (@step_failure_ends_the_plan Samples.planned "Which orders stand out?"
           [] [Samples.ask_again] Samples.ask_orders ([], []) ParserError
           Samples.one_empty_object Samples.one_empty_object
           Samples.one_empty_object).
  - reflexivity.
  - vm_compute. reflexivity.
Defined.

End Replies.
(** ** After the pre-scan every object has a record *)

Module Prescan.
Import PyStr PyStrFacts RoundTrip.
Export Replies.
Import Scanner.

(** The name of an object of the container is listed. *)
Lemma lookup_names_in (container k : string)
    (m : gmap (string * string) Object) :
  is_Some (m !! (container, k)) -> k ∈ names_in container m.
Proof.
  intros [o Ho]. unfold names_in, sorted. rewrite merge_sort_Permutation.
  apply list_elem_of_In, List.in_map_iff. exists ((container, k), o).
  split; [reflexivity|]. apply list_elem_of_In, list_elem_of_filter.
  split; [reflexivity|]. now apply elem_of_map_to_list.
Qed.

(** What holds for an element after its turn of a loop, and is kept by
    every turn, holds for every element after the loop. *)
Lemma for_each_post {A} (P : A -> World -> Prop) (body : A -> M unit)
    (l : list A) :
  (forall x w w', body x w = (Ok tt, w') -> P x w') ->
  (forall x y w, P x w -> P x (snd (body y w))) ->
  forall w w1, for_each l body w = (Ok tt, w1) ->
  forall x, In x l -> P x w1.
Proof.
  intros Hpost Hkeep.
  assert (Hloop : forall l x w, P x w -> P x (snd (for_each l body w))).
  { clear l. induction l as [|y l IH]; intros x w Hx; [exact Hx|].
    cbn [for_each]. unfold bind. specialize (Hkeep x y w Hx).
    destruct (body y w) as [[[]|e] w']; cbn [snd] in *; [now apply IH | exact Hkeep]. }
  induction l as [|a l IH]; intros w w1 E x Hin; [destruct Hin|].
  cbn [for_each] in E. apply bind_inv in E as ([] & wa & Ea & E).
  destruct Hin as [<- | Hin].
  - specialize (Hloop l a wa (Hpost _ _ _ Ea)). now rewrite E in Hloop.
  - exact (IH _ _ E x Hin).
Qed.

Section WithCollaborators.
Context `{Collaborators}.

Lemma records_kept_refl (w : World) : records_kept w w.
Proof. intros p Hp. exact Hp. Qed.

Lemma records_kept_trans (a b c : World) :
  records_kept a b -> records_kept b c -> records_kept a c.
Proof. intros H1 H2 p Hp. apply H2, H1, Hp. Qed.

Lemma records_kept_log (e : Event) (w : World) :
  records_kept w (snd (log e w)).
Proof. intros p Hp. exact Hp. Qed.

(** A record with a valid time replaces a record by a record. *)
Lemma records_kept_write (meta : FileMeta) (cloud : option string) :
  valid (last_scanned meta) = true ->
  frames records_kept (write_meta meta cloud).
Proof.
  intros Hv w p Hp. unfold write_meta, stored_meta in *.
  match goal with
  | |- context [_save ?k ?d ?c w] => destruct (_save_stores k d c w) as [_ Hst]
  end.
  destruct (Hst (p +:+ SUFFIX)) as [-> | [_ ->]]; [exact Hp|].
  rewrite from_json_to_json_gen, (strptime_strftime _ Hv). now eexists.
Qed.

Hypothesis Hnow : forall t, valid (now t) = true.
Hypothesis Hutc : forall t, valid (utcnow t) = true.

Lemma kept_scan_object (path cloud : string) :
  frames records_kept (scan_object path cloud).
Proof.
  pose proof records_kept_refl as R_refl.
  pose proof records_kept_trans as R_trans.
  pose proof records_kept_log as R_log.
  unfold scan_object. frames_all. apply records_kept_write, Hnow.
Qed.

Lemma kept_s3_prescan_one (meta : Listed) :
  frames records_kept (ClientS3.prescan_one meta).
Proof.
  pose proof records_kept_refl as R_refl.
  pose proof records_kept_trans as R_trans.
  pose proof records_kept_log as R_log.
  unfold ClientS3.prescan_one, ClientS3._read. frames_all.
  - apply records_kept_write, Hutc.
  - apply kept_scan_object.
Qed.

Lemma kept_az_prescan_one (meta : Listed) :
  frames records_kept (ClientAzure.prescan_one meta).
Proof.
  pose proof records_kept_refl as R_refl.
  pose proof records_kept_trans as R_trans.
  pose proof records_kept_log as R_log.
  unfold ClientAzure.prescan_one. frames_all.
  - apply records_kept_write, Hnow.
  - apply kept_scan_object.
Qed.

Hypothesis Hmode : TEST_MODE = false.

Lemma has_slash (container : option string) (key : string) :
  contains "/" (fmt container +:+ "/" +:+ key) = true.
Proof.
  unfold contains.
  destruct (split_once "/" (fmt container +:+ "/" +:+ key)) as [[a b]|] eqn:E;
    [reflexivity|].
  now destruct (split_once_None _ _ E (fmt container) key).
Qed.

(** The seed is written before the scan, and the scan keeps it or
    replaces it. *)
Lemma seeded (seed : FileMeta) (cloud : string) (w w1 : World)
    (container : option string) (key : string) :
  path seed = fmt container +:+ "/" +:+ key ->
  valid (last_scanned seed) = true ->
  bind (write_meta seed (Some cloud))
    (fun _ => scan_object (path seed) cloud) w = (Ok tt, w1) ->
  is_Some (stored_meta w1 (path seed)).
Proof.
  intros Hp Hv E. apply bind_inv in E as ([] & w2 & Ew & E).
  pose proof (kept_scan_object (path seed) cloud w2) as Hk.
  rewrite E in Hk. apply Hk.
  destruct (write_meta_stores seed (Some cloud) w Hmode
              ltac:(rewrite Hp; apply has_slash)) as [_ Hst].
  rewrite Ew in Hst. cbn [snd] in Hst. rewrite Hst.
  rewrite from_json_to_json_gen, (strptime_strftime _ Hv). now eexists.
Qed.

Lemma s3_prescan_one_records (meta : Listed) (w w1 : World) :
  ClientS3.prescan_one meta w = (Ok tt, w1) ->
  is_Some (stored_meta w1 (fmt ClientS3.BUCKET +:+ "/" +:+ l_path meta)).
Proof.
  unfold ClientS3.prescan_one. intros E.
  apply bind_inv in E as (found & w2 & Eg & E).
  destruct (get_meta_reads (fmt ClientS3.BUCKET +:+ "/" +:+ l_path meta) "s3" w)
    as (evs & _ & Er).
  rewrite Er in Eg. injection Eg as <- <-.
  destruct (stored_meta w _) as [m|] eqn:Em.
  - injection E as <-. change (stored_meta (logged w evs) ?p) with (stored_meta w p).
    rewrite Em. now eexists.
  - apply bind_inv in E as (raw & w3 & _ & E).
    apply bind_inv in E as (desc & w4 & _ & E).
    apply bind_inv in E as (w5 & w6 & Ew & E). injection Ew as <- <-.
    exact (seeded (mkFileMeta _ _ _ _ _ _ _) _ _ _ ClientS3.BUCKET (l_path meta)
             eq_refl (Hutc _) E).
Qed.

Lemma az_prescan_one_records (meta : Listed) (w w1 : World) :
  ClientAzure.prescan_one meta w = (Ok tt, w1) ->
  is_Some (stored_meta w1
             (fmt ClientAzure.AZ_CONTAINER +:+ "/" +:+ l_path meta)).
Proof.
  unfold ClientAzure.prescan_one. intros E.
  apply bind_inv in E as (found & w2 & Eg & E).
  destruct (get_meta_reads
              (fmt ClientAzure.AZ_CONTAINER +:+ "/" +:+ l_path meta) "azure" w)
    as (evs & _ & Er).
  rewrite Er in Eg. injection Eg as <- <-.
  destruct (stored_meta w _) as [m|] eqn:Em.
  - injection E as <-. change (stored_meta (logged w evs) ?p) with (stored_meta w p).
    rewrite Em. now eexists.
  - apply bind_inv in E as (w5 & w6 & Ew & E). injection Ew as <- <-.
    exact (seeded (mkFileMeta _ _ _ _ _ _ _) _ _ _ ClientAzure.AZ_CONTAINER
             (l_path meta) eq_refl (Hnow _) E).
Qed.

Lemma s3_listed (b key : string) (metas : list Listed) (w w1 : World) :
  S3_BUCKET = Some b ->
  ClientS3._list_meta w = (Ok metas, w1) ->
  is_Some (s3_objects w !! (b, key)) ->
  endswith ".meta.json" key = false ->
  In (mkListed key key None) metas.
Proof.
  intros Hb. unfold ClientS3._list_meta, ClientS3.BUCKET, s3_list_keys, bind,
    log, world. rewrite Hb. cbv beta iota. intros [= <- _] Ho Hs.
  apply (List.in_map (fun k => mkListed k k None)).
  apply list_elem_of_In, list_elem_of_filter. split.
  - unfold Client.not_sidecar. now rewrite Hs.
  - apply list_elem_of_filter. split; [exact I|].
    now apply lookup_names_in.
Qed.

Lemma az_listed (c key : string) (metas : list Listed) (w w1 : World) :
  AZURE_CONTAINER = Some c ->
  ClientAzure._list_meta w = (Ok metas, w1) ->
  is_Some (azure_blobs w !! (c, key)) ->
  endswith ".meta.json" key = false ->
  In (mkListed key key (Some EmptyString)) metas.
Proof.
  intros Hc. unfold ClientAzure._list_meta, ClientAzure.AZ_CONTAINER,
    list_blobs, bind, log, world. rewrite Hc. cbv beta iota.
  intros [= <- _] Ho Hs.
  apply (List.in_map (fun k => mkListed k k (Some EmptyString))).
  apply list_elem_of_In, list_elem_of_filter. split.
  - unfold Client.not_sidecar. now rewrite Hs.
  - apply list_elem_of_filter. split; [exact I|].
    now apply lookup_names_in.
Qed.

(** After the pre-scan of the S3 client.  Outside test mode and with
    clocks that give valid times: when [_auto_prescan] returns, every
    object of the configured bucket that is no side-car has a record,
    which [get_meta] finds under bucket/key. *)
Theorem s3_prescan_leaves_a_record (b key : string) (w w1 : World) :
  S3_BUCKET = Some b ->
  ClientS3._auto_prescan w = (Ok tt, w1) ->
  is_Some (s3_objects w !! (b, key)) ->
  endswith ".meta.json" key = false ->
  exists m, fst (get_meta (b +:+ "/" +:+ key) "s3" w1) = Ok (Some m).
Proof.
  intros Hb E Ho Hs. unfold ClientS3._auto_prescan in E.
  apply bind_inv in E as (metas & w2 & El & E).
  pose proof (s3_listed _ _ _ _ _ Hb El Ho Hs) as Hin.
  pose proof (for_each_post
                (fun meta w =>
                   is_Some (stored_meta w
                              (fmt ClientS3.BUCKET +:+ "/" +:+ l_path meta)))
                ClientS3.prescan_one metas s3_prescan_one_records
                (fun x y w Hx => kept_s3_prescan_one y w _ Hx)
                _ _ E _ Hin) as [m Hm].
  cbn [l_path] in Hm. unfold ClientS3.BUCKET in Hm. rewrite Hb in Hm.
  exists m. now rewrite get_meta_result, <- Hm.
Qed.

(** After the pre-scan of the Azure client: the same for the blobs of the
    configured container. *)
Theorem azure_prescan_leaves_a_record (c key : string) (w w1 : World) :
  AZURE_CONTAINER = Some c ->
  ClientAzure._prescan w = (Ok tt, w1) ->
  is_Some (azure_blobs w !! (c, key)) ->
  endswith ".meta.json" key = false ->
  exists m, fst (get_meta (c +:+ "/" +:+ key) "azure" w1) = Ok (Some m).
Proof.
  intros Hc E Ho Hs. unfold ClientAzure._prescan in E.
  apply bind_inv in E as (metas & w2 & El & E).
  pose proof (az_listed _ _ _ _ _ Hc El Ho Hs) as Hin.
  pose proof (for_each_post
                (fun meta w =>
                   is_Some (stored_meta w
                              (fmt ClientAzure.AZ_CONTAINER +:+ "/"
                               +:+ l_path meta)))
                ClientAzure.prescan_one metas az_prescan_one_records
                (fun x y w Hx => kept_az_prescan_one y w _ Hx)
                _ _ E _ Hin) as [m Hm].
  cbn [l_path] in Hm. unfold ClientAzure.AZ_CONTAINER in Hm. rewrite Hc in Hm.
  exists m. now rewrite get_meta_result, <- Hm.
Qed.

End WithCollaborators.

Lemma s3_prescan_leaves_a_record_witness :
  exists m,
    fst (@get_meta (MoreSamples.reading MoreSamples.orders_frame)
           ("bkt" +:+ "/" +:+ "data/orders.csv") "s3"
           (snd (@ClientS3._auto_prescan
                   (MoreSamples.reading MoreSamples.orders_frame)
                   Samples.one_nested_object)))
    = Ok (Some m).
Proof.
  apply (@s3_prescan_leaves_a_record
           (MoreSamples.reading MoreSamples.orders_frame)
           (fun t => eq_refl) (fun t => eq_refl) eq_refl
           "bkt" "data/orders.csv" Samples.one_nested_object).
  - reflexivity.
  - vm_compute. reflexivity.
  - vm_compute. now eexists.
  - reflexivity.
Defined.

Lemma azure_prescan_leaves_a_record_witness :
  exists m,
    fst (@get_meta Samples.online ("cont" +:+ "/" +:+ "notes.txt") "azure"
           (snd (@ClientAzure._prescan Samples.online MoreSamples.one_blob)))
    = Ok (Some m).
Proof.
  apply (@azure_prescan_leaves_a_record Samples.online
           (fun t => eq_refl) eq_refl
           "cont" "notes.txt" MoreSamples.one_blob).
  - reflexivity.
  - vm_compute. reflexivity.
  - vm_compute. now eexists.
  - reflexivity.
Defined.

End Prescan.
